(** * sensAI hyper-parameter optimisation ([sensai/hyperopt.py])

    A shallow embedding of the combinatorial helpers, the result
    collection, the grid search driver, the simulated-annealing adapter
    and the option generators of [hyperopt.py], followed by the
    properties the specification states about them and by further
    properties of the code.

    Conventions
    - a Python [dict] is an insertion-ordered association list with
      unique keys; the assignment [d[k] = v] overwrites in place or
      appends at the end;
    - a Python generator is the finite list of the values it yields,
      together with the exception that ended it, if any;
    - Python [int] is [Z], [str] is [string], a raised exception is the
      [Raise] case of [Result]. *)

From stdpp Require Import base decidable option list strings pretty gmap fin_maps sets sorting.
From Stdlib Require Import ZArith Lia Factorial.

#[local] Open Scope string_scope.
#[local] Open Scope list_scope.
#[local] Open Scope nat_scope.

(* ================================================================== *)
(** * Part I: the embedding                                            *)
(* ================================================================== *)

(** ** Exceptions *)

Inductive PyError :=
| IndexError
| KeyError (k : string)
| TypeError
| AttributeError
| ValueError (msg : string).

Inductive Result (A : Type) :=
| Ok (a : A)
| Raise (e : PyError).
Arguments Ok {A} a.
Arguments Raise {A} e.

#[export] Instance Result_ret : MRet Result := fun _ a => Ok a.
#[export] Instance Result_bind : MBind Result := fun _ _ f m =>
  match m with Ok a => f a | Raise e => Raise e end.
#[export] Instance Result_fmap : FMap Result := fun _ _ f m =>
  match m with Ok a => Ok (f a) | Raise e => Raise e end.

(** ** Python dictionaries *)

Module PyDict.
Section dict.
Context {K V : Type} `{EqDecision K}.

(** [d.get(k)]: [None] is Python's [None] for a missing key. *)
Fixpoint get (d : list (K * V)) (k : K) : option V :=
  match d with
  | [] => None
  | (k', v) :: d' => if decide (k = k') then Some v else get d' k
  end.

(** [d[k] = v] *)
Fixpoint set (k : K) (v : V) (d : list (K * V)) : list (K * V) :=
  match d with
  | [] => [(k, v)]
  | (k', v') :: d' =>
      if decide (k = k') then (k', v) :: d' else (k', v') :: set k v d'
  end.

(** [d.update(other)] *)
Definition update (d other : list (K * V)) : list (K * V) :=
  fold_left (fun acc kv => set kv.1 kv.2 acc) other d.

(** [list(d.keys())] and [list(d.values())] *)
Definition keys (d : list (K * V)) : list K := d.*1.
Definition values (d : list (K * V)) : list V := d.*2.

(** The dict a comprehension [{k: v for k, v in items}] builds. *)
Definition of_items (items : list (K * V)) : list (K * V) := update [] items.

End dict.
End PyDict.

Arguments PyDict.keys : simpl never.
Arguments PyDict.values : simpl never.

Abbreviation dict K V := (list (K * V)) (only parsing).

(** ** Python values

    The values that occur as parameters, metrics and table cells.
    Floating-point numbers are left out. *)

Inductive PyVal :=
| PyNone
| PyBool (b : bool)
| PyInt (z : Z)
| PyStr (s : string).

#[export] Instance PyVal_eq_dec : EqDecision PyVal.
Proof. solve_decision. Defined.

Definition Z_of_bool (b : bool) : Z := if b then 1%Z else 0%Z.

(** [a == b]: [bool] is a subtype of [int], so [True == 1]. *)
Definition py_eq (a b : PyVal) : bool :=
  match a, b with
  | PyNone, PyNone => true
  | PyBool x, PyBool y => bool_decide (x = y)
  | PyBool x, PyInt z | PyInt z, PyBool x => bool_decide (Z_of_bool x = z)
  | PyInt x, PyInt y => bool_decide (x = y)
  | PyStr x, PyStr y => bool_decide (x = y)
  | _, _ => false
  end.

(** [str(a)] *)
Definition py_str (a : PyVal) : string :=
  match a with
  | PyNone => "None"
  | PyBool true => "True"
  | PyBool false => "False"
  | PyInt z => pretty z
  | PyStr s => s
  end.

(** Truth value of a returned object, as [if x:] tests it. *)
Definition py_truthy (a : PyVal) : bool :=
  match a with
  | PyNone => false
  | PyBool b => b
  | PyInt z => negb (bool_decide (z = 0%Z))
  | PyStr s => negb (bool_decide (s = EmptyString))
  end.

(** ** [iter_param_combinations] *)

Section iter_param_combinations.
Context {V : Type}.

(** [_iter_recursive_param_combinations(pairs, i, params)], where [rest]
    stands for [pairs[i:]].  The dictionary [params] is one object shared
    by all recursive calls and mutated in place, so it is threaded
    through; the generator yields copies [dict(params)].  The result is
    the list of yielded dictionaries and the final content of [params]. *)
Fixpoint _iter_recursive_param_combinations
    (rest : list (string * list V)) (params : dict string V)
    : list (dict string V) * dict string V :=
  match rest with
  | [] => ([params], params)
  | (param_name, param_values) :: rest' =>
      (fix for_paramValue (vs : list V) (params : dict string V) :=
         match vs with
         | [] => ([], params)
         | paramValue :: vs' =>
             let params := PyDict.set param_name paramValue params in
             let '(ys, params) := _iter_recursive_param_combinations rest' params in
             let '(zs, params) := for_paramValue vs' params in
             (ys ++ zs, params)
         end) param_values params
  end.

(** [iter_param_combinations(hyper_param_values)] *)
Definition iter_param_combinations (hyper_param_values : dict string (list V))
    : list (dict string V) :=
  let pairs := hyper_param_values in
  (_iter_recursive_param_combinations pairs []).1.

(** The Cartesian product as the specification words it: one combination
    per choice of a value for every parameter, the first parameter
    outermost and the last-declared one varying fastest. *)
Fixpoint cartesian_product (pairs : list (string * list V)) : list (dict string V) :=
  match pairs with
  | [] => [[]]
  | (k, vs) :: pairs' =>
      flat_map (fun v => map (cons (k, v)) (cartesian_product pairs')) vs
  end.

(** Product of the per-parameter option counts. *)
Definition option_count_product (pairs : list (string * list V)) : nat :=
  foldr Nat.mul 1 (map (fun p => length p.2) pairs).

End iter_param_combinations.

(** ** [itertools.combinations] and [iter_subsets] *)

Section combinations.
Context {A : Type}.

(** The [r]-length subsequences of [l] in lexicographic order of their
    positions, as [itertools.combinations] documents them. *)
Fixpoint combinations (l : list A) (r : nat) : list (list A) :=
  match r with
  | 0 => [[]]
  | S r' =>
      match l with
      | [] => []
      | x :: l' => map (cons x) (combinations l' r') ++ combinations l' (S r')
      end
  end.

(** [itertools.combinations(l, r)] for a Python integer [r]: a negative
    [r] raises [ValueError]. *)
Definition itertools_combinations (l : list A) (r : Z) : Result (list (list A)) :=
  if bool_decide (r < 0)%Z then Raise (ValueError "r must be non-negative")
  else Ok (combinations l (Z.to_nat r)).

(** [iter_subsets(s)] *)
Definition iter_subsets (s : list A) : list (list A) :=
  flat_map (combinations s) (seq 0 (length s + 1)).

End combinations.

(** Binomial coefficients, by Pascal's rule. *)
Fixpoint binom (n k : nat) : nat :=
  match k with
  | 0 => 1
  | S k' =>
      match n with
      | 0 => 0
      | S n' => binom n' k' + binom n' (S k')
      end
  end.

(** ** [ParameterCombinationEquivalenceClassValueCache] *)

(** The abstract method [_equivalence_class]: a reduction of a parameter
    combination to a hashable key. *)
Class EquivalenceClass (Key : Type) `{Countable Key} :=
  _equivalence_class : dict string PyVal → Key.

Module ValueCache.
Section cache.
Context {Key V : Type} `{EquivalenceClass Key}.

(** The attribute [_cache].  Stored values are arbitrary Python objects:
    [None] is Python's [None], [Some v] any other object. *)
Record t := { _cache : gmap Key (option V) }.

(** [__init__] *)
Definition init : t := {| _cache := ∅ |}.

(** [set(params, value)] *)
Definition set (c : t) (params : dict string PyVal) (value : option V) : t :=
  {| _cache := <[_equivalence_class params := value]> (_cache c) |}.

(** [get(params)]: [dict.get] gives [None] for a missing key. *)
Definition get (c : t) (params : dict string PyVal) : option V :=
  default None (_cache c !! _equivalence_class params).

End cache.
Arguments t : clear implicits.
Arguments t Key V {_ _}.
End ValueCache.

(** ** [ParametersMetricsCollection] *)

Module Collection.

(** A data frame: the ordered column names and the rows in their order,
    each with its index label and one cell per column. *)
Record DataFrame := {
  columns : list string;
  rows : dict nat (list PyVal);
}.

(** [pd.DataFrame(columns=cols)] *)
Definition DataFrame_new (cols : list string) : DataFrame :=
  {| columns := cols; rows := [] |}.

(** [df[col] = None] for a column that is not there yet. *)
Definition add_column (col : string) (df : DataFrame) : DataFrame :=
  {| columns := columns df ++ [col];
     rows := map (fun r => (r.1, r.2 ++ [PyNone])) (rows df) |}.

(** [df.loc[label] = cells]: overwrites the row labelled [label] or
    appends a new one; pandas refuses to set a row of a frame that has
    no columns. *)
Definition loc_set (label : nat) (cells : list PyVal) (df : DataFrame)
    : Result DataFrame :=
  if bool_decide (columns df = [])
  then Raise (ValueError "cannot set a frame with no defined columns")
  else Ok {| columns := columns df; rows := PyDict.set label cells (rows df) |}.

(** [df.reset_index(drop=True, inplace=True)] *)
Definition reset_index (df : DataFrame) : DataFrame :=
  {| columns := columns df; rows := imap (fun i r => (i, r.2)) (rows df) |}.

(** Position of a column. *)
Fixpoint column_position (col : string) (cols : list string) : option nat :=
  match cols with
  | [] => None
  | c :: cols' =>
      if decide (col = c) then Some 0 else S <$> column_position col cols'
  end.

(** The cells of one column, in row order. *)
Definition column_cells (i : nat) (df : DataFrame) : list PyVal :=
  map (fun r => nth i r.2 PyNone) (rows df).

(** *** [DataFrame.sort_values]

    pandas sorts the rows by the cells of one column, keeps the rows
    whose cell is missing at the end in either direction, and raises
    [TypeError] when two cells cannot be compared.  It is modelled by an
    insertion sort; the order pandas gives to rows with equal cells is
    not relied upon below. *)

Definition is_missing (v : PyVal) : bool :=
  match v with PyNone => true | _ => false end.

Definition is_number (v : PyVal) : bool :=
  match v with PyBool _ | PyInt _ => true | _ => false end.

Definition is_string (v : PyVal) : bool :=
  match v with PyStr _ => true | _ => false end.

(** [a <= b] on cells that can be compared: numbers with numbers,
    strings with strings. *)
Definition py_le (a b : PyVal) : bool :=
  match a, b with
  | PyBool x, PyBool y => bool_decide (Z_of_bool x ≤ Z_of_bool y)%Z
  | PyBool x, PyInt z => bool_decide (Z_of_bool x ≤ z)%Z
  | PyInt z, PyBool x => bool_decide (z ≤ Z_of_bool x)%Z
  | PyInt x, PyInt y => bool_decide (x ≤ y)%Z
  | PyStr x, PyStr y => String.leb x y
  | _, _ => false
  end.

(** The cells can be sorted: all numbers, or all strings. *)
Definition comparable (cells : list PyVal) : bool :=
  forallb is_number cells || forallb is_string cells.

(** The order a sort direction asks for between a cell and the next. *)
Definition in_order (ascending : bool) (a b : PyVal) : bool :=
  if ascending then py_le a b else py_le b a.

Section sort.
Context (ascending : bool) (i : nat).

Definition cell (r : nat * list PyVal) : PyVal := nth i r.2 PyNone.

Fixpoint insert_row (r : nat * list PyVal) (sorted : dict nat (list PyVal))
    : dict nat (list PyVal) :=
  match sorted with
  | [] => [r]
  | r' :: sorted' =>
      if in_order ascending (cell r') (cell r) then r' :: insert_row r sorted'
      else r :: r' :: sorted'
  end.

Definition sort_rows (rs : dict nat (list PyVal)) : dict nat (list PyVal) :=
  fold_left (fun sorted r => insert_row r sorted) rs [].

End sort.

(** [df.sort_values(by, axis=0, inplace=True, ascending=ascending)] *)
Definition sort_values (by_ : string) (ascending : bool) (df : DataFrame)
    : Result DataFrame :=
  match column_position by_ (columns df) with
  | None => Raise (KeyError by_)
  | Some i =>
      let present := filter (fun r => is_missing (cell i r) = false) (rows df) in
      let missing := filter (fun r => is_missing (cell i r) = true) (rows df) in
      if comparable (map (cell i) present)
      then Ok {| columns := columns df;
                 rows := sort_rows ascending i present ++ missing |}
      else Raise TypeError
  end.

(** *** The collection *)

Record t := {
  sort_column_name : option string;
  csv_path : option string;
  ascending : bool;
  df : option DataFrame;
  _current_row : nat;
  value_dicts : list (dict string PyVal);
}.

Section collection.
(** [[nt._asdict() for nt in df.itertuples()]]: how pandas turns the rows
    of a loaded table into dictionaries. *)
Context (itertuples_asdict : DataFrame → list (dict string PyVal)).

(** [__init__(csv_path, sort_column_name, ascending, incremental)], where
    [existing] is [pd.read_csv(csv_path)] when [csv_path] is given and the
    file exists. *)
Definition init (csv_path : option string) (sort_column_name : option string)
    (ascending incremental : bool) (existing : option DataFrame) : t :=
  let fresh :=
    {| sort_column_name := sort_column_name; csv_path := csv_path;
       ascending := ascending; df := None; _current_row := 0;
       value_dicts := [] |} in
  match csv_path, existing with
  | Some _, Some loaded =>
      if incremental
      then {| sort_column_name := sort_column_name; csv_path := csv_path;
              ascending := ascending; df := Some loaded;
              _current_row := length (rows loaded);
              value_dicts := itertuples_asdict loaded |}
      else fresh
  | _, _ => fresh
  end.
End collection.

(** [cols.remove(x)]: removes the first occurrence. *)
Fixpoint list_remove_first (x : string) (l : list string) : list string :=
  match l with
  | [] => []
  | y :: l' => if decide (x = y) then l' else y :: list_remove_first x l'
  end.

(** The row [[values.get(c) for c in self.df.columns]]. *)
Definition row_of (cols : list string) (values : dict string PyVal) : list PyVal :=
  map (fun c => default PyNone (PyDict.get values c)) cols.

(** The data frame [add_values] appends to: a new one on the first call,
    otherwise the current one with a column for every unseen key. *)
Definition prepare_frame (c : t) (values : dict string PyVal) : DataFrame :=
  match df c with
  | None =>
      let cols := PyDict.keys values in
      let cols :=
        match sort_column_name c with
        | Some s =>
            if bool_decide (s ∈ cols) then s :: list_remove_first s cols else cols
        | None => cols
        end in
      DataFrame_new cols
  | Some df =>
      fold_left
        (fun df col => if bool_decide (col ∈ columns df) then df else add_column col df)
        (PyDict.keys values) df
  end.

(** [add_values(values)].  Writing the table to [csv_path] leaves the
    collection as it is and is not part of the result. *)
Definition add_values (c : t) (values : dict string PyVal) : Result t :=
  let df1 := prepare_frame c values in
  df2 ← loc_set (_current_row c) (row_of (columns df1) values) df1;
  let current_row := S (_current_row c) in
  df3 ←
    match sort_column_name c with
    | Some s =>
        if bool_decide (s ∈ columns df2)
        then reset_index <$> sort_values s (ascending c) df2
        else Ok df2
    | None => Ok df2
    end;
  Ok {| sort_column_name := sort_column_name c; csv_path := csv_path c;
        ascending := ascending c; df := Some df3;
        _current_row := current_row; value_dicts := value_dicts c |}.

(** [get_data_frame()] *)
Definition get_data_frame (c : t) : option DataFrame := df c.

(** The inner loop of [contains]: the value of [is_contained] when the
    loop over [values.items()] ends or breaks. *)
Fixpoint is_contained (existingValues : dict string PyVal)
    (items : list (string * PyVal)) : bool :=
  match items with
  | [] => true
  | (k, v) :: items' =>
      let ev := default PyNone (PyDict.get existingValues k) in
      if negb (py_eq ev v) && negb (bool_decide (py_str ev = py_str v))
      then false
      else is_contained existingValues items'
  end.

(** The outer loop of [contains]: [True] at the first row that matches;
    when the loop ends the function falls off its end and gives [None]. *)
Fixpoint contains_loop (value_dicts : list (dict string PyVal))
    (values : dict string PyVal) : PyVal :=
  match value_dicts with
  | [] => PyNone
  | existingValues :: value_dicts' =>
      if is_contained existingValues values then PyBool true
      else contains_loop value_dicts' values
  end.

(** [contains(values)] *)
Definition contains (c : t) (values : dict string PyVal) : PyVal :=
  contains_loop (value_dicts c) values.

(** The condition of [contains] as the specification words it: for every
    key of the candidate, some existing row has a value with the same
    text under that key. *)
Definition spec_contains (rows : list (dict string PyVal))
    (values : dict string PyVal) : bool :=
  forallb
    (fun kv => existsb
       (fun row => match PyDict.get row kv.1 with
                   | Some ev => bool_decide (py_str ev = py_str kv.2)
                   | None => false
                   end) rows)
    values.

End Collection.

Arguments Collection.reset_index : simpl never.
Arguments Collection.sort_values : simpl never.
Arguments Collection.prepare_frame : simpl never.

(** ** [ParameterCombinationSkipDecider] *)

Class SkipDecider (D : Type) := {
  tell : D → dict string PyVal → dict string PyVal → D;
  is_skipped : D → dict string PyVal → bool;
}.

(** A [for] loop whose body can raise: the loop stops at the first
    exception. *)
Fixpoint for_each {A S : Type} (l : list A) (body : S → A → Result S) (s : S)
    : Result S :=
  match l with
  | [] => Ok s
  | a :: l' => s' ← body s a; for_each l' body s'
  end.

(** ** [GridSearch.Result] *)

Module GridSearchResult.

Record t := {
  df : option Collection.DataFrame;
  param_names : list string;
  default_metric_name : option string;
  default_higher_is_better : option bool;
}.

(** [__init__(df, param_names, default_metric_name,
    default_higher_is_better)]: the default direction is kept only
    together with a default metric. *)
Definition init (df : option Collection.DataFrame) (param_names : list string)
    (default_metric_name : option string) (default_higher_is_better : option bool) : t :=
  {| df := df;
     param_names := param_names;
     default_metric_name := default_metric_name;
     default_higher_is_better :=
       match default_metric_name with
       | Some _ => default_higher_is_better
       | None => None
       end |}.

(** The dataclass [BestParams]. *)
Record BestParams := {
  metric_name : string;
  metric_value : PyVal;
  params : dict string PyVal;
}.

(** [df.iloc[0]]: the first row by position, with the column names as
    its index. *)
Definition iloc0 (df : Collection.DataFrame) : Result (list string * list PyVal) :=
  match Collection.rows df with
  | [] => Raise IndexError
  | r :: _ => Ok (Collection.columns df, r.2)
  end.

(** [row[name]] for a row taken from a table. *)
Definition row_get (row : list string * list PyVal) (name : string) : Result PyVal :=
  match Collection.column_position name row.1 with
  | Some i => Ok (nth i row.2 PyNone)
  | None => Raise (KeyError name)
  end.

(** [get_best_params(metric_name, higher_is_better)].  The sort is not
    in place: the table of the result object stays as it is. *)
Definition get_best_params (self : t) (metric_name : option string)
    (higher_is_better : option bool) : Result BestParams :=
  metric_name ←
    match metric_name with
    | Some m => Ok m
    | None =>
        match default_metric_name self with
        | Some m => Ok m
        | None => Raise (ValueError "metric_name must be specified")
        end
    end;
  higher_is_better ←
    match higher_is_better with
    | Some h => Ok h
    | None =>
        match default_higher_is_better self with
        | Some h => Ok h
        | None => Raise (ValueError "higher_is_better must be specified")
        end
    end;
  df ← match df self with
       | Some df => Collection.sort_values metric_name (negb higher_is_better) df
       | None => Raise AttributeError
       end;
  best_params ←
    for_each (param_names self)
      (fun best_params param =>
         row ← iloc0 df;
         v ← row_get row param;
         Ok (PyDict.set param v best_params))
      [];
  row ← iloc0 df;
  best_metric_value ← row_get row metric_name;
  Ok {| metric_name := metric_name;
        metric_value := best_metric_value;
        params := best_params |}.

End GridSearchResult.

(** ** [GridSearch] *)

Module GridSearch.
Section grid_search.
Context {Model D : Type} `{SkipDecider D}.
(** The model factory, the evaluator's [compute_metrics], [str(model)]
    and pandas' [itertuples] are supplied from outside. *)
Context (model_factory : dict string PyVal → Model)
        (compute_metrics : Model → dict string PyVal)
        (model_str : Model → string)
        (itertuples_asdict : Collection.DataFrame → list (dict string PyVal)).

Record t := {
  parameter_options_list : list (dict string (list PyVal));
  param_names : gset string;
  num_processes : Z;
  parameter_combination_skip_decider : option D;
  model_save_directory : option string;
  name : string;
  csv_results_path : option string;
  incremental : bool;
  incremental_skip_existing : bool;
  num_combinations : nat;
}.

(** The loop of [__init__] over [parameter_options_list[1:]]. *)
Fixpoint check_keys (param_names : gset string)
    (ds : list (dict string (list PyVal))) : Result unit :=
  match ds with
  | [] => Ok ()
  | d :: ds' =>
      if bool_decide (list_to_set (PyDict.keys d) ≠ param_names)
      then Raise (ValueError "Keys must be the same for all parameter options dictionaries")
      else check_keys param_names ds'
  end.

(** The count [n] of one mapping in [__init__]. *)
Definition count_combinations (parameter_options : dict string (list PyVal)) : nat :=
  fold_left (fun n options => n * length options) (PyDict.values parameter_options) 1.

(** [__init__], where [now] is the formatted current time and [isdir] is
    [os.path.isdir].  [parameter_options] is one mapping ([inl]) or a
    list of mappings ([inr]). *)
Definition init
    (parameter_options : dict string (list PyVal) + list (dict string (list PyVal)))
    (num_processes : Z) (csv_results_path : option string)
    (incremental incremental_skip_existing : bool)
    (parameter_combination_skip_decider : option D)
    (model_save_directory : option string) (name : option string)
    (now : string) (isdir : string → bool) : Result t :=
  let parameter_options_list :=
    match parameter_options with
    | inr l => l
    | inl d => [d]
    end in
  first ← match parameter_options_list with
          | [] => Raise IndexError
          | d :: _ => Ok d
          end;
  let param_names : gset string := list_to_set (PyDict.keys first) in
  _ ← check_keys param_names (tail parameter_options_list);
  let name := match name with Some n => n | None => "gridSearch_" +:+ now end in
  let csv_results_path :=
    match csv_results_path with
    | Some p => if isdir p then Some (p +:+ "/" +:+ name +:+ "_results.csv") else Some p
    | None => None
    end in
  let num_combinations :=
    fold_left (fun total parameter_options => total + count_combinations parameter_options)
      parameter_options_list 0 in
  Ok {| parameter_options_list := parameter_options_list;
        param_names := param_names;
        num_processes := num_processes;
        parameter_combination_skip_decider := parameter_combination_skip_decider;
        model_save_directory := model_save_directory;
        name := name;
        csv_results_path := csv_results_path;
        incremental := incremental;
        incremental_skip_existing := incremental_skip_existing;
        num_combinations := num_combinations |}.

(** [_eval_params(model_factory, metrics_evaluator, skip_decider,
    grid_search_name, combination_idx, model_save_directory, **params)].
    [files] are the paths of the models saved so far.  The result is the
    returned values ([None] for a skipped combination), the skip decider
    after the call and the saved files. *)
Definition _eval_params (skip_decider : option D) (grid_search_name : string)
    (combination_idx : nat) (model_save_directory : option string)
    (params : dict string PyVal) (files : list string)
    : option (dict string PyVal) * option D * list string :=
  if match skip_decider with
     | Some d => is_skipped d params
     | None => false
     end
  then (None, skip_decider, files)
  else
    let model := model_factory params in
    let values := compute_metrics model in
    let '(values, files) :=
      match model_save_directory with
      | Some dir =>
          let filename := grid_search_name +:+ "_" +:+ pretty combination_idx +:+ ".pickle" in
          (PyDict.set "filename" (PyStr filename) values,
           files ++ [dir +:+ "/" +:+ filename])
      | None => (values, files)
      end in
    let values := PyDict.set "str(model)" (PyStr (model_str model)) values in
    let values := PyDict.update values params in
    let skip_decider := (fun d => tell d params values) <$> skip_decider in
    (Some values, skip_decider, files).

(** The state of a run.  [eval_calls] records, in order, the combination
    index and the combination of every call (or submission) of
    [_eval_params]; [futures] holds the results of the submitted calls in
    submission order. *)
Record RunState := {
  params_metrics_collection : Collection.t;
  skip_decider : option D;
  saved_models : list string;
  combination_idx : nat;
  eval_calls : list (nat * dict string PyVal);
  futures : list (option (dict string PyVal));
}.

(** [collect_result(values)]; calls of the tracking callback are left out. *)
Definition collect_result (values : option (dict string PyVal)) (c : Collection.t)
    : Result Collection.t :=
  match values with
  | None => Ok c
  | Some values => Collection.add_values c values
  end.

(** The test that guards [continue] in both loops. *)
Definition skip_existing (gs : t) (c : Collection.t) (params_dict : dict string PyVal) : bool :=
  incremental_skip_existing gs && incremental gs
  && py_truthy (Collection.contains c params_dict).

(** Body of the inner loop when [num_processes == 1]. *)
Definition sequential_body (gs : t) (st : RunState) (params_dict : dict string PyVal)
    : Result RunState :=
  if skip_existing gs (params_metrics_collection st) params_dict then Ok st
  else
    let '(values, decider, files) :=
      _eval_params (skip_decider st) (name gs) (combination_idx st)
        (model_save_directory gs) params_dict (saved_models st) in
    c ← collect_result values (params_metrics_collection st);
    Ok {| params_metrics_collection := c;
          skip_decider := decider;
          saved_models := files;
          combination_idx := S (combination_idx st);
          eval_calls := eval_calls st ++ [(combination_idx st, params_dict)];
          futures := futures st |}.

(** Body of the inner loop with a process pool: the call is submitted
    with a copy of the skip decider, so what the worker tells its copy is
    lost; the files it saves stay. *)
Definition parallel_body (gs : t) (st : RunState) (params_dict : dict string PyVal)
    : Result RunState :=
  if skip_existing gs (params_metrics_collection st) params_dict then Ok st
  else
    let '(values, _, files) :=
      _eval_params (skip_decider st) (name gs) (combination_idx st)
        (model_save_directory gs) params_dict (saved_models st) in
    Ok {| params_metrics_collection := params_metrics_collection st;
          skip_decider := skip_decider st;
          saved_models := files;
          combination_idx := S (combination_idx st);
          eval_calls := eval_calls st ++ [(combination_idx st, params_dict)];
          futures := futures st ++ [values] |}.

(** [for future in futures: collect_result(future.result())] *)
Definition drain_body (st : RunState) (values : option (dict string PyVal))
    : Result RunState :=
  c ← collect_result values (params_metrics_collection st);
  Ok {| params_metrics_collection := c;
        skip_decider := skip_decider st;
        saved_models := saved_models st;
        combination_idx := combination_idx st;
        eval_calls := eval_calls st;
        futures := futures st |}.

(** The two nested loops over the mappings and their combinations. *)
Definition enumerate (gs : t) (body : RunState → dict string PyVal → Result RunState)
    (st : RunState) : Result RunState :=
  for_each (parameter_options_list gs)
    (fun st parameter_options =>
       for_each (iter_param_combinations parameter_options) body st)
    st.

(** [run(metrics_evaluator, sort_column_name, ascending)], where
    [existing] is the table at [csv_results_path] if there is one.  The
    result is the state in which the run ends; its collection holds the
    data frame of the returned [Result] object.  [ProcessPoolExecutor]
    refuses a number of workers that is not positive. *)
Definition run (gs : t) (sort_column_name : option string) (ascending : bool)
    (existing : option Collection.DataFrame) : Result RunState :=
  let params_metrics_collection :=
    Collection.init itertuples_asdict (csv_results_path gs) sort_column_name
      ascending (incremental gs) existing in
  let st :=
    {| params_metrics_collection := params_metrics_collection;
       skip_decider := parameter_combination_skip_decider gs;
       saved_models := [];
       combination_idx := 0;
       eval_calls := [];
       futures := [] |} in
  if bool_decide (num_processes gs = 1%Z)
  then enumerate gs (sequential_body gs) st
  else if bool_decide (num_processes gs ≤ 0)%Z
  then Raise (ValueError "max_workers must be greater than 0")
  else
    st ← enumerate gs (parallel_body gs) st;
    for_each (futures st) drain_body st.

(** What [run] returns: the [Result] object built from the data frame of
    the collection, the parameter names (a set, iterated in some order),
    and the sort column and direction as defaults. *)
Definition run_result (gs : t) (sort_column_name : option string) (ascending : bool)
    (existing : option Collection.DataFrame) : Result GridSearchResult.t :=
  st ← run gs sort_column_name ascending existing;
  let df := Collection.get_data_frame (params_metrics_collection st) in
  Ok (GridSearchResult.init df (elements (param_names gs)) sort_column_name
        (Some (negb ascending))).

End grid_search.
End GridSearch.

(** ** [SAHyperOpt] *)

(** [-v] and [a - b] on metric values. *)
Definition py_number (v : PyVal) : Result Z :=
  match v with
  | PyInt z => Ok z
  | PyBool b => Ok (Z_of_bool b)
  | _ => Raise TypeError
  end.

Definition py_neg (v : PyVal) : Result PyVal :=
  z ← py_number v; Ok (PyInt (- z)).

Definition py_sub (a b : PyVal) : Result PyVal :=
  x ← py_number a; y ← py_number b; Ok (PyInt (x - y)).

Module SAHyperOpt.
Section sa_hyper_opt.
Context {Model Key : Type} `{EquivalenceClass Key}.
Context (model_factory : dict string PyVal → Model)
        (compute_metrics : Model → dict string PyVal)
        (model_str : Model → string).

(** The configuration [__init__] stores.  The probabilities [p0] and [p1]
    only parametrise the annealing engine and are not kept here. *)
Record t := {
  minimise_metric : bool;
  metric_to_optimise : string;
  initial_parameters : dict string PyVal;
}.

(** The objects a run works on: the result collection and the cache of
    the [SAHyperOpt] object, the dictionary [results] that [run] creates
    and shares with the state, and the attributes [params] and [cost] of
    the [State]. *)
Record Store := {
  parameters_metrics_collection : option Collection.t;
  value_cache : option (ValueCache.t Key (dict string PyVal));
  results : dict string PyVal;
  params : dict string PyVal;
  cost : option PyVal;
}.

Definition with_evaluation (st : Store) (c : option Collection.t)
    (vc : option (ValueCache.t Key (dict string PyVal))) : Store :=
  {| parameters_metrics_collection := c; value_cache := vc;
     results := results st; params := params st; cost := cost st |}.

(** [_eval_params(..., **params)]; calls of the tracking sink and the
    log are left out. *)
Definition _eval_params (st : Store) (params : dict string PyVal)
    : Result (dict string PyVal * Store) :=
  let metrics :=
    match value_cache st with
    | Some vc => ValueCache.get vc params
    | None => None
    end in
  match metrics with
  | Some metrics => Ok (metrics, st)
  | None =>
      let model := model_factory params in
      let metrics := compute_metrics model in
      let values := metrics in
      let values := PyDict.set "str(model)" (PyStr (model_str model)) values in
      let values := PyDict.update values params in
      c ← match parameters_metrics_collection st with
          | Some c => Some <$> Collection.add_values c values
          | None => Ok None
          end;
      let vc := (fun vc => ValueCache.set vc params (Some metrics)) <$> value_cache st in
      Ok (metrics, with_evaluation st c vc)
  end.

(** [_compute_metric(params)] *)
Definition _compute_metric (sa : t) (st : Store) (params : dict string PyVal)
    : Result (PyVal * Store) :=
  '(metrics, st) ← _eval_params st params;
  metric_value ← match PyDict.get metrics (metric_to_optimise sa) with
                 | Some v => Ok v
                 | None => Raise (KeyError (metric_to_optimise sa))
                 end;
  if negb (minimise_metric sa)
  then v ← py_neg metric_value; Ok (v, st)
  else Ok (metric_value, st).

(** The result collection [__init__] creates: there is one when
    [collect_data_frame] is set or a path for the results is given; it
    has no sort column and is not in incremental mode.  [existing] is
    the table at the path, if there is a file. *)
Definition init_parameters_metrics_collection
    (itertuples_asdict : Collection.DataFrame → list (dict string PyVal))
    (collect_data_frame : bool) (csv_results_path : option string)
    (existing : option Collection.DataFrame) : option Collection.t :=
  let collect_data_frame :=
    match csv_results_path with
    | Some _ => true
    | None => collect_data_frame
    end in
  if collect_data_frame
  then Some (Collection.init itertuples_asdict csv_results_path None true false existing)
  else None.

(** *** [SAHyperOpt.State] *)

(** [State.__init__]: the state keeps a copy of the parameters and a
    reference to [results]. *)
Definition State_init (sa : t) (c : option Collection.t)
    (vc : option (ValueCache.t Key (dict string PyVal)))
    (results : dict string PyVal) : Store :=
  {| parameters_metrics_collection := c; value_cache := vc;
     results := results; params := initial_parameters sa; cost := None |}.

(** [State.compute_cost_value()] *)
Definition compute_cost_value (sa : t) (st : Store) : Result (PyVal * Store) :=
  _compute_metric sa st (params st).

(** [State.get_state_representation()]: the dictionary [params] itself. *)
Definition get_state_representation (st : Store) : dict string PyVal :=
  params st.

(** [State.apply_state_representation(representation)] *)
Definition apply_state_representation (st : Store)
    (representation : dict string PyVal) : Store :=
  {| parameters_metrics_collection := parameters_metrics_collection st;
     value_cache := value_cache st;
     results := PyDict.update (results st) representation;
     params := params st; cost := cost st |}.

(** *** [SAHyperOpt.ParameterChangeOperator] *)

(** [apply_state_change(params)] *)
Definition apply_state_change (st : Store) (params' : dict string PyVal) : Store :=
  {| parameters_metrics_collection := parameters_metrics_collection st;
     value_cache := value_cache st;
     results := results st;
     params := PyDict.update (params st) params'; cost := cost st |}.

(** [cost_delta(params)] *)
Definition cost_delta (sa : t) (st : Store) (params' : dict string PyVal)
    : Result (PyVal * Store) :=
  let model_params := params st in
  let model_params := PyDict.update model_params params' in
  '(v, st) ← _compute_metric sa st model_params;
  c ← match cost st with
      | Some c => Ok c
      | None => Raise AttributeError
      end;
  d ← py_sub v c;
  Ok (d, st).

(** [choose_params()], given what the abstract
    [_choose_changed_model_parameters] returned. *)
Definition choose_params (chosen : option (dict string PyVal))
    : option (list (dict string PyVal) * option PyVal) :=
  match chosen with
  | None => None
  | Some params => Some ([params], None)
  end.

(** *** The annealing engine *)

(** Modelled from the spec: the annealing engine ([SimulatedAnnealing]
    with the base classes [SAState] and [SAOperator] of
    [sensai.local_search]) is an external procedure that this module
    configures and drives through the state and the operators.  What it
    does to the adapter is a sequence of calls of the methods above, and
    it is represented by that sequence; it owns the attribute [cost] of
    the state and applies representations it got from
    [get_state_representation]. *)
Inductive EngineCall :=
| CallComputeCostValue
| CallSetCost (c : PyVal)
| CallCostDelta (params : dict string PyVal)
| CallApplyStateChange (params : dict string PyVal)
| CallApplyStateRepresentation (representation : dict string PyVal).

Definition engine_step (sa : t) (st : Store) (call : EngineCall) : Result Store :=
  match call with
  | CallComputeCostValue => snd <$> compute_cost_value sa st
  | CallSetCost c =>
      Ok {| parameters_metrics_collection := parameters_metrics_collection st;
            value_cache := value_cache st; results := results st;
            params := params st; cost := Some c |}
  | CallCostDelta p => snd <$> cost_delta sa st p
  | CallApplyStateChange p => Ok (apply_state_change st p)
  | CallApplyStateRepresentation r => Ok (apply_state_representation st r)
  end.

(** [run(...)]: creates [results = {}], lets the engine work on the state
    built from the initial parameters and returns [results].  The result
    here is the whole store, [results] included. *)
Definition run (sa : t) (c : option Collection.t)
    (vc : option (ValueCache.t Key (dict string PyVal)))
    (engine : list EngineCall) : Result Store :=
  let results := [] in
  for_each engine (engine_step sa) (State_init sa c vc results).

(** The engine applies only what [get_state_representation] can have
    returned before: the content [params] has, or had, at the time of the
    call. *)
Fixpoint applies_representations (seen : list (dict string PyVal))
    (params : dict string PyVal) (engine : list EngineCall) : bool :=
  match engine with
  | [] => true
  | CallApplyStateChange p :: engine' =>
      applies_representations (params :: seen) (PyDict.update params p) engine'
  | CallApplyStateRepresentation r :: engine' =>
      bool_decide (r ∈ params :: seen) && applies_representations seen params engine'
  | _ :: engine' => applies_representations seen params engine'
  end.

(** The parameter names a run can bring up: those of the initial
    combination and of the changes the operators apply. *)
Fixpoint parameter_names (params : dict string PyVal) (engine : list EngineCall)
    : list string :=
  match engine with
  | [] => PyDict.keys params
  | CallApplyStateChange p :: engine' => PyDict.keys p ++ parameter_names params engine'
  | _ :: engine' => parameter_names params engine'
  end.

End sa_hyper_opt.
End SAHyperOpt.

(** ** Option generators *)

Module Options.

(** What an enumeration produces: the yielded items and the exception
    that ended it, if one was raised. *)
Record Gen (A : Type) := {
  yielded : list A;
  raised : option PyError;
}.
Arguments yielded {A} g.
Arguments raised {A} g.

Definition gen_of_list {A} (l : list A) : Gen A :=
  {| yielded := l; raised := None |}.

Section options.
Context {TKey TValue : Type} `{EqDecision TKey}.

(** [Option(key, value=None)] *)
Record Option := {
  key : TKey;
  value : option TValue;
}.

(** [OptionsGeneratorBase.__init__(o)]: [o] is an iterable of keys
    ([inl]) or a dictionary ([inr], given by its items). *)
Definition OptionsGeneratorBase_init (o : list TKey + dict TKey TValue)
    : dict TKey Option :=
  match o with
  | inr d =>
      PyDict.of_items (map (fun kv => (kv.1, {| key := kv.1; value := Some kv.2 |})) d)
  | inl ks =>
      PyDict.of_items (map (fun k => (k, {| key := k; value := None |})) ks)
  end.

(** The generator classes; [OptionsOther] is any further implementation
    of [OptionsGenerator], given by what its [iter_options] produces. *)
Inductive OptionsGenerator :=
| OptionsProduct (o1 o2 : OptionsGenerator)
| OptionsAllOf (options : dict TKey Option)
| OptionsOneOf (options : dict TKey Option)
| OptionsMinMaxOf (options : dict TKey Option) (n_min n_max : Z)
| OptionsSubsets (options : dict TKey Option)
| OptionsOther (enumeration : Gen (list Option)).

(** The constructor calls [OptionsAllOf(o)], [OptionsOneOf(o)],
    [OptionsMinMaxOf(o, n_min, n_max)], [OptionsOneOrNoneOf(o)],
    [OptionsNOf(o, n)] and [OptionsSubsets(o)]. *)
Definition AllOf (o : list TKey + dict TKey TValue) : OptionsGenerator :=
  OptionsAllOf (OptionsGeneratorBase_init o).
Definition OneOf (o : list TKey + dict TKey TValue) : OptionsGenerator :=
  OptionsOneOf (OptionsGeneratorBase_init o).
Definition MinMaxOf (o : list TKey + dict TKey TValue) (n_min n_max : Z)
    : OptionsGenerator :=
  OptionsMinMaxOf (OptionsGeneratorBase_init o) n_min n_max.
Definition OneOrNoneOf (o : list TKey + dict TKey TValue) : OptionsGenerator :=
  MinMaxOf o 0 1.
Definition NOf (o : list TKey + dict TKey TValue) (n : Z) : OptionsGenerator :=
  MinMaxOf o n n.
Definition Subsets (o : list TKey + dict TKey TValue) : OptionsGenerator :=
  OptionsSubsets (OptionsGeneratorBase_init o).

(** [range(a, b)] *)
Definition range (a b : Z) : list Z := seqZ a (b - a).

(** The loops of [OptionsProduct.iter_options]: the inner enumeration is
    started anew for every item of the outer one. *)
Fixpoint product_loop {A} (r1s : list (list A)) (raised1 : option PyError)
    (inner : Gen (list A)) : Gen (list A) :=
  match r1s with
  | [] => {| yielded := []; raised := raised1 |}
  | r1 :: r1s' =>
      let block := map (fun r2 => r1 ++ r2) (yielded inner) in
      match raised inner with
      | Some e => {| yielded := block; raised := Some e |}
      | None =>
          let more := product_loop r1s' raised1 inner in
          {| yielded := block ++ yielded more; raised := raised more |}
      end
  end.

Definition product {A} (outer inner : Gen (list A)) : Gen (list A) :=
  product_loop (yielded outer) (raised outer) inner.

(** The loop of [OptionsMinMaxOf.iter_options] over the sizes [ns]. *)
Fixpoint min_max_loop {A} (options : list A) (ns : list Z) : Gen (list A) :=
  match ns with
  | [] => gen_of_list []
  | n :: ns' =>
      match itertools_combinations options n with
      | Raise e => {| yielded := []; raised := Some e |}
      | Ok results =>
          let more := min_max_loop options ns' in
          {| yielded := results ++ yielded more; raised := raised more |}
      end
  end.

(** [iter_options()] *)
Fixpoint iter_options (g : OptionsGenerator) : Gen (list Option) :=
  match g with
  | OptionsProduct o1 o2 => product (iter_options o1) (iter_options o2)
  | OptionsAllOf options => gen_of_list [PyDict.values options]
  | OptionsOneOf options =>
      gen_of_list (map (fun option => [option]) (PyDict.values options))
  | OptionsMinMaxOf options n_min n_max =>
      min_max_loop (PyDict.values options) (range n_min (n_max + 1))
  | OptionsSubsets options => gen_of_list (iter_subsets (PyDict.values options))
  | OptionsOther enumeration => enumeration
  end.

(** [times(other)] *)
Definition times (self other : OptionsGenerator) : OptionsGenerator :=
  OptionsProduct self other.

End options.
Arguments Option : clear implicits.
Arguments OptionsGenerator : clear implicits.
End Options.

(** ** Reference definitions and sample data *)

(** A row matches a candidate when, under every key of the candidate, its
    value ([None] for a missing key) is equal to the candidate's or has
    the same text. *)
Definition row_matches (row values : dict string PyVal) : bool :=
  forallb
    (fun kv =>
       let ev := default PyNone (PyDict.get row kv.1) in
       py_eq ev kv.2 || bool_decide (py_str ev = py_str kv.2))
    values.

(** [set(d.keys())] *)
Definition key_set {V : Type} (d : dict string V) : gset string :=
  list_to_set (PyDict.keys d).

(** Two alternative mappings over the keys [a] and [b], and a third one
    with an extra key. *)
Definition options_ab : dict string (list PyVal) :=
  [("a", [PyInt 1; PyInt 2]); ("b", [PyStr "x"; PyStr "y"])].
Definition options_ba : dict string (list PyVal) :=
  [("b", [PyStr "z"]); ("a", [PyInt 3])].
Definition options_abc : dict string (list PyVal) :=
  [("a", [PyInt 1]); ("b", [PyStr "x"]); ("c", [PyBool true])].

(** The order of two rows by their cells in column [i]. *)
Definition rows_in_order (ascending : bool) (i : nat) (r r' : nat * list PyVal) : Prop :=
  Collection.in_order ascending (Collection.cell i r) (Collection.cell i r') = true.

(** A column is sorted when its present cells come first, each one in
    the order the direction asks for with the next, and the missing
    cells follow. *)
Definition column_sorted (ascending : bool) (cells : list PyVal) : Prop :=
  ∃ present missing,
    cells = present ++ missing
    ∧ Forall (fun v => Collection.is_missing v = false) present
    ∧ Forall (fun v => Collection.is_missing v = true) missing
    ∧ Sorted (fun a b => Collection.in_order ascending a b = true) present.

(** The table of a collection holds one row for each of [records]: the
    rows are labelled [0, 1, ...], the next label is free, the columns
    are the keys of the records, and every row is a record laid out along
    the columns. *)
Definition tabulates (c : Collection.t) (records : list (dict string PyVal)) : Prop :=
  match Collection.df c with
  | None => records = [] ∧ Collection._current_row c = 0
  | Some d =>
      PyDict.keys (Collection.rows d) = seq 0 (length (Collection.rows d))
      ∧ Collection._current_row c = length (Collection.rows d)
      ∧ (∀ k, k ∈ Collection.columns d ↔ ∃ r, r ∈ records ∧ k ∈ PyDict.keys r)
      ∧ (Collection.rows d).*2 ≡ₚ map (Collection.row_of (Collection.columns d)) records
  end.

(** The combinations a run enumerates, in order. *)
Definition enumerated_combinations (parameter_options_list : list (dict string (list PyVal)))
    : list (dict string PyVal) :=
  concat (map iter_param_combinations parameter_options_list).

(** Consecutive numbers from [i] on, one per item. *)
Definition numbered {A : Type} (i : nat) (l : list A) : list (nat * A) :=
  zip (seq i (length l)) l.

(** What one pass through the body of either loop of [GridSearch.run]
    does to the index and to the record of calls. *)
Definition counts_calls {D : Type} (gs : GridSearch.t (D := D))
    (body : GridSearch.RunState (D := D) → dict string PyVal
            → Result (GridSearch.RunState (D := D)))
    : Prop :=
  ∀ st p st', body st p = Ok st' →
    Collection.value_dicts (GridSearch.params_metrics_collection st')
    = Collection.value_dicts (GridSearch.params_metrics_collection st)
    ∧ if GridSearch.skip_existing gs (GridSearch.params_metrics_collection st) p
      then GridSearch.eval_calls st' = GridSearch.eval_calls st
           ∧ GridSearch.combination_idx st' = GridSearch.combination_idx st
      else GridSearch.eval_calls st'
           = GridSearch.eval_calls st ++ [(GridSearch.combination_idx st, p)]
           ∧ GridSearch.combination_idx st' = S (GridSearch.combination_idx st).

(** The binomial coefficient for an integer size: no subset has a
    negative size. *)
Definition binomZ (n : nat) (k : Z) : nat :=
  if bool_decide (k < 0)%Z then 0 else binom n (Z.to_nat k).

(** The number of combinations the specification gives for sizes from
    [n_min] to [n_max] out of [n] options. *)
Definition spec_min_max_count (n : nat) (n_min n_max : Z) : nat :=
  sum_list (binomZ n <$> Options.range n_min (n_max + 1)).

(** Entries of an options dictionary stored under their own key. *)
Definition keyed {TKey TValue : Type} (kv : TKey * Options.Option TKey TValue) : Prop :=
  Options.key kv.2 = kv.1.

(** Generators over sample options. *)
Definition one_of_ab : Options.OptionsGenerator string nat :=
  Options.OneOf (inl ["a"; "b"]).
Definition zero_or_one_of_cd : Options.OptionsGenerator string nat :=
  Options.OneOrNoneOf (inl ["c"; "d"]).

(** [itertuples] for tables whose column names are plain identifiers:
    the index label under ["Index"], then every cell under its column. *)
Definition itertuples_plain (df : Collection.DataFrame) : list (dict string PyVal) :=
  map (fun r => ("Index", PyInt (Z.of_nat r.1)) :: zip (Collection.columns df) r.2)
    (Collection.rows df).

(** A record can take part in sorting by the configured column: its
    value there, if it has one, is a number or missing. *)
Definition sortable_by (sort_column_name : option string) (r : dict string PyVal) : bool :=
  match sort_column_name with
  | None => true
  | Some s =>
      let v := default PyNone (PyDict.get r s) in
      Collection.is_number v || Collection.is_missing v
  end.

(** A collection that sorts by ["m"], best (highest) first. *)
Definition sample_sorted_collection : Collection.t :=
  Collection.init itertuples_plain None (Some "m") false false None.

Definition sample_records : list (dict string PyVal) :=
  [[("a", PyInt 1); ("m", PyInt 5)];
   [("m", PyInt 7); ("b", PyStr "q")];
   [("a", PyInt 3)];
   [("m", PyInt 6)]].

(** A persisted table with two rows. *)
Definition sample_table : Collection.DataFrame :=
  {| Collection.columns := ["a"; "b"];
     Collection.rows := [(0, [PyInt 1; PyInt 2]); (1, [PyInt 3; PyInt 4])] |}.

(** The collection that reloads [sample_table] in incremental mode. *)
Definition sample_collection : Collection.t :=
  Collection.init itertuples_plain (Some "results.csv") None true true
    (Some sample_table).

(** A model that is its parameter combination, with one metric. *)
Definition sample_compute_metrics (model : dict string PyVal) : dict string PyVal :=
  [("mse", default PyNone (PyDict.get model "a"))].
Definition sample_model_str (model : dict string PyVal) : string := "model".

(** A skip decider that skips the combinations in which [a] is 1 and
    counts what it is told. *)
#[export] Instance skip_a1 : SkipDecider nat := {|
  tell n _ _ := S n;
  is_skipped _ params := py_eq (default PyNone (PyDict.get params "a")) (PyInt 1);
|}.

(** A sequential grid search over [a] in [1, 5] and [b] in [2] that
    saves its models and skips what the reloaded table contains. *)
Definition sample_grid_search : GridSearch.t (D := nat) :=
  {| GridSearch.parameter_options_list := [[("a", [PyInt 1; PyInt 5]); ("b", [PyInt 2])]];
     GridSearch.param_names := {["a"; "b"]};
     GridSearch.num_processes := 1;
     GridSearch.parameter_combination_skip_decider := None;
     GridSearch.model_save_directory := Some "models";
     GridSearch.name := "gs";
     GridSearch.csv_results_path := Some "results.csv";
     GridSearch.incremental := true;
     GridSearch.incremental_skip_existing := true;
     GridSearch.num_combinations := 2 |}.

(** The same search started afresh, with the skip decider. *)
Definition sample_grid_search_decider : GridSearch.t (D := nat) :=
  {| GridSearch.parameter_options_list := [[("a", [PyInt 1; PyInt 5]); ("b", [PyInt 2])]];
     GridSearch.param_names := {["a"; "b"]};
     GridSearch.num_processes := 1;
     GridSearch.parameter_combination_skip_decider := Some 0;
     GridSearch.model_save_directory := Some "models";
     GridSearch.name := "gs";
     GridSearch.csv_results_path := None;
     GridSearch.incremental := false;
     GridSearch.incremental_skip_existing := false;
     GridSearch.num_combinations := 2 |}.

(** An equivalence-class reduction that keeps parameter ["a"] only. *)
#[export] Instance keep_a : EquivalenceClass string :=
  fun params => py_str (default PyNone (PyDict.get params "a")).

(** An annealing set-up that minimises ["mse"] from [a = 1], and an
    engine whose single operator proposes [a = 0] at each of two steps:
    the first proposal is accepted, and the state is applied at the end. *)
Definition sample_annealing : SAHyperOpt.t :=
  {| SAHyperOpt.minimise_metric := true;
     SAHyperOpt.metric_to_optimise := "mse";
     SAHyperOpt.initial_parameters := [("a", PyInt 1); ("b", PyInt 2)] |}.

Definition sample_engine : list SAHyperOpt.EngineCall :=
  [SAHyperOpt.CallComputeCostValue;
   SAHyperOpt.CallSetCost (PyInt 1);
   SAHyperOpt.CallCostDelta [("a", PyInt 0)];
   SAHyperOpt.CallApplyStateChange [("a", PyInt 0)];
   SAHyperOpt.CallSetCost (PyInt 0);
   SAHyperOpt.CallCostDelta [("a", PyInt 0)];
   SAHyperOpt.CallApplyStateRepresentation [("a", PyInt 0); ("b", PyInt 2)]].

(** ** Further reference definitions and sample data *)

(** An entry picks one of the listed values of a parameter. *)
Definition picks {V : Type} (entry : string * V) (param : string * list V) : Prop :=
  entry.1 = param.1 ∧ entry.2 ∈ param.2.

(** The table whose rows are the given records in order, labelled by
    their positions and laid out along the columns. *)
Definition table_of (cols : list string) (records : list (list (string * PyVal)))
    : list (nat * list PyVal) :=
  imap (fun i r => (i, Collection.row_of cols r)) records.

(** The columns of the table the first call creates: the keys of the
    record, the sort column moved to the front. *)
Definition first_columns (sort_column_name : option string) (keys : list string)
    : list string :=
  match sort_column_name with
  | Some s => if bool_decide (s ∈ keys) then s :: filter (fun k => k ≠ s) keys else keys
  | None => keys
  end.

(** The state of a collection that never sorted: its table lists the
    records in call order. *)
Definition lists_in_order (c : Collection.t) (records : list (list (string * PyVal)))
    : Prop :=
  ∃ d, Collection.df c = Some d
       ∧ Collection.columns d = PyDict.keys (PyDict.of_items (concat records))
       ∧ Collection.rows d = table_of (Collection.columns d) records
       ∧ Collection._current_row c = length records.

(** A collection without a sort column. *)
Definition sample_plain_collection : Collection.t :=
  Collection.init itertuples_plain None None true false None.

(** The path under which [_eval_params] saves the model of the call
    with the given index. *)
Definition saved_model_path (dir name : string) (idx : nat) : string :=
  dir +:+ "/" +:+ name +:+ "_" +:+ pretty idx +:+ ".pickle".

(** Whether a skip decider, if there is one, skips a combination. *)
Definition decider_skips {D : Type} `{SkipDecider D} (d : option D)
    (params : list (string * PyVal)) : bool :=
  match d with
  | Some d => is_skipped d params
  | None => false
  end.

(** The files a run has saved are those of some of its calls, in order. *)
Definition saved_by_calls {D : Type} (gs : GridSearch.t (D := D))
    (st : GridSearch.RunState (D := D)) : Prop :=
  ∃ calls, calls `sublist_of` GridSearch.eval_calls st
           ∧ GridSearch.saved_models st
             = match GridSearch.model_save_directory gs with
               | Some dir =>
                   map (fun call => saved_model_path dir (GridSearch.name gs) call.1) calls
               | None => []
               end.

(** What a caller can observe of the state in which a run ends. *)
Definition run_outcome {D : Type} (st : GridSearch.RunState (D := D))
    : Collection.t * list string * list (nat * list (string * PyVal)) * nat :=
  (GridSearch.params_metrics_collection st, GridSearch.saved_models st,
   GridSearch.eval_calls st, GridSearch.combination_idx st).

(** The same grid search with another number of processes. *)
Definition with_num_processes {D : Type} (n : Z) (gs : GridSearch.t (D := D))
    : GridSearch.t (D := D) :=
  {| GridSearch.parameter_options_list := GridSearch.parameter_options_list gs;
     GridSearch.param_names := GridSearch.param_names gs;
     GridSearch.num_processes := n;
     GridSearch.parameter_combination_skip_decider :=
       GridSearch.parameter_combination_skip_decider gs;
     GridSearch.model_save_directory := GridSearch.model_save_directory gs;
     GridSearch.name := GridSearch.name gs;
     GridSearch.csv_results_path := GridSearch.csv_results_path gs;
     GridSearch.incremental := GridSearch.incremental gs;
     GridSearch.incremental_skip_existing := GridSearch.incremental_skip_existing gs;
     GridSearch.num_combinations := GridSearch.num_combinations gs |}.

(** A skip decider whose decisions do not depend on what it was told. *)
Definition decides_statically (D : Type) `{SkipDecider D} : Prop :=
  ∀ (d : D) (params metrics candidate : list (string * PyVal)),
    is_skipped (tell d params metrics) candidate = is_skipped d candidate.

(** A record holds the parameters of a combination under their names. *)
Definition holds_params (params record : list (string * PyVal)) : Prop :=
  ∀ k v, PyDict.get params k = Some v → PyDict.get record k = Some v.

(** A search over two parameters, without skip decider, started afresh
    in a pool of three processes. *)
Definition sample_grid_search_pool : GridSearch.t (D := nat) :=
  {| GridSearch.parameter_options_list := [options_ab; options_ba];
     GridSearch.param_names := {["a"; "b"]};
     GridSearch.num_processes := 3;
     GridSearch.parameter_combination_skip_decider := None;
     GridSearch.model_save_directory := None;
     GridSearch.name := "gs";
     GridSearch.csv_results_path := None;
     GridSearch.incremental := false;
     GridSearch.incremental_skip_existing := false;
     GridSearch.num_combinations := 5 |}.

(** The argument of a call, or else the default of the object. *)
Definition or_default {B : Type} (argument default : option B) : option B :=
  match argument with
  | Some b => Some b
  | None => default
  end.

(** A result table with three evaluated combinations. *)
Definition sample_result : GridSearchResult.t :=
  GridSearchResult.init
    (Some {| Collection.columns := ["mse"; "a"; "b"];
             Collection.rows := [(0, [PyInt 4; PyInt 1; PyStr "x"]);
                                 (1, [PyInt 9; PyInt 2; PyStr "x"]);
                                 (2, [PyNone; PyInt 3; PyStr "y"])] |})
    ["a"; "b"] (Some "mse") (Some false).

(** The store with the collection and the cache of [evaluated] and the
    attributes of the state of [state]. *)
Definition with_state {Key : Type} `{EquivalenceClass Key}
    (evaluated state : SAHyperOpt.Store (Key := Key)) : SAHyperOpt.Store (Key := Key) :=
  {| SAHyperOpt.parameters_metrics_collection :=
       SAHyperOpt.parameters_metrics_collection evaluated;
     SAHyperOpt.value_cache := SAHyperOpt.value_cache evaluated;
     SAHyperOpt.results := SAHyperOpt.results state;
     SAHyperOpt.params := SAHyperOpt.params state;
     SAHyperOpt.cost := SAHyperOpt.cost state |}.

(** A state of the sample annealing at [a = 5] with cost 5, without
    collection and cache. *)
Definition sample_store : SAHyperOpt.Store (Key := string) :=
  {| SAHyperOpt.parameters_metrics_collection := None;
     SAHyperOpt.value_cache := None;
     SAHyperOpt.results := [];
     SAHyperOpt.params := [("a", PyInt 5); ("b", PyInt 2)];
     SAHyperOpt.cost := Some (PyInt 5) |}.

(** The record that an evaluation of the annealing adapter adds to the
    collection: the metrics, the text of the model and the parameters. *)
Definition evaluation_record {Model : Type}
    (model_factory : list (string * PyVal) → Model)
    (compute_metrics : Model → list (string * PyVal))
    (model_str : Model → string) (params : list (string * PyVal))
    : list (string * PyVal) :=
  let model := model_factory params in
  PyDict.update
    (PyDict.set "str(model)" (PyStr (model_str model)) (compute_metrics model))
    params.

(** What the sequential loop has told the skip decider. *)
Definition told {D : Type} `{SkipDecider D}
    (tellings : list (list (string * PyVal) * list (string * PyVal))) (d : D) : D :=
  fold_left (fun d t => tell d t.1 t.2) tellings d.

(** The rows of the given records in order, labelled from [start] on and
    laid out along the columns. *)
Definition table_from (start : nat) (cols : list string)
    (records : list (list (string * PyVal))) : list (nat * list PyVal) :=
  imap (fun i r => (start + i, Collection.row_of cols r)) records.

(** Rows with [k] more cells, all missing. *)
Definition padded (k : nat) (rows : list (nat * list PyVal)) : list (nat * list PyVal) :=
  (fun r => (r.1, r.2 ++ replicate k PyNone)) <$> rows.

(** The state of a collection that reloaded [loaded], never sorts and
    was given [records] since. *)
Definition resumes (c : Collection.t) (loaded : Collection.DataFrame)
    (records : list (list (string * PyVal))) : Prop :=
  ∃ d new,
    Collection.df c = Some d
    ∧ Collection.sort_column_name c = None
    ∧ Collection.columns d = Collection.columns loaded ++ new
    ∧ NoDup new
    ∧ (∀ k, k ∈ Collection.columns d
            ↔ k ∈ Collection.columns loaded ∨ ∃ r, r ∈ records ∧ k ∈ PyDict.keys r)
    ∧ (∀ k, k ∈ new → k ∉ Collection.columns loaded)
    ∧ Collection.rows d
      = padded (length new) (Collection.rows loaded)
        ++ table_from (length (Collection.rows loaded)) (Collection.columns d) records
    ∧ Collection._current_row c = length (Collection.rows loaded) + length records.

(** The search of [sample_grid_search] as first run, over [a] in [1]
    only, when there is no table at the path yet. *)
Definition sample_grid_search_first : GridSearch.t (D := nat) :=
  {| GridSearch.parameter_options_list := [[("a", [PyInt 1]); ("b", [PyInt 2])]];
     GridSearch.param_names := {["a"; "b"]};
     GridSearch.num_processes := 1;
     GridSearch.parameter_combination_skip_decider := None;
     GridSearch.model_save_directory := Some "models";
     GridSearch.name := "gs";
     GridSearch.csv_results_path := Some "results.csv";
     GridSearch.incremental := true;
     GridSearch.incremental_skip_existing := true;
     GridSearch.num_combinations := 1 |}.

(* ================================================================== *)
(** * Part II: properties                                              *)
(* ================================================================== *)

(** ** Facts about dictionaries *)

Section dict_facts.
Context {K V : Type} `{EqDecision K}.
Implicit Types (d : list (K * V)) (k : K) (v : V).

Lemma dict_keys_cons k v d : PyDict.keys ((k, v) :: d) = k :: PyDict.keys d.
Proof. reflexivity. Qed.

Lemma dict_keys_app d1 d2 : PyDict.keys (d1 ++ d2) = PyDict.keys d1 ++ PyDict.keys d2.
Proof. unfold PyDict.keys. apply fmap_app. Qed.

Lemma dict_get_set_eq k v d : PyDict.get (PyDict.set k v d) k = Some v.
Proof.
  induction d as [|[k' v'] d IH]; simpl.
  - by rewrite decide_True.
  - destruct (decide (k = k')) as [->|Hne]; simpl.
    + by rewrite decide_True.
    + by rewrite decide_False.
Qed.

Lemma dict_get_set_ne k k' v d :
  k ≠ k' → PyDict.get (PyDict.set k v d) k' = PyDict.get d k'.
Proof.
  intros Hne. induction d as [|[k0 v0] d IH]; simpl.
  - rewrite decide_False; [done | congruence].
  - destruct (decide (k = k0)) as [->|Hne0]; simpl.
    + rewrite !decide_False; [done | congruence | congruence].
    + destruct (decide (k' = k0)); [done | apply IH].
Qed.

Lemma dict_get_set k k' v d :
  PyDict.get (PyDict.set k v d) k' = if decide (k = k') then Some v else PyDict.get d k'.
Proof.
  destruct (decide (k = k')) as [->|Hne];
    [apply dict_get_set_eq | by apply dict_get_set_ne].
Qed.

Lemma dict_keys_set_in k v d : k ∈ PyDict.keys d → PyDict.keys (PyDict.set k v d) = PyDict.keys d.
Proof.
  induction d as [|[k' v'] d IH]; simpl; intros Hin.
  - by apply elem_of_nil in Hin.
  - destruct (decide (k = k')) as [->|Hne]; [done|].
    rewrite !dict_keys_cons. f_equal. apply IH.
    rewrite dict_keys_cons in Hin. apply elem_of_cons in Hin as [?|?]; done.
Qed.

Lemma dict_keys_set_notin k v d :
  k ∉ PyDict.keys d → PyDict.keys (PyDict.set k v d) = PyDict.keys d ++ [k].
Proof.
  induction d as [|[k' v'] d IH]; simpl; intros Hnin; [done|].
  rewrite dict_keys_cons in Hnin. apply not_elem_of_cons in Hnin as [Hne Hnin].
  rewrite decide_False by done. rewrite !dict_keys_cons. simpl. f_equal. by apply IH.
Qed.

Lemma dict_set_app_notin k v d1 d2 :
  k ∉ PyDict.keys d1 → PyDict.set k v (d1 ++ d2) = d1 ++ PyDict.set k v d2.
Proof.
  induction d1 as [|[k' v'] d1 IH]; simpl; intros Hnin; [done|].
  rewrite dict_keys_cons in Hnin. apply not_elem_of_cons in Hnin as [Hne Hnin].
  rewrite decide_False by done. f_equal. by apply IH.
Qed.

Lemma dict_NoDup_keys_set k v d :
  NoDup (PyDict.keys d) → NoDup (PyDict.keys (PyDict.set k v d)).
Proof.
  intros Hnd. destruct (decide (k ∈ PyDict.keys d)) as [Hin|Hnin].
  - by rewrite dict_keys_set_in.
  - rewrite dict_keys_set_notin by done. apply NoDup_app. split_and!; [done| |].
    + intros x Hx Hx'. apply list_elem_of_singleton in Hx'. by subst.
    + apply NoDup_singleton.
Qed.

Lemma dict_get_Some_keys d k v : PyDict.get d k = Some v → k ∈ PyDict.keys d.
Proof.
  induction d as [|[k' v'] d IH]; simpl; [done|]. rewrite dict_keys_cons.
  destruct (decide (k = k')) as [->|Hne]; intros Hg.
  - apply elem_of_cons. by left.
  - apply elem_of_cons. right. by apply IH.
Qed.

Lemma dict_get_None_keys d k : PyDict.get d k = None ↔ k ∉ PyDict.keys d.
Proof.
  induction d as [|[k' v'] d IH]; simpl.
  - split; [intros _; apply not_elem_of_nil | done].
  - rewrite dict_keys_cons, not_elem_of_cons.
    destruct (decide (k = k')) as [->|Hne].
    + split; [done | intros [? _]; done].
    + rewrite IH. split; [by intros ? | by intros [_ ?]].
Qed.

Lemma dict_get_update d other k :
  PyDict.get (PyDict.update d other) k =
    match PyDict.get (reverse other) k with
    | Some v => Some v
    | None => PyDict.get d k
    end.
Proof.
  unfold PyDict.update. revert d.
  induction other as [|[k' v'] other IH] using rev_ind; intros d.
  - done.
  - rewrite fold_left_app, reverse_snoc. simpl.
    rewrite dict_get_set. destruct (decide (k' = k)) as [->|Hne].
    + by rewrite decide_True.
    + rewrite decide_False by congruence. apply IH.
Qed.

Lemma dict_NoDup_keys_update d other :
  NoDup (PyDict.keys d) → NoDup (PyDict.keys (PyDict.update d other)).
Proof.
  unfold PyDict.update. revert d. induction other as [|[k v] other IH]; intros d Hd.
  - done.
  - simpl. apply IH. by apply dict_NoDup_keys_set.
Qed.

Lemma dict_keys_update_elem d other k :
  k ∈ PyDict.keys (PyDict.update d other) ↔ k ∈ PyDict.keys d ∨ k ∈ PyDict.keys other.
Proof.
  unfold PyDict.update. revert d. induction other as [|[k' v'] other IH]; intros d.
  - simpl. split; [by left | intros [?|Hk]; [done | by apply elem_of_nil in Hk]].
  - simpl. rewrite IH, dict_keys_cons, elem_of_cons.
    destruct (decide (k' ∈ PyDict.keys d)) as [Hin|Hnin].
    + rewrite dict_keys_set_in by done. split; [tauto|].
      intros [?|[->|?]]; auto.
    + rewrite dict_keys_set_notin by done. rewrite elem_of_app, list_elem_of_singleton.
      tauto.
Qed.

Lemma dict_get_reverse_Some_keys d k :
  is_Some (PyDict.get (reverse d) k) ↔ k ∈ PyDict.keys d.
Proof.
  split.
  - intros [v Hv]. apply dict_get_Some_keys in Hv.
    unfold PyDict.keys in *. by rewrite fmap_reverse, elem_of_reverse in Hv.
  - intros Hin. destruct (PyDict.get (reverse d) k) eqn:E; [eauto|].
    apply dict_get_None_keys in E. exfalso. apply E.
    unfold PyDict.keys in *. by rewrite fmap_reverse, elem_of_reverse.
Qed.

End dict_facts.

(** ** The flat combination iterator *)

Section iter_param_combinations_facts.
Context {V : Type}.
Implicit Types (pairs rest : list (string * list V)) (P T : list (string * V)).

Lemma dict_set_prefix (k : string) (v : V) T (ks : list string) :
  PyDict.keys T `prefix_of` (k :: ks) → k ∉ ks →
  ∃ T', PyDict.set k v T = (k, v) :: T' ∧ PyDict.keys T' `prefix_of` ks.
Proof.
  intros Hpre Hk. destruct T as [|[k' v'] T].
  - exists []. split; [done | apply prefix_nil].
  - rewrite dict_keys_cons in Hpre.
    pose proof (prefix_cons_inv_1 _ _ _ _ Hpre) as ->.
    apply prefix_cons_inv_2 in Hpre.
    exists T. simpl. by rewrite decide_True.
Qed.

Lemma map_app_snoc P (k : string) (v : V) (cs : list (list (string * V))) :
  map (app (P ++ [(k, v)])) cs = map (app P) (map (cons (k, v)) cs).
Proof.
  rewrite map_map. apply map_ext. intros c. by rewrite <- app_assoc.
Qed.

Lemma map_flat_map {A B C} (f : B → C) (g : A → list B) (l : list A) :
  map f (flat_map g l) = flat_map (fun a => map f (g a)) l.
Proof.
  induction l as [|a l IH]; simpl; [done|]. by rewrite map_app, IH.
Qed.

(** What a call of the recursive generator yields when [params] holds the
    entries [P] of the parameters already chosen, followed by left-over
    entries [T] of earlier visits of the remaining parameters. *)
Lemma _iter_recursive_param_combinations_spec rest P T :
  NoDup (PyDict.keys P ++ PyDict.keys rest) →
  PyDict.keys T `prefix_of` PyDict.keys rest →
  ∃ T', _iter_recursive_param_combinations rest (P ++ T)
        = (map (app P) (cartesian_product rest), P ++ T')
        ∧ PyDict.keys T' `prefix_of` PyDict.keys rest.
Proof.
  revert P T. induction rest as [|[k vs] rest IH]; intros P T Hnd Hpre.
  - apply prefix_nil_inv in Hpre. destruct T; [|done].
    exists []. simpl. by rewrite app_nil_r.
  - rewrite dict_keys_cons in Hnd, Hpre.
    assert (Hk : (k ∉ PyDict.keys P) ∧ (k ∉ PyDict.keys rest)
                 ∧ NoDup ((PyDict.keys P ++ [k]) ++ PyDict.keys rest)).
    { apply NoDup_app in Hnd as (HP & Hdisj & Hrest).
      apply NoDup_cons in Hrest as [Hk Hrest]. split_and!.
      - intros Hin. apply (Hdisj _ Hin). by left.
      - done.
      - rewrite <- app_assoc. simpl.
        apply NoDup_app. split_and!; [done|..].
        + intros x Hx. by apply Hdisj.
        + by apply NoDup_cons. }
    destruct Hk as (HkP & Hkrest & Hnd').
    simpl. rewrite map_flat_map.
    revert T Hpre. induction vs as [|v vs IHvs]; intros T Hpre.
    + exists T. done.
    + rewrite dict_set_app_notin by done.
      destruct (dict_set_prefix k v T _ Hpre Hkrest) as (T2 & -> & Hpre2).
      destruct (IH (P ++ [(k, v)]) T2) as (T3 & HIH & Hpre3).
      { by rewrite dict_keys_app. }
      { done. }
      replace (P ++ (k, v) :: T2) with ((P ++ [(k, v)]) ++ T2)
        by (by rewrite <- app_assoc).
      rewrite HIH.
      replace ((P ++ [(k, v)]) ++ T3) with (P ++ (k, v) :: T3)
        by (by rewrite <- app_assoc).
      destruct (IHvs ((k, v) :: T3)) as (T4 & HIHvs & Hpre4).
      { rewrite dict_keys_cons. by apply prefix_cons. }
      rewrite HIHvs. exists T4. split; [|done].
      simpl. by rewrite map_app_snoc.
Qed.

Lemma iter_param_combinations_eq (hyper_param_values : list (string * list V)) :
  NoDup (PyDict.keys hyper_param_values) →
  iter_param_combinations hyper_param_values = cartesian_product hyper_param_values.
Proof.
  intros Hnd. unfold iter_param_combinations.
  destruct (_iter_recursive_param_combinations_spec hyper_param_values [] [])
    as (T' & Heq & _); [done | apply prefix_nil |].
  simpl in Heq. rewrite Heq. simpl. apply map_id.
Qed.

Lemma cartesian_product_length pairs :
  length (cartesian_product pairs) = option_count_product pairs.
Proof.
  unfold option_count_product.
  induction pairs as [|[k vs] pairs IH]; simpl; [done|].
  rewrite <- IH. clear IH.
  induction vs as [|v vs IHvs]; simpl; [done|].
  by rewrite length_app, length_map, IHvs.
Qed.

Lemma cartesian_product_keys pairs :
  Forall (fun c => PyDict.keys c = PyDict.keys pairs) (cartesian_product pairs).
Proof.
  induction pairs as [|[k vs] pairs IH]; simpl.
  - by constructor.
  - apply Forall_flat_map. apply Forall_forall. intros v _.
    apply Forall_map. eapply Forall_impl; [exact IH|].
    intros c Hc. simpl. rewrite !dict_keys_cons. by f_equal.
Qed.

Lemma cartesian_product_snoc pairs (k : string) (vs : list V) :
  cartesian_product (pairs ++ [(k, vs)])
  = flat_map (fun c => map (fun v => c ++ [(k, v)]) vs) (cartesian_product pairs).
Proof.
  induction pairs as [|[k' vs'] pairs IH]; simpl.
  - rewrite app_nil_r. induction vs as [|v vs IHvs]; simpl; [done|]. by f_equal.
  - rewrite IH. clear IH.
    induction vs' as [|v' vs' IHvs']; simpl; [done|].
    rewrite flat_map_app, <- IHvs'. f_equal.
    generalize (cartesian_product pairs). intros cs.
    induction cs as [|c cs IHcs]; simpl; [done|].
    rewrite map_app, map_map, IHcs. done.
Qed.

End iter_param_combinations_facts.

(** C1. For a mapping (a dictionary: its keys are distinct),
    [iter_param_combinations] yields the full Cartesian product of the
    value lists: as many combinations as the product of the option
    counts, each with exactly the keys of the input in their order, the
    last-declared parameter running through its values within every
    combination of the others; the empty mapping gives the single empty
    combination. *)
Theorem iter_param_combinations_cartesian {V : Type}
    (hyper_param_values : list (string * list V)) :
  NoDup (PyDict.keys hyper_param_values) →
  iter_param_combinations hyper_param_values = cartesian_product hyper_param_values
  ∧ length (iter_param_combinations hyper_param_values)
    = option_count_product hyper_param_values
  ∧ Forall (fun c => PyDict.keys c = PyDict.keys hyper_param_values)
      (iter_param_combinations hyper_param_values)
  ∧ (∀ pairs k vs,
       hyper_param_values = pairs ++ [(k, vs)] →
       iter_param_combinations hyper_param_values
       = flat_map (fun c => map (fun v => c ++ [(k, v)]) vs)
           (iter_param_combinations pairs))
  ∧ (hyper_param_values = [] → iter_param_combinations hyper_param_values = [[]]).
Proof.
  intros Hnd. rewrite iter_param_combinations_eq by done. split_and!.
  - done.
  - apply cartesian_product_length.
  - apply cartesian_product_keys.
  - intros pairs k vs ->. rewrite iter_param_combinations_eq.
    + apply cartesian_product_snoc.
    + rewrite dict_keys_app in Hnd. by apply NoDup_app in Hnd as (? & _ & _).
  - by intros ->.
Qed.

Lemma iter_param_combinations_cartesian_witness :
  iter_param_combinations
    [("a", [PyInt 1; PyInt 2]); ("b", [PyStr "x"; PyStr "y"])]
  = [[("a", PyInt 1); ("b", PyStr "x")]; [("a", PyInt 1); ("b", PyStr "y")];
     [("a", PyInt 2); ("b", PyStr "x")]; [("a", PyInt 2); ("b", PyStr "y")]].
Proof.
  pose proof (iter_param_combinations_cartesian
    [("a", [PyInt 1; PyInt 2]); ("b", [PyStr "x"; PyStr "y"])]) as Hc.
  destruct Hc as [Heq _].
  - vm_compute. compute_done.
  - rewrite Heq. reflexivity.
Defined.

(** ** The equivalence-class cache *)

Section cache_facts.
Context {Key V : Type} `{EquivalenceClass Key}.

Lemma cache_get_set_same (c : ValueCache.t Key V) c1 c2 (v : option V) :
  _equivalence_class c1 = _equivalence_class c2 →
  ValueCache.get (ValueCache.set c c1 v) c2 = v.
Proof.
  intros Heq. unfold ValueCache.get, ValueCache.set. simpl.
  by rewrite Heq, lookup_insert_eq.
Qed.

Lemma cache_get_set_other (c : ValueCache.t Key V) c1 c2 (v : option V) :
  _equivalence_class c1 ≠ _equivalence_class c2 →
  ValueCache.get (ValueCache.set c c1 v) c2 = ValueCache.get c c2.
Proof.
  intros Hne. unfold ValueCache.get, ValueCache.set. simpl.
  by rewrite lookup_insert_ne.
Qed.

Lemma cache_get_never_set (sets : list (list (string * PyVal) * option V)) c2 :
  Forall (fun s => _equivalence_class s.1 ≠ _equivalence_class c2) sets →
  ValueCache.get
    (fold_left (fun c s => ValueCache.set c s.1 s.2) sets ValueCache.init) c2 = None.
Proof.
  induction sets as [|s sets IH] using rev_ind; intros Hall.
  - unfold ValueCache.get. simpl. by rewrite lookup_empty.
  - apply Forall_app in Hall as [Hall Hs]. rewrite fold_left_app. simpl.
    rewrite cache_get_set_other; [by apply IH|].
    by rewrite Forall_singleton in Hs.
Qed.

End cache_facts.

(** C7. When two combinations have the same equivalence key, [get] of
    the second after [set] of the first returns the stored value, whatever
    else the two differ in; and [get] returns [None], without raising,
    for a key that no [set] has stored: on the new cache and after any
    [set] calls with other keys. *)
Theorem cache_set_then_get {Key V : Type} `{EquivalenceClass Key}
    (c : ValueCache.t Key V) (c1 c2 : list (string * PyVal)) (v : option V) :
  _equivalence_class c1 = _equivalence_class c2 →
  ValueCache.get (ValueCache.set c c1 v) c2 = v
  ∧ ValueCache.get (ValueCache.init (V := V)) c2 = None
  ∧ (∀ sets : list (list (string * PyVal) * option V),
       Forall (fun s => _equivalence_class s.1 ≠ _equivalence_class c2) sets →
       ValueCache.get
         (fold_left (fun c s => ValueCache.set c s.1 s.2) sets ValueCache.init) c2
       = None).
Proof.
  intros Heq. split_and!.
  - by apply cache_get_set_same.
  - exact (cache_get_never_set (V := V) [] c2 (Forall_nil_2 _)).
  - intros sets Hsets. by apply cache_get_never_set.
Qed.

Lemma cache_set_then_get_witness :
  ValueCache.get
    (ValueCache.set (ValueCache.init (Key := string) (V := nat))
       [("a", PyInt 1); ("b", PyInt 2)] (Some 7))
    [("a", PyInt 1); ("b", PyInt 3)] = Some 7.
Proof.
  refine (proj1 (cache_set_then_get ValueCache.init
    [("a", PyInt 1); ("b", PyInt 2)] [("a", PyInt 1); ("b", PyInt 3)] (Some 7) _)).
  reflexivity.
Defined.

(** ** [ParametersMetricsCollection.contains] *)

Lemma is_contained_row_matches row items :
  Collection.is_contained row items = row_matches row items.
Proof.
  unfold row_matches. induction items as [|[k v] items IH]; simpl; [done|].
  rewrite <- IH.
  destruct (py_eq _ v); simpl; [done|].
  by destruct (bool_decide _).
Qed.

Lemma contains_loop_existsb rows values :
  Collection.contains_loop rows values
  = if existsb (fun row => row_matches row values) rows then PyBool true else PyNone.
Proof.
  induction rows as [|row rows IH]; simpl; [done|].
  rewrite is_contained_row_matches. by destruct (row_matches row values).
Qed.

Lemma add_values_value_dicts c values c' :
  Collection.add_values c values = Ok c' →
  Collection.value_dicts c' = Collection.value_dicts c.
Proof.
  unfold Collection.add_values. intros Hadd.
  destruct (Collection.loc_set _ _ _) as [df2|e]; simpl in Hadd; [|done].
  destruct (match Collection.sort_column_name c with Some _ => _ | None => _ end)
    as [df3|e]; simpl in Hadd; [|done].
  by inversion Hadd.
Qed.

(** C2, the claim as stated fails: under every key of the candidate some
    reloaded row has the same text, but no single row has both, and
    [contains] returns [None]. *)
Lemma contains_keywise_counterexample :
  Collection.spec_contains (Collection.value_dicts sample_collection)
    [("a", PyInt 1); ("b", PyInt 4)] = true
  ∧ Collection.contains sample_collection [("a", PyInt 1); ("b", PyInt 4)] = PyNone.
Proof. split; reflexivity. Qed.

(** C2, amended. [contains] returns [True] exactly when one single row of
    [value_dicts] (the rows loaded at construction) matches the candidate
    under every key of the candidate, by [==] or by equal text, a missing
    key counting as [None]; otherwise it returns [None].  Rows appended
    by [add_values] are not consulted. *)
Theorem contains_some_row_matches (c : Collection.t) (values : list (string * PyVal)) :
  Collection.contains c values
  = (if existsb (fun row => row_matches row values) (Collection.value_dicts c)
     then PyBool true else PyNone)
  ∧ (∀ added c', Collection.add_values c added = Ok c' →
       Collection.contains c' values = Collection.contains c values).
Proof.
  split.
  - apply contains_loop_existsb.
  - intros added c' Hadd. unfold Collection.contains.
    by rewrite (add_values_value_dicts _ _ _ Hadd).
Qed.

Lemma contains_some_row_matches_witness :
  ∃ c', Collection.add_values sample_collection [("a", PyInt 9); ("b", PyInt 9)] = Ok c'
        ∧ Collection.contains c' [("a", PyInt 9); ("b", PyInt 9)] = PyNone.
Proof.
  destruct (Collection.add_values sample_collection [("a", PyInt 9); ("b", PyInt 9)])
    as [c'|e] eqn:Hadd; [|by vm_compute in Hadd].
  exists c'. split; [done|].
  rewrite (proj2 (contains_some_row_matches sample_collection _) _ _ Hadd).
  reflexivity.
Defined.

(** ** Loops that can raise *)

Lemma for_each_app {A S : Type} (l1 l2 : list A) (body : S → A → Result S) (s : S) :
  for_each (l1 ++ l2) body s = for_each l1 body s ≫= for_each l2 body.
Proof.
  revert s. induction l1 as [|a l1 IH]; intros s; simpl; [done|].
  destruct (body s a) as [s'|e]; simpl; [apply IH | done].
Qed.

Lemma for_each_concat {A B S : Type} (f : B → list A) (l : list B)
    (body : S → A → Result S) (s : S) :
  for_each l (fun s b => for_each (f b) body s) s
  = for_each (concat (map f l)) body s.
Proof.
  revert s. induction l as [|b l IH]; intros s; simpl; [done|].
  rewrite for_each_app.
  destruct (for_each (f b) body s) as [s'|e]; simpl; [apply IH | done].
Qed.

(** ** [GridSearch.__init__] *)

Section grid_search_init_facts.
Implicit Types (d : list (string * list PyVal)) (ds : list (list (string * list PyVal))).

Lemma check_keys_ok (names : gset string) ds :
  Forall (fun d => key_set d = names) ds → GridSearch.check_keys names ds = Ok ().
Proof.
  induction 1 as [|d ds Hd _ IH]; simpl; [done|].
  rewrite bool_decide_false; [done|]. intros Hne. by apply Hne.
Qed.

Lemma check_keys_raise (names : gset string) ds :
  Exists (fun d => key_set d ≠ names) ds →
  GridSearch.check_keys names ds
  = Raise (ValueError "Keys must be the same for all parameter options dictionaries").
Proof.
  induction 1 as [d ds Hd|d ds _ IH]; simpl.
  - by rewrite bool_decide_true.
  - destruct (bool_decide _); done.
Qed.

End grid_search_init_facts.

(** C9. Constructing a [GridSearch] from a list of mappings succeeds when
    every further mapping has the key set of the first: the mappings are
    kept in order, and the loops of [run] go through the concatenation of
    their enumerations.  It raises [ValueError] when some mapping's key
    set differs from the first's.  The check is made by [__init__], which
    never calls the model factory or the evaluator. *)
Theorem init_requires_identical_key_sets {D : Type}
    (d : list (string * list PyVal)) (ds : list (list (string * list PyVal)))
    (num_processes : Z) (csv_results_path : option string)
    (incremental incremental_skip_existing : bool) (decider : option D)
    (model_save_directory name : option string) (now : string)
    (isdir : string → bool) :
  let construct :=
    GridSearch.init (inr (d :: ds)) num_processes csv_results_path incremental
      incremental_skip_existing decider model_save_directory name now isdir in
  (Forall (fun d' => key_set d' = key_set d) ds →
     ∃ gs, construct = Ok gs
       ∧ GridSearch.parameter_options_list gs = d :: ds
       ∧ GridSearch.param_names gs = key_set d
       ∧ ∀ body st,
           GridSearch.enumerate gs body st
           = for_each (concat (map iter_param_combinations (d :: ds))) body st)
  ∧ (Exists (fun d' => key_set d' ≠ key_set d) ds →
       construct
       = Raise (ValueError "Keys must be the same for all parameter options dictionaries")).
Proof.
  intros construct. subst construct. unfold GridSearch.init.
  cbn [mbind Result_bind tail]. fold (key_set d). split.
  - intros Hall. rewrite (check_keys_ok _ _ Hall).
    eexists. split; [reflexivity|]. cbn [GridSearch.parameter_options_list
      GridSearch.param_names]. split_and!; [done | done |].
    intros body st. unfold GridSearch.enumerate.
    cbn [GridSearch.parameter_options_list]. apply for_each_concat.
  - intros Hex. by rewrite (check_keys_raise _ _ Hex).
Qed.

Lemma init_requires_identical_key_sets_witness :
  (∃ gs : GridSearch.t (D := unit),
     GridSearch.init (inr [options_ab; options_ba]) 1 None false false None None
       (Some "gs") "20261106-120000" (fun _ => false) = Ok gs
     ∧ GridSearch.parameter_options_list gs = [options_ab; options_ba])
  ∧ GridSearch.init (D := unit) (inr [options_ab; options_ba; options_abc]) 1 None
      false false None None (Some "gs") "20261106-120000" (fun _ => false)
    = Raise (ValueError "Keys must be the same for all parameter options dictionaries").
Proof.
  split.
  - destruct (proj1 (init_requires_identical_key_sets (D := unit) options_ab
      [options_ba] 1 None false false None None (Some "gs") "20261106-120000" (fun _ => false)))
      as (gs & Hgs & Hlist & _).
    + constructor; [|constructor]. compute_done.
    + exists gs. by split.
  - apply (proj2 (init_requires_identical_key_sets (D := unit) options_ab
      [options_ba; options_abc] 1 None false false None None (Some "gs") "20261106-120000"
      (fun _ => false))).
    right. left. compute_done.
Defined.

(** ** The combination index of a grid search *)

Lemma numbered_cons {A : Type} (i : nat) (a : A) (l : list A) :
  numbered i (a :: l) = (i, a) :: numbered (S i) l.
Proof. reflexivity. Qed.

Lemma skip_existing_value_dicts {D : Type} (gs : GridSearch.t (D := D)) c c' p :
  Collection.value_dicts c = Collection.value_dicts c' →
  GridSearch.skip_existing gs c p = GridSearch.skip_existing gs c' p.
Proof.
  intros Heq. unfold GridSearch.skip_existing, Collection.contains. by rewrite Heq.
Qed.

Lemma collect_result_value_dicts values c c' :
  GridSearch.collect_result values c = Ok c' →
  Collection.value_dicts c' = Collection.value_dicts c.
Proof.
  destruct values as [values|]; simpl.
  - apply add_values_value_dicts.
  - by intros [= ->].
Qed.

Section grid_search_run_facts.
Context {Model D : Type} `{SkipDecider D}.
Context (model_factory : list (string * PyVal) → Model)
        (compute_metrics : Model → list (string * PyVal))
        (model_str : Model → string)
        (itertuples_asdict : Collection.DataFrame → list (list (string * PyVal))).
Implicit Types (gs : GridSearch.t (D := D)) (st : GridSearch.RunState (D := D)).

Lemma sequential_body_counts gs :
  counts_calls gs (GridSearch.sequential_body model_factory compute_metrics model_str gs).
Proof.
  intros st p st'. unfold GridSearch.sequential_body.
  destruct (GridSearch.skip_existing gs _ p).
  - by intros [= ->].
  - destruct (GridSearch._eval_params _ _ _ _ _ _ _ _ _) as [[values decider] files].
    destruct (GridSearch.collect_result values _) as [c|e] eqn:Hc; simpl; [|done].
    intros [= <-]. simpl. split; [|done].
    by apply collect_result_value_dicts in Hc.
Qed.

Lemma parallel_body_counts gs :
  counts_calls gs (GridSearch.parallel_body model_factory compute_metrics model_str gs).
Proof.
  intros st p st'. unfold GridSearch.parallel_body.
  destruct (GridSearch.skip_existing gs _ p).
  - by intros [= ->].
  - destruct (GridSearch._eval_params _ _ _ _ _ _ _ _ _) as [[values decider] files].
    by intros [= <-].
Qed.

Lemma for_each_counts gs body combos st st' :
  counts_calls gs body →
  for_each combos body st = Ok st' →
  let kept :=
    filter (fun p => GridSearch.skip_existing gs
                       (GridSearch.params_metrics_collection st) p = false) combos in
  Collection.value_dicts (GridSearch.params_metrics_collection st')
  = Collection.value_dicts (GridSearch.params_metrics_collection st)
  ∧ GridSearch.eval_calls st'
    = GridSearch.eval_calls st ++ numbered (GridSearch.combination_idx st) kept
  ∧ GridSearch.combination_idx st' = GridSearch.combination_idx st + length kept.
Proof.
  intros Hbody. revert st. induction combos as [|p combos IH]; intros st; simpl.
  - intros [= ->]. split_and!; [done | by rewrite app_nil_r | lia].
  - destruct (body st p) as [st1|e] eqn:Hstep; simpl; [|done].
    intros Hrest. destruct (Hbody _ _ _ Hstep) as [Hvd Hidx].
    destruct (IH _ Hrest) as (Hvd' & Hcalls & Hfinal).
    assert (Hfilter :
      filter (fun p => GridSearch.skip_existing gs
                         (GridSearch.params_metrics_collection st1) p = false) combos
      = filter (fun p => GridSearch.skip_existing gs
                         (GridSearch.params_metrics_collection st) p = false) combos).
    { apply list_filter_iff. intros q.
      by rewrite (skip_existing_value_dicts gs _ _ q Hvd). }
    rewrite Hfilter in Hcalls, Hfinal.
    rewrite filter_cons.
    destruct (GridSearch.skip_existing gs (GridSearch.params_metrics_collection st) p).
    + rewrite decide_False by done. destruct Hidx as [Hc Hi].
      rewrite Hvd', Hvd, Hcalls, Hfinal, Hc, Hi. done.
    + rewrite decide_True by done. destruct Hidx as [Hc Hi].
      rewrite Hvd', Hvd, Hcalls, Hfinal, Hc, Hi, numbered_cons.
      split_and!; [done | by rewrite <- app_assoc | simpl; lia].
Qed.

Lemma drain_body_keeps st v st' :
  GridSearch.drain_body st v = Ok st' →
  GridSearch.eval_calls st' = GridSearch.eval_calls st
  ∧ GridSearch.combination_idx st' = GridSearch.combination_idx st.
Proof.
  unfold GridSearch.drain_body.
  destruct (GridSearch.collect_result v _) as [c|e]; simpl; [|done].
  by intros [= <-].
Qed.

Lemma for_each_drain futures st st' :
  for_each futures GridSearch.drain_body st = Ok st' →
  GridSearch.eval_calls st' = GridSearch.eval_calls st
  ∧ GridSearch.combination_idx st' = GridSearch.combination_idx st.
Proof.
  revert st. induction futures as [|v futures IH]; intros st; simpl.
  - by intros [= ->].
  - destruct (GridSearch.drain_body st v) as [st1|e] eqn:Hstep; simpl; [|done].
    intros Hrest. destruct (IH _ Hrest) as [-> ->].
    by apply drain_body_keeps in Hstep.
Qed.

End grid_search_run_facts.

(** C4, the code departs from the claim: of the two combinations the
    resumed run enumerates, the first is skipped because the reloaded
    table contains it, the index does not advance, and the second is
    then evaluated under index 0 and saved as [models/gs_0.pickle],
    where the claim has index 1. *)
Lemma combination_idx_skip_existing_counterexample :
  ∃ st,
    GridSearch.run (fun p => p) sample_compute_metrics sample_model_str
      itertuples_plain sample_grid_search None true (Some sample_table) = Ok st
    ∧ enumerated_combinations (GridSearch.parameter_options_list sample_grid_search)
      = [[("a", PyInt 1); ("b", PyInt 2)]; [("a", PyInt 5); ("b", PyInt 2)]]
    ∧ GridSearch.eval_calls st = [(0, [("a", PyInt 5); ("b", PyInt 2)])]
    ∧ GridSearch.saved_models st = ["models/gs_0.pickle"]
    ∧ GridSearch.combination_idx st = 1.
Proof. eexists. split; [vm_compute; reflexivity|]. by vm_compute. Qed.

(** C4, what the departure costs: a first run over [a = 1] saves its
    model as [models/gs_0.pickle] and writes the table; the resumed run
    over [a] in [1, 5] reloads that table, passes over [a = 1] without
    advancing the index, and saves the model of [a = 5] under the same
    path [models/gs_0.pickle], so that the earlier model is overwritten
    and the table names one file for two combinations.  Had the index
    advanced for the combination passed over, as the claim says, the
    second model would be [models/gs_1.pickle]. *)
Lemma resumed_run_reuses_file_name :
  ∃ st1 d1 st2 d2,
    GridSearch.run (fun p => p) sample_compute_metrics sample_model_str
      itertuples_plain sample_grid_search_first None true None = Ok st1
    ∧ GridSearch.eval_calls st1 = [(0, [("a", PyInt 1); ("b", PyInt 2)])]
    ∧ GridSearch.saved_models st1 = ["models/gs_0.pickle"]
    ∧ Collection.get_data_frame (GridSearch.params_metrics_collection st1) = Some d1
    ∧ GridSearch.run (fun p => p) sample_compute_metrics sample_model_str
        itertuples_plain sample_grid_search None true (Some d1) = Ok st2
    ∧ GridSearch.eval_calls st2 = [(0, [("a", PyInt 5); ("b", PyInt 2)])]
    ∧ GridSearch.saved_models st2 = ["models/gs_0.pickle"]
    ∧ Collection.get_data_frame (GridSearch.params_metrics_collection st2) = Some d2
    ∧ Collection.columns d2 = ["mse"; "filename"; "str(model)"; "a"; "b"]
    ∧ Collection.rows d2
      = [(0, [PyInt 1; PyStr "gs_0.pickle"; PyStr "model"; PyInt 1; PyInt 2]);
         (1, [PyInt 5; PyStr "gs_0.pickle"; PyStr "model"; PyInt 5; PyInt 2])].
Proof.
  do 4 eexists.
  split; [vm_compute; reflexivity|]. split; [reflexivity|]. split; [reflexivity|].
  split; [reflexivity|]. split; [vm_compute; reflexivity|]. by vm_compute.
Qed.

(** C4, what the code does. In a run that completes, sequential or with
    a process pool, the combination index advances by one for every
    combination that is passed to [_eval_params], whether or not the
    skip decider then skips it; a combination skipped by the incremental
    [contains] check meets [continue] before the increment and leaves
    the index as it is, which is where the code departs from the claim.
    The calls are thus numbered consecutively from 0, and without that
    check every enumerated combination is called under its position, as
    the claim says. *)
Theorem combination_idx_counts_calls {Model D : Type} `{SkipDecider D}
    (model_factory : list (string * PyVal) → Model)
    (compute_metrics : Model → list (string * PyVal))
    (model_str : Model → string)
    (itertuples_asdict : Collection.DataFrame → list (list (string * PyVal)))
    (gs : GridSearch.t (D := D)) (sort_column_name : option string)
    (ascending : bool) (existing : option Collection.DataFrame)
    (st : GridSearch.RunState (D := D)) :
  GridSearch.run model_factory compute_metrics model_str itertuples_asdict gs
    sort_column_name ascending existing = Ok st →
  let c0 :=
    Collection.init itertuples_asdict (GridSearch.csv_results_path gs)
      sort_column_name ascending (GridSearch.incremental gs) existing in
  let combos := enumerated_combinations (GridSearch.parameter_options_list gs) in
  let kept := filter (fun p => GridSearch.skip_existing gs c0 p = false) combos in
  GridSearch.eval_calls st = numbered 0 kept
  ∧ GridSearch.combination_idx st = length kept
  ∧ (GridSearch.incremental_skip_existing gs && GridSearch.incremental gs = false →
     GridSearch.eval_calls st = numbered 0 combos).
Proof.
  intros Hrun c0 combos kept.
  assert (Hmain : GridSearch.eval_calls st = numbered 0 kept
                  ∧ GridSearch.combination_idx st = length kept).
  { unfold GridSearch.run in Hrun. fold c0 in Hrun.
    unfold GridSearch.enumerate in Hrun. rewrite !for_each_concat in Hrun.
    fold (enumerated_combinations (GridSearch.parameter_options_list gs)) in Hrun.
    fold combos in Hrun.
    destruct (bool_decide (GridSearch.num_processes gs = 1%Z)).
    - apply (for_each_counts gs) in Hrun; [|apply sequential_body_counts].
      simpl in Hrun. by destruct Hrun as (_ & -> & ->).
    - destruct (bool_decide (GridSearch.num_processes gs ≤ 0)%Z); [done|].
      destruct (for_each combos _ _) as [st1|e] eqn:Henum; simpl in Hrun; [|done].
      apply (for_each_counts gs) in Henum; [|apply parallel_body_counts].
      simpl in Henum. destruct Henum as (_ & Hcalls & Hidx).
      apply for_each_drain in Hrun as [-> ->]. by rewrite Hcalls, Hidx. }
  destruct Hmain as [Hcalls Hidx]. split_and!; [done | done |].
  intros Hoff. rewrite Hcalls. f_equal. subst kept.
  unfold GridSearch.skip_existing. rewrite Hoff. simpl.
  clear. induction combos as [|p combos IH]; [done|].
  rewrite filter_cons, decide_True by done. by f_equal.
Qed.

Lemma combination_idx_counts_calls_witness :
  ∃ st,
    GridSearch.run (fun p => p) sample_compute_metrics sample_model_str
      itertuples_plain sample_grid_search_decider None true None = Ok st
    ∧ GridSearch.eval_calls st
      = [(0, [("a", PyInt 1); ("b", PyInt 2)]); (1, [("a", PyInt 5); ("b", PyInt 2)])]
    ∧ GridSearch.saved_models st = ["models/gs_1.pickle"].
Proof.
  eexists. split; [vm_compute; reflexivity|]. split; [|reflexivity].
  refine (proj2 (proj2 (combination_idx_counts_calls (fun p => p)
    sample_compute_metrics sample_model_str itertuples_plain
    sample_grid_search_decider None true None _ _)) _); reflexivity.
Defined.

(** ** The annealing adapter *)

Section dict_reverse_facts.
Context {K V : Type} `{EqDecision K}.

Lemma dict_get_app (d1 d2 : list (K * V)) k :
  PyDict.get (d1 ++ d2) k
  = match PyDict.get d1 k with Some v => Some v | None => PyDict.get d2 k end.
Proof.
  induction d1 as [|[k' v'] d1 IH]; simpl; [done|].
  by destruct (decide (k = k')).
Qed.

Lemma dict_get_reverse_NoDup (d : list (K * V)) k :
  NoDup (PyDict.keys d) → PyDict.get (reverse d) k = PyDict.get d k.
Proof.
  induction d as [|[k' v'] d IH]; [done|].
  rewrite dict_keys_cons, NoDup_cons. intros [Hk' Hnd].
  rewrite reverse_cons, dict_get_app, IH by done. simpl.
  destruct (decide (k = k')) as [->|Hne].
  - apply dict_get_None_keys in Hk'. by rewrite Hk'.
  - by destruct (PyDict.get d k).
Qed.

Lemma dict_get_update_NoDup (d other : list (K * V)) k :
  NoDup (PyDict.keys other) →
  PyDict.get (PyDict.update d other) k
  = match PyDict.get other k with Some v => Some v | None => PyDict.get d k end.
Proof. intros Hnd. by rewrite dict_get_update, dict_get_reverse_NoDup. Qed.

End dict_reverse_facts.

Lemma parameter_names_split (params : list (string * PyVal)) engine k :
  k ∈ SAHyperOpt.parameter_names params engine
  ↔ k ∈ PyDict.keys params ∨ k ∈ SAHyperOpt.parameter_names [] engine.
Proof.
  induction engine as [|call engine IH]; simpl.
  - split; [by left | intros [?|Hk]; [done | by apply elem_of_nil in Hk]].
  - destruct call; try apply IH. rewrite !elem_of_app, IH. tauto.
Qed.

Section sa_hyper_opt_facts.
Context {Model Key : Type} `{EquivalenceClass Key}.
Context (model_factory : list (string * PyVal) → Model)
        (compute_metrics : Model → list (string * PyVal))
        (model_str : Model → string).
Implicit Types (sa : SAHyperOpt.t) (st : SAHyperOpt.Store (Key := Key)).

Lemma _eval_params_keeps st p m st' :
  SAHyperOpt._eval_params model_factory compute_metrics model_str st p = Ok (m, st') →
  SAHyperOpt.results st' = SAHyperOpt.results st
  ∧ SAHyperOpt.params st' = SAHyperOpt.params st
  ∧ SAHyperOpt.cost st' = SAHyperOpt.cost st.
Proof.
  unfold SAHyperOpt._eval_params.
  destruct (match SAHyperOpt.value_cache st with Some _ => _ | None => _ end).
  - by intros [= _ <-].
  - destruct (match SAHyperOpt.parameters_metrics_collection st with
              | Some _ => _ | None => _ end) as [c|e]; simpl; [|done].
    by intros [= _ <-].
Qed.

Lemma _compute_metric_keeps sa st p v st' :
  SAHyperOpt._compute_metric model_factory compute_metrics model_str sa st p = Ok (v, st') →
  SAHyperOpt.results st' = SAHyperOpt.results st
  ∧ SAHyperOpt.params st' = SAHyperOpt.params st
  ∧ SAHyperOpt.cost st' = SAHyperOpt.cost st.
Proof.
  unfold SAHyperOpt._compute_metric.
  destruct (SAHyperOpt._eval_params _ _ _ st p) as [[m st1]|e] eqn:He; simpl; [|done].
  apply _eval_params_keeps in He.
  destruct (PyDict.get m _) as [mv|]; simpl; [|done].
  destruct (negb _); simpl.
  - destruct (py_neg mv); simpl; [|done]. by intros [= _ <-].
  - by intros [= _ <-].
Qed.

Lemma cost_delta_keeps sa st p v st' :
  SAHyperOpt.cost_delta model_factory compute_metrics model_str sa st p = Ok (v, st') →
  SAHyperOpt.results st' = SAHyperOpt.results st
  ∧ SAHyperOpt.params st' = SAHyperOpt.params st.
Proof.
  unfold SAHyperOpt.cost_delta.
  destruct (SAHyperOpt._compute_metric _ _ _ sa st _) as [[m st1]|e] eqn:He; simpl; [|done].
  apply _compute_metric_keeps in He as (? & ? & ?).
  destruct (SAHyperOpt.cost st1) as [c|]; simpl; [|done].
  destruct (py_sub m c); simpl; [|done]. by intros [= _ <-].
Qed.

(** One call of the engine: the sink changes only when a representation
    is applied, the parameters only when a change is applied. *)
Lemma engine_step_effect sa st call st' :
  SAHyperOpt.engine_step model_factory compute_metrics model_str sa st call = Ok st' →
  match call with
  | SAHyperOpt.CallApplyStateChange p =>
      SAHyperOpt.results st' = SAHyperOpt.results st
      ∧ SAHyperOpt.params st' = PyDict.update (SAHyperOpt.params st) p
  | SAHyperOpt.CallApplyStateRepresentation r =>
      SAHyperOpt.results st' = PyDict.update (SAHyperOpt.results st) r
      ∧ SAHyperOpt.params st' = SAHyperOpt.params st
  | _ =>
      SAHyperOpt.results st' = SAHyperOpt.results st
      ∧ SAHyperOpt.params st' = SAHyperOpt.params st
  end.
Proof.
  destruct call as [|c|p|p|r]; simpl.
  - unfold SAHyperOpt.compute_cost_value.
    destruct (SAHyperOpt._compute_metric _ _ _ sa st _) as [[v st1]|e] eqn:He; simpl; [|done].
    intros [= <-]. by apply _compute_metric_keeps in He as (? & ? & ?).
  - by intros [= <-].
  - destruct (SAHyperOpt.cost_delta _ _ _ sa st p) as [[v st1]|e] eqn:He; simpl; [|done].
    intros [= <-]. by apply cost_delta_keeps in He.
  - by intros [= <-].
  - by intros [= <-].
Qed.

(** The keys of the sink stay within any set of names that holds the keys
    of the sink and of the parameters at the start and the keys of every
    change applied later. *)
Lemma engine_results_keys sa (N : string → Prop) engine st st' seen :
  for_each engine (SAHyperOpt.engine_step model_factory compute_metrics model_str sa) st
    = Ok st' →
  SAHyperOpt.applies_representations seen (SAHyperOpt.params st) engine = true →
  (∀ r k, r ∈ SAHyperOpt.params st :: seen → k ∈ PyDict.keys r → N k) →
  (∀ k, k ∈ PyDict.keys (SAHyperOpt.results st) → N k) →
  (∀ k, k ∈ SAHyperOpt.parameter_names [] engine → N k) →
  ∀ k, k ∈ PyDict.keys (SAHyperOpt.results st') → N k.
Proof.
  revert st seen. induction engine as [|call engine IH]; intros st seen; simpl.
  - by intros [= ->].
  - destruct (SAHyperOpt.engine_step _ _ _ sa st call) as [st1|e] eqn:Hstep;
      simpl; [|done].
    intros Hrest Happ Hseen Hres Hnames.
    apply engine_step_effect in Hstep.
    destruct call as [|c|p|p|r]; destruct Hstep as [Hr Hp].
    + apply (IH st1 seen Hrest); rewrite ?Hp, ?Hr; done.
    + apply (IH st1 seen Hrest); rewrite ?Hp, ?Hr; done.
    + apply (IH st1 seen Hrest); rewrite ?Hp, ?Hr; done.
    + apply (IH st1 (SAHyperOpt.params st :: seen) Hrest); rewrite ?Hp, ?Hr.
      * done.
      * intros r k Hin Hk. apply elem_of_cons in Hin as [->|Hin].
        -- apply dict_keys_update_elem in Hk as [Hk|Hk].
           ++ apply (Hseen (SAHyperOpt.params st)); [by left | done].
           ++ apply Hnames. apply elem_of_app. by left.
        -- by apply (Hseen r).
      * done.
      * intros k Hk. apply Hnames. apply elem_of_app. by right.
    + apply andb_prop in Happ as [Hin Happ]. apply bool_decide_eq_true in Hin.
      apply (IH st1 seen Hrest); rewrite ?Hp, ?Hr; [done | done | | done].
      intros k Hk. apply dict_keys_update_elem in Hk as [Hk|Hk]; [by apply Hres|].
      by apply (Hseen r).
Qed.

End sa_hyper_opt_facts.

(** C3, the claim as stated fails: after the sample run the sink holds
    the parameters of the applied state and nothing under the metric
    name ["mse"], although the evaluator reports that metric for the
    final state. *)
Lemma results_lack_metrics_counterexample :
  ∃ st,
    SAHyperOpt.run (fun p => p) sample_compute_metrics sample_model_str
      sample_annealing None (Some ValueCache.init) sample_engine = Ok st
    ∧ SAHyperOpt.params st = [("a", PyInt 0); ("b", PyInt 2)]
    ∧ sample_compute_metrics (SAHyperOpt.params st) = [("mse", PyInt 0)]
    ∧ SAHyperOpt.results st = [("a", PyInt 0); ("b", PyInt 2)]
    ∧ PyDict.get (SAHyperOpt.results st) "mse" = None.
Proof. eexists. split; [vm_compute; reflexivity|]. by vm_compute. Qed.

(** C3, amended. [apply_state_representation] merges the representation
    it is given into the shared sink, later merges overwriting earlier
    values under shared keys, and the representation of a state is its
    parameter combination.  So after a completed run the sink returned
    by [run] holds the entries of the representation applied last, and
    when the engine applies only representations it got from the state,
    every key of the sink is a parameter name, of the initial
    combination or of an applied change: the evaluator's metrics are not
    merged into it. *)
Theorem results_hold_applied_parameters {Model Key : Type} `{EquivalenceClass Key}
    (model_factory : list (string * PyVal) → Model)
    (compute_metrics : Model → list (string * PyVal))
    (model_str : Model → string)
    (sa : SAHyperOpt.t) (c : option Collection.t)
    (vc : option (ValueCache.t Key (list (string * PyVal))))
    (engine : list SAHyperOpt.EngineCall) (st : SAHyperOpt.Store (Key := Key)) :
  SAHyperOpt.run model_factory compute_metrics model_str sa c vc engine = Ok st →
  SAHyperOpt.applies_representations [] (SAHyperOpt.initial_parameters sa) engine = true →
  (∀ k, k ∈ PyDict.keys (SAHyperOpt.results st) →
        k ∈ SAHyperOpt.parameter_names (SAHyperOpt.initial_parameters sa) engine)
  ∧ (∀ engine' r, engine = engine' ++ [SAHyperOpt.CallApplyStateRepresentation r] →
       NoDup (PyDict.keys r) →
       ∀ k v, PyDict.get r k = Some v → PyDict.get (SAHyperOpt.results st) k = Some v)
  ∧ (∀ (st0 : SAHyperOpt.Store (Key := Key)) r k, NoDup (PyDict.keys r) →
       PyDict.get (SAHyperOpt.results (SAHyperOpt.apply_state_representation st0 r)) k
       = match PyDict.get r k with
         | Some v => Some v
         | None => PyDict.get (SAHyperOpt.results st0) k
         end)
  ∧ (∀ st0 : SAHyperOpt.Store (Key := Key),
       SAHyperOpt.get_state_representation st0 = SAHyperOpt.params st0).
Proof.
  intros Hrun Happ. unfold SAHyperOpt.run in Hrun. split_and!.
  - apply (engine_results_keys _ _ _ sa
             (fun k => k ∈ SAHyperOpt.parameter_names (SAHyperOpt.initial_parameters sa) engine)
             _ _ _ [] Hrun Happ).
    + intros r k Hr Hk. apply list_elem_of_singleton in Hr as ->.
      apply parameter_names_split. by left.
    + intros k Hk. by apply elem_of_nil in Hk.
    + intros k Hk. apply parameter_names_split. by right.
  - intros engine' r -> Hnd k v Hget. rewrite for_each_app in Hrun.
    destruct (for_each engine' _ _) as [st1|e]; simpl in Hrun; [|done].
    injection Hrun as <-. simpl. by rewrite dict_get_update_NoDup, Hget.
  - intros st0 r k Hnd. simpl. by apply dict_get_update_NoDup.
  - done.
Qed.

Lemma results_hold_applied_parameters_witness :
  ∃ st,
    SAHyperOpt.run (fun p => p) sample_compute_metrics sample_model_str
      sample_annealing None (Some ValueCache.init) sample_engine = Ok st
    ∧ PyDict.get (SAHyperOpt.results st) "a" = Some (PyInt 0)
    ∧ ("mse" ∈ PyDict.keys (SAHyperOpt.results st) → "mse" ∈ ["a"; "a"; "b"]).
Proof.
  eexists. split; [vm_compute; reflexivity|].
  pose proof (results_hold_applied_parameters (fun p => p) sample_compute_metrics
    sample_model_str sample_annealing None (Some ValueCache.init) sample_engine _
    eq_refl eq_refl) as (Hkeys & Hlast & _).
  split.
  - apply (Hlast (take 6 sample_engine) [("a", PyInt 0); ("b", PyInt 2)]);
      [reflexivity | compute_done | reflexivity].
  - apply Hkeys.
Defined.

(** ** Products of option generators *)

Section product_facts.
Context {A : Type}.
Implicit Types (l r1s : list (list A)) (g inner : Options.Gen (list A)).

Lemma gen_eq {B : Type} (g1 g2 : Options.Gen B) :
  Options.yielded g1 = Options.yielded g2 →
  Options.raised g1 = Options.raised g2 → g1 = g2.
Proof. destruct g1, g2. simpl. by intros -> ->. Qed.

(** Without an exception in the inner enumeration the loops run to the
    end: one block per outer item. *)
Lemma product_loop_complete r1s raised1 inner :
  Options.raised inner = None →
  Options.product_loop r1s raised1 inner
  = {| Options.yielded :=
         flat_map (fun r1 => map (fun r2 => r1 ++ r2) (Options.yielded inner)) r1s;
       Options.raised := raised1 |}.
Proof.
  intros Hin. induction r1s as [|r1 r1s IH]; simpl; [done|].
  by rewrite Hin, IH.
Qed.

Lemma product_loop_raised_outer r1s e inner :
  is_Some (Options.raised (Options.product_loop r1s (Some e) inner)).
Proof.
  induction r1s as [|r1 r1s IH]; simpl; [by eexists|].
  destruct (Options.raised inner); simpl; [by eexists | done].
Qed.

(** Prefixing every outer item with [x] prefixes every yielded item. *)
Lemma product_loop_prefix (x : list A) r1s raised1 inner :
  Options.product_loop (map (app x) r1s) raised1 inner
  = {| Options.yielded :=
         map (app x) (Options.yielded (Options.product_loop r1s raised1 inner));
       Options.raised := Options.raised (Options.product_loop r1s raised1 inner) |}.
Proof.
  induction r1s as [|r1 r1s IH]; simpl; [done|].
  assert (Hblock : map (fun r2 => (x ++ r1) ++ r2) (Options.yielded inner)
                   = map (app x) (map (fun r2 => r1 ++ r2) (Options.yielded inner))).
  { rewrite map_map. apply map_ext. intros r2. by rewrite <- app_assoc. }
  destruct (Options.raised inner); simpl.
  - by rewrite Hblock.
  - by rewrite IH, Hblock, map_app.
Qed.

(** The loop over a concatenation: the second part is reached only if the
    first part ends without an exception. *)
Lemma product_loop_app l1 l2 raised1 inner :
  Options.product_loop (l1 ++ l2) raised1 inner
  = let first := Options.product_loop l1 None inner in
    match Options.raised first with
    | Some e => first
    | None =>
        let second := Options.product_loop l2 raised1 inner in
        {| Options.yielded := Options.yielded first ++ Options.yielded second;
           Options.raised := Options.raised second |}
    end.
Proof.
  induction l1 as [|r1 l1 IH]; simpl.
  - by destruct (Options.product_loop l2 raised1 inner).
  - destruct (Options.raised inner) eqn:Hin; simpl; [done|].
    rewrite IH. simpl.
    destruct (Options.raised (Options.product_loop l1 None inner)) eqn:Hfirst; simpl.
    + by rewrite Hfirst.
    + by rewrite app_assoc.
Qed.

Lemma product_loop_assoc xs ra (b c : Options.Gen (list A)) :
  Options.product_loop (Options.yielded (Options.product_loop xs ra b))
    (Options.raised (Options.product_loop xs ra b)) c
  = Options.product_loop xs ra (Options.product b c).
Proof.
  induction xs as [|x xs IH]; simpl; [done|].
  destruct (Options.raised b) as [e|] eqn:Hb; simpl.
  - rewrite product_loop_prefix. unfold Options.product. rewrite Hb.
    destruct (product_loop_raised_outer (Options.yielded b) e c) as [e' He'].
    by rewrite He'.
  - rewrite product_loop_app, product_loop_prefix. simpl.
    unfold Options.product. rewrite Hb.
    destruct (Options.raised (Options.product_loop (Options.yielded b) None c))
      eqn:Hbc; simpl.
    + done.
    + unfold Options.product in IH. rewrite Hb in IH. by rewrite IH.
Qed.

Lemma product_assoc (a b c : Options.Gen (list A)) :
  Options.product (Options.product a b) c = Options.product a (Options.product b c).
Proof. unfold Options.product at 1 2 3. apply product_loop_assoc. Qed.

End product_facts.

(** C6. When the enumerations of [G1] and [G2] complete, the product
    yields one concatenation [r1 + r2] for every [r1] of [G1] (outer
    loop) and every [r2] of [G2] (inner loop), so [|G1| * |G2|]
    combinations, and completes; and the two ways of bracketing a product
    of three generators enumerate the same sequence, hence the same
    multiset, of concatenations. *)
Theorem product_counts_and_associates {TKey TValue : Type}
    (G1 G2 : Options.OptionsGenerator TKey TValue) :
  (Options.raised (Options.iter_options G1) = None →
   Options.raised (Options.iter_options G2) = None →
   Options.iter_options (Options.OptionsProduct G1 G2)
   = Options.gen_of_list
       (flat_map (fun r1 => map (fun r2 => r1 ++ r2)
                              (Options.yielded (Options.iter_options G2)))
          (Options.yielded (Options.iter_options G1)))
   ∧ length (Options.yielded (Options.iter_options (Options.OptionsProduct G1 G2)))
     = length (Options.yielded (Options.iter_options G1))
       * length (Options.yielded (Options.iter_options G2)))
  ∧ (∀ A B C : Options.OptionsGenerator TKey TValue,
       Options.iter_options (Options.OptionsProduct (Options.OptionsProduct A B) C)
       = Options.iter_options (Options.OptionsProduct A (Options.OptionsProduct B C))
       ∧ Options.yielded
           (Options.iter_options (Options.OptionsProduct (Options.OptionsProduct A B) C))
         ≡ₚ Options.yielded
              (Options.iter_options (Options.OptionsProduct A (Options.OptionsProduct B C)))).
Proof.
  split.
  - intros H1 H2. simpl. unfold Options.product.
    rewrite product_loop_complete, H1 by done. split; [done|]. simpl.
    induction (Options.yielded (Options.iter_options G1)) as [|r1 l IH]; simpl; [done|].
    by rewrite length_app, length_map, IH.
  - intros A B C. simpl. by rewrite product_assoc.
Qed.

Lemma product_counts_and_associates_witness :
  length (Options.yielded
            (Options.iter_options (Options.OptionsProduct one_of_ab zero_or_one_of_cd)))
  = 6.
Proof.
  rewrite (proj2 (proj1 (product_counts_and_associates one_of_ab zero_or_one_of_cd)
                    eq_refl eq_refl)).
  reflexivity.
Defined.

(** ** Combinations *)

Lemma binom_0_r n : binom n 0 = 1.
Proof. by destruct n. Qed.

Lemma binom_gt n k : n < k → binom n k = 0.
Proof.
  revert k. induction n as [|n IH]; intros [|k] Hlt; simpl; try lia.
  rewrite !IH by lia. done.
Qed.

Lemma binom_diag n : binom n n = 1.
Proof.
  induction n as [|n IH]; simpl; [done|]. rewrite IH, binom_gt by lia. done.
Qed.

(** [binom] is the binomial coefficient: [n! / (k! (n-k)!)]. *)
Lemma binom_fact n k : k ≤ n → binom n k * fact k * fact (n - k) = fact n.
Proof.
  revert k. induction n as [|n IH]; intros [|k] Hle; simpl binom.
  - done.
  - lia.
  - rewrite Nat.sub_0_r. simpl fact at 1. lia.
  - destruct (decide (k = n)) as [->|Hne].
    + rewrite binom_diag, binom_gt by lia. rewrite Nat.sub_diag. simpl. lia.
    + pose proof (IH k ltac:(lia)) as IH1. pose proof (IH (S k) ltac:(lia)) as IH2.
      replace (n - k) with (S (n - S k)) in IH1 by lia.
      replace (S n - S k) with (S (n - S k)) by lia.
      change (fact (S n)) with (S n * fact n).
      change (fact (S k)) with (S k * fact k) in *.
      change (fact (S (n - S k))) with (S (n - S k) * fact (n - S k)) in *.
      nia.
Qed.

Section combinations_facts.
Context {A : Type}.
Implicit Types (l c : list A) (r : nat).

Lemma elem_of_flat_map {B C : Type} (f : B → list C) (bs : list B) (x : C) :
  x ∈ flat_map f bs ↔ ∃ b, b ∈ bs ∧ x ∈ f b.
Proof.
  rewrite list_elem_of_In, in_flat_map. split.
  - intros (b & Hb & Hx). exists b. by rewrite !list_elem_of_In.
  - intros (b & Hb & Hx). exists b. by rewrite <- !list_elem_of_In.
Qed.

Lemma length_flat_map_sum {B C : Type} (f : B → list C) (bs : list B) :
  length (flat_map f bs) = sum_list ((fun b => length (f b)) <$> bs).
Proof.
  induction bs as [|b bs IH]; simpl; [done|]. by rewrite length_app, IH.
Qed.

Lemma combinations_length l r : length (combinations l r) = binom (length l) r.
Proof.
  revert r. induction l as [|x l IH]; intros [|r]; simpl; try done.
  by rewrite length_app, length_map, !IH.
Qed.

Lemma combinations_sound l r c :
  c ∈ combinations l r → c `sublist_of` l ∧ length c = r.
Proof.
  revert r c. induction l as [|x l IH]; intros [|r] c; simpl.
  - intros ->%list_elem_of_singleton. split; [apply sublist_nil | done].
  - intros Hc. by apply elem_of_nil in Hc.
  - intros ->%list_elem_of_singleton. split; [apply sublist_nil_l | done].
  - rewrite elem_of_app. intros [Hc|Hc].
    + apply list_elem_of_fmap in Hc as (c' & -> & Hc').
      destruct (IH _ _ Hc') as [Hsub Hlen]. split; [by apply sublist_skip|].
      simpl. by rewrite Hlen.
    + destruct (IH _ _ Hc) as [Hsub Hlen]. split; [by apply sublist_cons | done].
Qed.

Lemma combinations_complete l c :
  c `sublist_of` l → c ∈ combinations l (length c).
Proof.
  induction 1 as [|x c l Hsub IH|x c l Hsub IH]; simpl.
  - by apply list_elem_of_singleton.
  - apply elem_of_app. left. apply list_elem_of_fmap. by exists c.
  - destruct c as [|y c]; simpl in *.
    + by apply list_elem_of_singleton.
    + apply elem_of_app. by right.
Qed.

Lemma combinations_elem l r c :
  c ∈ combinations l r ↔ c `sublist_of` l ∧ length c = r.
Proof.
  split; [apply combinations_sound|]. intros [Hsub <-]. by apply combinations_complete.
Qed.

Lemma sublist_elem_of c l (x : A) : c `sublist_of` l → x ∈ c → x ∈ l.
Proof.
  induction 1 as [|y c l _ IH|y c l _ IH]; intros Hx.
  - done.
  - apply elem_of_cons in Hx as [->|Hx]; apply elem_of_cons; [by left | right; auto].
  - apply elem_of_cons. right. auto.
Qed.

Lemma combinations_NoDup l r : NoDup l → NoDup (combinations l r).
Proof.
  revert r. induction l as [|x l IH]; intros [|r] Hnd; simpl.
  - apply NoDup_singleton.
  - apply NoDup_nil_2.
  - apply NoDup_singleton.
  - apply NoDup_cons in Hnd as [Hx Hnd]. apply NoDup_app. split_and!.
    + apply NoDup_fmap_2; [|by apply IH]. by intros c1 c2 [= ->].
    + intros c Hc Hc'. apply list_elem_of_fmap in Hc as (c' & -> & _).
      apply combinations_sound in Hc' as [Hsub _].
      apply Hx. apply (sublist_elem_of _ _ _ Hsub). by left.
    + by apply IH.
Qed.

(** The combinations of the sizes [a], [a+1], ..., one size after the
    other. *)
Lemma sizes_elem l a len c :
  c ∈ flat_map (combinations l) (seq a len)
  ↔ c `sublist_of` l ∧ a ≤ length c < a + len.
Proof.
  rewrite elem_of_flat_map. split.
  - intros (n & Hn & Hc). apply elem_of_seq in Hn.
    apply combinations_sound in Hc as [Hsub <-]. done.
  - intros [Hsub Hlen]. exists (length c). split.
    + apply elem_of_seq. lia.
    + by apply combinations_complete.
Qed.

Lemma sizes_length l a len :
  length (flat_map (combinations l) (seq a len))
  = sum_list (binom (length l) <$> seq a len).
Proof.
  rewrite length_flat_map_sum. f_equal. apply list_fmap_ext.
  intros _ n _. apply combinations_length.
Qed.

Lemma sizes_NoDup l a len :
  NoDup l → NoDup (flat_map (combinations l) (seq a len)).
Proof.
  intros Hnd. revert a. induction len as [|len IH]; intros a; simpl.
  - apply NoDup_nil_2.
  - apply NoDup_app. split_and!.
    + by apply combinations_NoDup.
    + intros c Hc Hc'. apply combinations_sound in Hc as [_ Hlen].
      apply sizes_elem in Hc' as [_ Hlen']. lia.
    + apply IH.
Qed.

Lemma sizes_sorted l a len :
  StronglySorted le (length <$> flat_map (combinations l) (seq a len)).
Proof.
  revert a. induction len as [|len IH]; intros a; simpl.
  - constructor.
  - rewrite fmap_app. apply StronglySorted_app_2.
    + intros n1 n2 Hn1 Hn2.
      apply list_elem_of_fmap in Hn1 as (c1 & -> & Hc1).
      apply list_elem_of_fmap in Hn2 as (c2 & -> & Hc2).
      apply combinations_sound in Hc1 as [_ Hlen].
      apply sizes_elem in Hc2 as [_ Hlen']. lia.
    + assert (Hall : Forall (fun n => n = a) (length <$> combinations l a)).
      { apply Forall_fmap, Forall_forall. intros c Hc.
        by apply combinations_sound in Hc as [_ Hlen]. }
      induction Hall as [|n ns -> Hns IHns]; constructor; [done|].
      eapply Forall_impl; [exact Hns|]. simpl. lia.
    + apply IH.
Qed.

End combinations_facts.

Lemma sum_list_snoc (l : list nat) (n : nat) : sum_list (l ++ [n]) = sum_list l + n.
Proof. induction l as [|m l IH]; simpl; lia. Qed.

Lemma sum_list_seq_S (f : nat → nat) m :
  sum_list (f <$> seq 0 (S m)) = sum_list (f <$> seq 0 m) + f m.
Proof. rewrite seq_S, fmap_app. apply sum_list_snoc. Qed.

Lemma binom_pascal_sum n m :
  sum_list (binom (S n) <$> seq 0 (S m))
  = sum_list (binom n <$> seq 0 m) + sum_list (binom n <$> seq 0 (S m)).
Proof.
  induction m as [|m IH].
  - simpl. rewrite !binom_0_r. lia.
  - rewrite (sum_list_seq_S _ (S m)), IH, !(sum_list_seq_S (binom n)).
    simpl binom. lia.
Qed.

Lemma binom_row_sum n : sum_list (binom n <$> seq 0 (S n)) = 2 ^ n.
Proof.
  induction n as [|n IH]; [done|].
  rewrite binom_pascal_sum, (sum_list_seq_S _ (S n)), IH, binom_gt by lia.
  simpl. lia.
Qed.

Lemma iter_subsets_length {A : Type} (s : list A) :
  length (iter_subsets s) = 2 ^ length s.
Proof.
  unfold iter_subsets. rewrite sizes_length, Nat.add_1_r. apply binom_row_sum.
Qed.

(** ** Option generators backed by a collection *)

Lemma range_nonneg a b : (0 ≤ a)%Z → Forall (fun n => (0 ≤ n)%Z) (Options.range a b).
Proof.
  intros Ha. unfold Options.range, seqZ. apply Forall_fmap, Forall_forall.
  intros i _. simpl. lia.
Qed.

Lemma range_to_nat a b :
  (0 ≤ a)%Z → Z.to_nat <$> Options.range a b = seq (Z.to_nat a) (Z.to_nat (b - a)).
Proof.
  intros Ha. unfold Options.range, seqZ. rewrite <- list_fmap_compose.
  rewrite <- (Nat.add_0_r (Z.to_nat a)) at 1. rewrite <- fmap_add_seq.
  apply list_fmap_ext. intros _ i _. simpl. lia.
Qed.

Section options_facts.
Context {TKey TValue : Type} `{EqDecision TKey}.
Implicit Types (o : list TKey + list (TKey * TValue))
  (options : list (TKey * Options.Option TKey TValue)).

Lemma flat_map_fmap {B C D : Type} (f : C → list D) (g : B → C) (bs : list B) :
  flat_map (fun b => f (g b)) bs = flat_map f (g <$> bs).
Proof. induction bs as [|b bs IH]; simpl; [done|]. by rewrite IH. Qed.

Lemma min_max_loop_nonneg {A : Type} (opts : list A) ns :
  Forall (fun n => (0 ≤ n)%Z) ns →
  Options.min_max_loop opts ns
  = Options.gen_of_list (flat_map (combinations opts) (Z.to_nat <$> ns)).
Proof.
  induction 1 as [|n ns Hn _ IH]; simpl; [done|].
  unfold itertools_combinations. rewrite bool_decide_false by lia.
  by rewrite IH.
Qed.

Lemma min_max_loop_sublist {A : Type} (opts : list A) ns c :
  c ∈ Options.yielded (Options.min_max_loop opts ns) → c `sublist_of` opts.
Proof.
  induction ns as [|n ns IH]; simpl.
  - intros Hc. by apply elem_of_nil in Hc.
  - unfold itertools_combinations. destruct (bool_decide (n < 0)%Z); simpl.
    + intros Hc. by apply elem_of_nil in Hc.
    + rewrite elem_of_app. intros [Hc|Hc]; [|by apply IH].
      by apply combinations_sound in Hc as [? _].
Qed.

Lemma dict_set_keyed k v options :
  Options.key v = k → Forall keyed options → Forall keyed (PyDict.set k v options).
Proof.
  intros Hv. induction 1 as [|[k' v'] d Hkv Hd IH]; simpl.
  - by repeat constructor.
  - destruct (decide (k = k')) as [<-|Hne]; by constructor.
Qed.

Lemma of_items_keyed (items : list (TKey * Options.Option TKey TValue)) :
  Forall keyed items → Forall keyed (PyDict.of_items items).
Proof.
  unfold PyDict.of_items, PyDict.update.
  assert (Hnil : Forall keyed (@nil (TKey * Options.Option TKey TValue))) by constructor.
  revert Hnil. generalize (@nil (TKey * Options.Option TKey TValue)) as d.
  induction items as [|[k v] items IH]; intros d Hd Hitems; simpl; [done|].
  apply Forall_cons in Hitems as [Hkv Hitems].
  apply IH; [|done]. by apply dict_set_keyed.
Qed.

Lemma init_keyed o : Forall keyed (Options.OptionsGeneratorBase_init o).
Proof.
  destruct o as [ks|d]; simpl; apply of_items_keyed, Forall_fmap, Forall_forall; done.
Qed.

Lemma of_items_NoDup {V : Type} (items : list (TKey * V)) :
  NoDup (PyDict.keys (PyDict.of_items items)).
Proof. apply dict_NoDup_keys_update. apply NoDup_nil_2. Qed.

Lemma of_items_keys_elem {V : Type} (items : list (TKey * V)) k :
  k ∈ PyDict.keys (PyDict.of_items items) ↔ k ∈ items.*1.
Proof.
  unfold PyDict.of_items. rewrite dict_keys_update_elem. split; [|by right].
  intros [Hk|Hk]; [by apply elem_of_nil in Hk | done].
Qed.

Lemma of_items_length {V : Type} (items : list (TKey * V)) :
  length (PyDict.of_items items) = length (remove_dups items.*1).
Proof.
  rewrite <- (length_fmap fst (PyDict.of_items items)).
  apply Permutation_length, NoDup_Permutation.
  - apply of_items_NoDup.
  - apply NoDup_remove_dups.
  - intros k. rewrite elem_of_remove_dups. apply of_items_keys_elem.
Qed.

Lemma of_items_get {V : Type} (items : list (TKey * V)) k :
  PyDict.get (PyDict.of_items items) k = PyDict.get (reverse items) k.
Proof.
  unfold PyDict.of_items. rewrite dict_get_update. simpl.
  by destruct (PyDict.get (reverse items) k).
Qed.

(** The keys stand in the order of their first occurrences. *)
Lemma of_items_keys_order {V : Type} (items : list (TKey * V)) :
  PyDict.keys (PyDict.of_items items) = reverse (remove_dups (reverse items.*1)).
Proof.
  induction items as [|[k v] items IH] using rev_ind; [done|].
  pose proof (of_items_keys_elem items k) as Hk.
  unfold PyDict.of_items, PyDict.update in *.
  rewrite fold_left_app, fmap_app, reverse_app. simpl.
  destruct (decide_rel elem_of k (reverse items.*1)) as [Hin|Hnin];
    rewrite elem_of_reverse in *.
  - rewrite dict_keys_set_in by by apply Hk. exact IH.
  - rewrite dict_keys_set_notin by (intros ?; by apply Hnin, Hk).
    by rewrite reverse_cons, IH.
Qed.

Lemma keyed_values options :
  Forall keyed options → Options.key <$> PyDict.values options = PyDict.keys options.
Proof.
  unfold PyDict.values, PyDict.keys. induction 1 as [|[k v] d Hkv _ IH]; [done|].
  rewrite !fmap_cons. f_equal; [exact Hkv | exact IH].
Qed.

Lemma sublist_keys_NoDup options (c : list (Options.Option TKey TValue)) :
  Forall keyed options → NoDup (PyDict.keys options) →
  c `sublist_of` PyDict.values options → NoDup (Options.key <$> c).
Proof.
  intros Hkeyed Hnd Hsub.
  apply (sublist_NoDup _ (Options.key <$> PyDict.values options)).
  - by rewrite keyed_values.
  - by apply fmap_sublist.
Qed.

End options_facts.

Section min_max_facts.
Context {TKey TValue : Type} `{EqDecision TKey}.
Implicit Types (o : list TKey + list (TKey * TValue)).

Lemma init_NoDup_keys o : NoDup (PyDict.keys (Options.OptionsGeneratorBase_init o)).
Proof. destruct o; apply of_items_NoDup. Qed.

Lemma init_NoDup_values o : NoDup (PyDict.values (Options.OptionsGeneratorBase_init o)).
Proof.
  apply (NoDup_fmap_1 Options.key). rewrite keyed_values by apply init_keyed.
  apply init_NoDup_keys.
Qed.

Lemma init_length o :
  length (Options.OptionsGeneratorBase_init o)
  = length (remove_dups match o with inl ks => ks | inr d => PyDict.keys d end).
Proof.
  destruct o as [ks|d]; simpl; rewrite of_items_length; f_equal; f_equal.
  - rewrite <- list_fmap_compose. apply list_fmap_id.
  - unfold PyDict.keys. rewrite <- list_fmap_compose. done.
Qed.

(** For sizes from a non-negative [n_min] the enumeration completes and
    goes through the combinations of each size in turn. *)
Lemma min_max_yielded (opts : list (Options.Option TKey TValue)) n_min n_max :
  (0 ≤ n_min)%Z →
  Options.min_max_loop opts (Options.range n_min (n_max + 1))
  = Options.gen_of_list
      (flat_map (combinations opts)
         (seq (Z.to_nat n_min) (Z.to_nat (n_max + 1 - n_min)))).
Proof.
  intros Hmin. rewrite min_max_loop_nonneg by by apply range_nonneg.
  by rewrite range_to_nat.
Qed.

Lemma spec_min_max_count_nonneg n n_min n_max :
  (0 ≤ n_min)%Z →
  spec_min_max_count n n_min n_max
  = sum_list (binom n <$> seq (Z.to_nat n_min) (Z.to_nat (n_max + 1 - n_min))).
Proof.
  intros Hmin. unfold spec_min_max_count.
  rewrite <- range_to_nat, <- list_fmap_compose by done. f_equal.
  apply Forall_fmap_ext_1. eapply Forall_impl; [by apply (range_nonneg n_min)|].
  intros k Hk. simpl in *. unfold binomZ. by rewrite bool_decide_false by lia.
Qed.

End min_max_facts.

(** The enumeration of [OptionsMinMaxOf] for a non-negative [n_min]. *)
Lemma min_max_enumeration {TKey TValue : Type} `{EqDecision TKey}
    (o : list TKey + list (TKey * TValue)) (n_min n_max : Z) :
  (0 ≤ n_min)%Z →
  let options := Options.OptionsGeneratorBase_init o in
  let g := Options.iter_options (Options.MinMaxOf o n_min n_max) in
  Options.raised g = None
  ∧ length (Options.yielded g) = spec_min_max_count (length options) n_min n_max
  ∧ NoDup (Options.yielded g)
  ∧ StronglySorted le (length <$> Options.yielded g)
  ∧ (∀ c, c ∈ Options.yielded g
          ↔ c `sublist_of` PyDict.values options
            ∧ (n_min ≤ Z.of_nat (length c) ≤ n_max)%Z).
Proof.
  intros Hmin options g. subst g. unfold Options.MinMaxOf. simpl.
  fold options. rewrite min_max_yielded by done. simpl. split_and!.
  - done.
  - rewrite sizes_length, spec_min_max_count_nonneg by done.
    unfold PyDict.values. by rewrite length_fmap.
  - apply sizes_NoDup, init_NoDup_values.
  - apply sizes_sorted.
  - intros c. rewrite sizes_elem. split; intros [Hsub Hlen]; (split; [done | lia]).
Qed.

(** C5, the claim as stated fails: with [n_min = -1 <= n_max = 1 <= 2]
    options the sum of the binomial coefficients is 3, but the
    enumeration raises [ValueError] before it yields anything. *)
Lemma min_max_of_negative_counterexample :
  let g := Options.iter_options
             (Options.MinMaxOf (TValue := nat) (inl ["a"; "b"]) (-1) 1) in
  (-1 ≤ 1 ≤ Z.of_nat (length (Options.OptionsGeneratorBase_init
                                 (TValue := nat) (inl ["a"; "b"]))))%Z
  ∧ spec_min_max_count 2 (-1) 1 = 3
  ∧ Options.yielded g = []
  ∧ Options.raised g = Some (ValueError "r must be non-negative").
Proof. by vm_compute. Qed.

(** C5, amended. For every option collection and [0 <= n_min],
    [OptionsMinMaxOf] completes and yields exactly the sum over [n] from
    [n_min] to [n_max] of [C(|options|, n)] combinations, all distinct,
    ordered by increasing size; the combinations are the sublists of the
    options, in their input order, whose size lies between [n_min] and
    [n_max].  ([n_min <= n_max <= |options|] is not needed.) *)
Theorem min_max_of_enumerates {TKey TValue : Type} `{EqDecision TKey}
    (o : list TKey + list (TKey * TValue)) (n_min n_max : Z) :
  (0 ≤ n_min)%Z →
  let options := Options.OptionsGeneratorBase_init o in
  let g := Options.iter_options (Options.MinMaxOf o n_min n_max) in
  Options.raised g = None
  ∧ length (Options.yielded g) = spec_min_max_count (length options) n_min n_max
  ∧ NoDup (Options.yielded g)
  ∧ StronglySorted le (length <$> Options.yielded g)
  ∧ (∀ c, c ∈ Options.yielded g
          ↔ c `sublist_of` PyDict.values options
            ∧ (n_min ≤ Z.of_nat (length c) ≤ n_max)%Z).
Proof. apply min_max_enumeration. Qed.

Lemma min_max_of_enumerates_witness :
  length (Options.yielded (Options.iter_options zero_or_one_of_cd)) = 3.
Proof.
  exact (eq_trans
           (proj1 (proj2 (min_max_of_enumerates (TValue := nat) (inl ["c"; "d"]) 0 1
                            ltac:(lia))))
           eq_refl).
Defined.

(** C10. A generator backed by a collection keeps its options in a
    dictionary keyed by option key: the keys are distinct, they are the
    keys of the input in the order of their first occurrences, and their
    number is the number of distinct input keys; the option kept under a
    key is the one built from its last occurrence.  Every combination yielded by [AllOf], [OneOf],
    [MinMaxOf] (hence [OneOrNoneOf] and [NOf]) and [Subsets] has at most
    one option per key, and the counts are those of the distinct keys:
    one combination of all of them, one per key, the binomial sum, and
    two to their power. *)
Theorem options_keep_one_per_key {TKey TValue : Type} `{EqDecision TKey}
    (o : list TKey + list (TKey * TValue)) :
  let options := Options.OptionsGeneratorBase_init o in
  let input_keys := match o with inl ks => ks | inr d => PyDict.keys d end in
  let distinct := length (remove_dups input_keys) in
  NoDup (PyDict.keys options)
  ∧ PyDict.keys options = reverse (remove_dups (reverse input_keys))
  ∧ (∀ k, k ∈ PyDict.keys options ↔ k ∈ input_keys)
  ∧ length options = distinct
  ∧ (∀ k, PyDict.get options k
          = match o with
            | inl ks =>
                if decide (k ∈ ks)
                then Some {| Options.key := k; Options.value := None |}
                else None
            | inr d =>
                (fun v => {| Options.key := k; Options.value := Some v |})
                  <$> PyDict.get (reverse d) k
            end)
  ∧ (∀ g c,
       g = Options.AllOf o ∨ g = Options.OneOf o ∨ g = Options.Subsets o
       ∨ (∃ n_min n_max, g = Options.MinMaxOf o n_min n_max) →
       c ∈ Options.yielded (Options.iter_options g) →
       NoDup (Options.key <$> c))
  ∧ Options.yielded (Options.iter_options (Options.AllOf o)) = [PyDict.values options]
  ∧ length (PyDict.values options) = distinct
  ∧ length (Options.yielded (Options.iter_options (Options.OneOf o))) = distinct
  ∧ (∀ n_min n_max, (0 ≤ n_min)%Z →
       length (Options.yielded (Options.iter_options (Options.MinMaxOf o n_min n_max)))
       = spec_min_max_count distinct n_min n_max)
  ∧ length (Options.yielded (Options.iter_options (Options.Subsets o))) = 2 ^ distinct.
Proof.
  intros options input_keys distinct.
  assert (Hlen : length options = distinct) by apply init_length.
  assert (Hvals : length (PyDict.values options) = distinct).
  { unfold PyDict.values. by rewrite length_fmap. }
  split_and!.
  - apply init_NoDup_keys.
  - subst options input_keys.
    destruct o as [ks|d]; cbn [Options.OptionsGeneratorBase_init];
      rewrite of_items_keys_order; change (map ?f ?l) with (f <$> l);
      rewrite <- list_fmap_compose.
    + by rewrite list_fmap_id.
    + done.
  - intros k. subst options input_keys.
    destruct o as [ks|d]; cbn [Options.OptionsGeneratorBase_init];
      rewrite of_items_keys_elem; change (map ?f ?l) with (f <$> l);
      rewrite <- list_fmap_compose.
    + by rewrite list_fmap_id.
    + done.
  - done.
  - intros k. subst options.
    destruct o as [ks|d]; cbn [Options.OptionsGeneratorBase_init];
      rewrite of_items_get; change (map ?f ?l) with (f <$> l).
    + clear. induction ks as [|k' ks IH] using rev_ind.
      * by rewrite decide_False by apply not_elem_of_nil.
      * rewrite fmap_app, reverse_app. simpl.
        destruct (decide (k = k')) as [->|Hne].
        -- rewrite decide_True; [done|]. apply elem_of_app. right. by left.
        -- rewrite IH. destruct (decide (k ∈ ks)) as [Hin|Hnin].
           ++ rewrite decide_True; [done|]. apply elem_of_app. by left.
           ++ rewrite decide_False; [done|]. rewrite elem_of_app.
              intros [?|Hk]; [done|]. by apply list_elem_of_singleton in Hk.
    + clear. induction d as [|[k' v'] d IH] using rev_ind; [done|].
      rewrite fmap_app, !reverse_app. simpl.
      by destruct (decide (k = k')) as [->|Hne].
  - intros g c Hg Hc.
    apply (sublist_keys_NoDup options); [apply init_keyed | apply init_NoDup_keys |].
    destruct Hg as [->|[->|[->|(n_min & n_max & ->)]]]; simpl in Hc; fold options in Hc.
    + by apply list_elem_of_singleton in Hc as ->.
    + apply list_elem_of_fmap in Hc as (x & -> & Hx). by apply singleton_sublist_l.
    + unfold iter_subsets in Hc. by apply sizes_elem in Hc as [? _].
    + by apply min_max_loop_sublist in Hc.
  - done.
  - done.
  - simpl. fold options. by rewrite length_map.
  - intros n_min n_max Hmin. rewrite <- Hlen.
    apply (proj1 (proj2 (min_max_enumeration o n_min n_max Hmin))).
  - simpl. fold options. by rewrite iter_subsets_length, Hvals.
Qed.

Lemma options_keep_one_per_key_witness :
  length (Options.yielded
            (Options.iter_options
               (Options.MinMaxOf (TValue := nat) (inl ["a"; "b"; "a"]) 0 1))) = 3.
Proof.
  exact (eq_trans
           (proj1 (proj2 (proj2 (proj2 (proj2 (proj2 (proj2 (proj2 (proj2 (proj2
              (options_keep_one_per_key (TValue := nat) (inl ["a"; "b"; "a"])))))))))))
              0%Z 1%Z ltac:(lia))
           eq_refl).
Defined.

(** ** Sorting a data frame *)

Section sort_facts.
Context (ascending : bool) (i : nat).
Implicit Types (r : nat * list PyVal) (rs : list (nat * list PyVal)).

#[local] Abbreviation ordered := (rows_in_order ascending i).

Lemma insert_row_perm r rs : Collection.insert_row ascending i r rs ≡ₚ r :: rs.
Proof.
  induction rs as [|r' rs IH]; simpl; [done|].
  destruct (Collection.in_order _ _ _); [|done].
  rewrite IH. apply Permutation_swap.
Qed.

Lemma sort_rows_perm rs : Collection.sort_rows ascending i rs ≡ₚ rs.
Proof.
  unfold Collection.sort_rows.
  enough (Hgen : ∀ acc, fold_left (fun sorted r => Collection.insert_row ascending i r sorted)
                          rs acc ≡ₚ acc ++ rs) by apply (Hgen []).
  induction rs as [|r rs IH]; intros acc; simpl.
  - by rewrite app_nil_r.
  - rewrite IH, insert_row_perm. simpl. apply Permutation_middle.
Qed.

Lemma insert_row_sorted r rs :
  (∀ r', r' ∈ rs → ordered r' r ∨ ordered r r') →
  Sorted ordered rs → Sorted ordered (Collection.insert_row ascending i r rs).
Proof.
  intros Htotal Hsorted. induction Hsorted as [|r' rs Hrs IH Hhd]; simpl.
  - by repeat constructor.
  - destruct (Collection.in_order _ _ _) eqn:Hord.
    + constructor.
      * apply IH. intros r'' Hin. apply Htotal. by right.
      * destruct Hhd as [|r'' rs Hr'']; simpl.
        -- by constructor.
        -- destruct (Collection.in_order _ (Collection.cell i r'') _);
             by constructor.
    + constructor; [by constructor|]. constructor.
      destruct (Htotal r') as [H'|H']; [by left | | done].
      unfold rows_in_order in H'. congruence.
Qed.

Lemma sort_rows_sorted rs :
  (∀ r r', r ∈ rs → r' ∈ rs → ordered r r' ∨ ordered r' r) →
  Sorted ordered (Collection.sort_rows ascending i rs).
Proof.
  intros Htotal. unfold Collection.sort_rows.
  enough (Hgen : ∀ done_ todo acc, rs = done_ ++ todo → acc ≡ₚ done_ →
                   Sorted ordered acc →
                   Sorted ordered
                     (fold_left (fun sorted r => Collection.insert_row ascending i r sorted)
                        todo acc)).
  { apply (Hgen [] rs []); [done | done | constructor]. }
  intros done_ todo. revert done_.
  induction todo as [|r todo IH]; intros done_ acc Hrs Hacc Hsorted; simpl; [done|].
  apply (IH (done_ ++ [r])).
  - by rewrite <- app_assoc.
  - rewrite insert_row_perm, Hacc. apply Permutation_cons_append.
  - apply insert_row_sorted; [|done]. intros r' Hr'. apply Htotal.
    + rewrite Hrs, elem_of_app. left. by rewrite <- Hacc.
    + rewrite Hrs, elem_of_app. right. by left.
Qed.

End sort_facts.

Lemma py_le_total (a b : PyVal) :
  (Collection.is_number a = true ∧ Collection.is_number b = true)
  ∨ (Collection.is_string a = true ∧ Collection.is_string b = true) →
  Collection.py_le a b = true ∨ Collection.py_le b a = true.
Proof.
  destruct a as [|x|x|x], b as [|y|y|y]; simpl; intros [[? ?]|[? ?]]; try done.
  - destruct x, y; simpl; auto.
  - destruct (decide (Z_of_bool x ≤ y)%Z);
      [left; by apply bool_decide_eq_true | right; apply bool_decide_eq_true; lia].
  - destruct (decide (x ≤ Z_of_bool y)%Z);
      [left; by apply bool_decide_eq_true | right; apply bool_decide_eq_true; lia].
  - destruct (decide (x ≤ y)%Z);
      [left; by apply bool_decide_eq_true | right; apply bool_decide_eq_true; lia].
  - apply String.leb_total.
Qed.

Lemma comparable_total (ascending : bool) (cells : list PyVal) (a b : PyVal) :
  Collection.comparable cells = true → a ∈ cells → b ∈ cells →
  Collection.in_order ascending a b = true ∨ Collection.in_order ascending b a = true.
Proof.
  unfold Collection.comparable. intros Hcmp Ha Hb.
  assert (Hle : Collection.py_le a b = true ∨ Collection.py_le b a = true).
  { apply py_le_total. apply orb_prop in Hcmp as [Hall|Hall];
      rewrite forallb_forall in Hall; [left | right];
      split; apply Hall; by apply list_elem_of_In. }
  unfold Collection.in_order. destruct ascending; tauto.
Qed.

Lemma Sorted_map {A B : Type} (f : A → B) (R : B → B → Prop) (l : list A) :
  Sorted (fun x y => R (f x) (f y)) l → Sorted R (map f l).
Proof.
  induction 1 as [|x l Hl IH Hhd]; simpl; constructor; [done|].
  destruct Hhd; simpl; by constructor.
Qed.

Lemma filter_missing_perm (i : nat) (rs : list (nat * list PyVal)) :
  filter (fun r => Collection.is_missing (Collection.cell i r) = false) rs
  ++ filter (fun r => Collection.is_missing (Collection.cell i r) = true) rs ≡ₚ rs.
Proof.
  induction rs as [|r rs IH]; [done|]. rewrite !filter_cons.
  destruct (Collection.is_missing (Collection.cell i r)) eqn:Hr.
  - rewrite decide_False, decide_True by done.
    rewrite <- Permutation_middle. by constructor.
  - rewrite decide_True, decide_False by done. simpl. by constructor.
Qed.

Lemma column_position_Some (s : string) (cols : list string) :
  s ∈ cols → is_Some (Collection.column_position s cols).
Proof.
  induction cols as [|c cols IH]; simpl; intros Hin.
  - by apply elem_of_nil in Hin.
  - destruct (decide (s = c)) as [->|Hne]; [by eexists|].
    apply elem_of_cons in Hin as [?|Hin]; [done|].
    destruct (IH Hin) as [j ->]. by eexists.
Qed.

(** What [sort_values] returns: the same columns, the same rows in
    another order, and the column it sorted by in order. *)
Lemma sort_values_spec (s : string) (ascending : bool) (d d' : Collection.DataFrame) :
  Collection.sort_values s ascending d = Ok d' →
  ∃ i, Collection.column_position s (Collection.columns d) = Some i
       ∧ Collection.columns d' = Collection.columns d
       ∧ Collection.rows d' ≡ₚ Collection.rows d
       ∧ column_sorted ascending (Collection.column_cells i d').
Proof.
  unfold Collection.sort_values.
  destruct (Collection.column_position s _) as [i|]; [|done].
  destruct (Collection.comparable _) eqn:Hcmp; [|done].
  intros [= <-]. exists i. simpl. split_and!; [done | done | |].
  - rewrite sort_rows_perm. apply filter_missing_perm.
  - unfold Collection.column_cells. simpl. rewrite map_app.
    eexists _, _. split_and!; [reflexivity | | |].
    + apply Forall_forall. intros v Hv.
      change (map ?f ?l) with (f <$> l) in Hv.
      apply list_elem_of_fmap in Hv as (r & -> & Hr).
      rewrite sort_rows_perm in Hr. by apply list_elem_of_filter in Hr as [? _].
    + apply Forall_forall. intros v Hv.
      change (map ?f ?l) with (f <$> l) in Hv.
      apply list_elem_of_fmap in Hv as (r & -> & Hr).
      by apply list_elem_of_filter in Hr as [? _].
    + apply (Sorted_map (Collection.cell i)
               (fun a b => Collection.in_order ascending a b = true)).
      apply sort_rows_sorted. intros r r' Hr Hr'.
      apply (comparable_total ascending _ _ _ Hcmp);
        change (map ?f ?l) with (f <$> l); apply list_elem_of_fmap; eauto.
Qed.

Lemma imap_labels {A : Type} (h : nat → nat) (l : list (nat * A)) :
  (imap (fun j r => (h j, r.2)) l).*1 = h <$> seq 0 (length l)
  ∧ (imap (fun j r => (h j, r.2)) l).*2 = l.*2.
Proof.
  revert h. induction l as [|r l IH]; intros h; [done|].
  destruct (IH (h ∘ S)) as [IH1 IH2]. simpl. split.
  - f_equal. rewrite <- fmap_S_seq, <- list_fmap_compose. exact IH1.
  - f_equal. exact IH2.
Qed.

Lemma reset_index_spec (d : Collection.DataFrame) :
  Collection.columns (Collection.reset_index d) = Collection.columns d
  ∧ PyDict.keys (Collection.rows (Collection.reset_index d))
    = seq 0 (length (Collection.rows d))
  ∧ (Collection.rows (Collection.reset_index d)).*2 = (Collection.rows d).*2
  ∧ length (Collection.rows (Collection.reset_index d)) = length (Collection.rows d).
Proof.
  unfold Collection.reset_index. simpl.
  destruct (imap_labels id (Collection.rows d)) as [H1 H2]. split_and!.
  - done.
  - unfold PyDict.keys. etrans; [exact H1|]. apply list_fmap_id.
  - exact H2.
  - apply length_imap.
Qed.

Lemma column_cells_snd (i : nat) (d : Collection.DataFrame) :
  Collection.column_cells i d = (fun cells => nth i cells PyNone) <$> (Collection.rows d).*2.
Proof.
  unfold Collection.column_cells. rewrite <- list_fmap_compose. done.
Qed.

(** ** [ParametersMetricsCollection.add_values] *)

Lemma dict_set_fresh {K V : Type} `{EqDecision K} (k : K) (v : V) (d : list (K * V)) :
  k ∉ PyDict.keys d → PyDict.set k v d = d ++ [(k, v)].
Proof.
  induction d as [|[k' v'] d IH]; simpl; intros Hk; [done|].
  rewrite dict_keys_cons in Hk. apply not_elem_of_cons in Hk as [Hne Hk].
  rewrite decide_False by done. by rewrite IH.
Qed.

Lemma row_of_snoc (cols : list string) (col : string) (r : list (string * PyVal)) :
  col ∉ PyDict.keys r →
  Collection.row_of (cols ++ [col]) r = Collection.row_of cols r ++ [PyNone].
Proof.
  intros Hcol. unfold Collection.row_of. rewrite map_app. simpl.
  apply dict_get_None_keys in Hcol. by rewrite Hcol.
Qed.

Lemma list_remove_first_elem (s k : string) (l : list string) :
  s ∈ l → k ∈ s :: Collection.list_remove_first s l ↔ k ∈ l.
Proof.
  induction l as [|y l IH]; simpl; intros Hs.
  - by apply elem_of_nil in Hs.
  - destruct (decide (s = y)) as [->|Hne]; [done|].
    apply elem_of_cons in Hs as [?|Hs]; [done|].
    specialize (IH Hs). rewrite !elem_of_cons in *. tauto.
Qed.

(** The loop of [add_values] over the keys of the new record: a column
    of missing values is appended for every key that is not a column. *)
Lemma add_columns_spec (ks : list string) (d : Collection.DataFrame)
    (records : list (list (string * PyVal))) :
  (∀ r k, r ∈ records → k ∈ PyDict.keys r → k ∈ Collection.columns d) →
  (Collection.rows d).*2 ≡ₚ map (Collection.row_of (Collection.columns d)) records →
  let d1 :=
    fold_left
      (fun df col =>
         if bool_decide (col ∈ Collection.columns df) then df
         else Collection.add_column col df) ks d in
  PyDict.keys (Collection.rows d1) = PyDict.keys (Collection.rows d)
  ∧ length (Collection.rows d1) = length (Collection.rows d)
  ∧ (∀ k, k ∈ Collection.columns d1 ↔ k ∈ Collection.columns d ∨ k ∈ ks)
  ∧ (Collection.rows d1).*2 ≡ₚ map (Collection.row_of (Collection.columns d1)) records.
Proof.
  revert d. induction ks as [|col ks IH]; intros d Hsub Hrows; simpl.
  - split_and!; [done | done | | done].
    intros k. split; [by left | intros [?|Hk]; [done | by apply elem_of_nil in Hk]].
  - destruct (bool_decide (col ∈ Collection.columns d)) eqn:Hcol.
    + apply bool_decide_eq_true in Hcol.
      destruct (IH d Hsub Hrows) as (H1 & H2 & H3 & H4).
      split_and!; [done | done | | done].
      intros k. rewrite H3, elem_of_cons. split; [tauto|].
      intros [?|[->|?]]; auto.
    + apply bool_decide_eq_false in Hcol.
      destruct (IH (Collection.add_column col d)) as (H1 & H2 & H3 & H4).
      * intros r k Hr Hk. simpl. apply elem_of_app. left. by apply (Hsub r).
      * simpl. change (map ?f ?l) with (f <$> l).
        assert (Heq : (fun cells => cells ++ [PyNone])
                        <$> (Collection.row_of (Collection.columns d) <$> records)
                      = Collection.row_of (Collection.columns d ++ [col]) <$> records).
        { rewrite <- list_fmap_compose. apply list_fmap_ext. intros j r Hr. simpl.
          rewrite row_of_snoc; [done|]. intros Hk. apply Hcol.
          apply (Hsub r); [|done]. eapply list_elem_of_lookup_2. exact Hr. }
        rewrite <- Heq. change (map ?f ?l) with (f <$> l) in Hrows.
        rewrite <- Hrows, <- !list_fmap_compose. done.
      * simpl in *. split_and!.
        -- rewrite H1. unfold PyDict.keys. by rewrite <- list_fmap_compose.
        -- by rewrite H2, length_map.
        -- intros k. rewrite H3, elem_of_app, list_elem_of_singleton, elem_of_cons. tauto.
        -- done.
Qed.

Lemma prepare_frame_spec (c : Collection.t) (records : list (list (string * PyVal)))
    (values : list (string * PyVal)) :
  tabulates c records →
  let d1 := Collection.prepare_frame c values in
  PyDict.keys (Collection.rows d1) = seq 0 (length (Collection.rows d1))
  ∧ Collection._current_row c = length (Collection.rows d1)
  ∧ (∀ k, k ∈ Collection.columns d1
          ↔ (∃ r, r ∈ records ∧ k ∈ PyDict.keys r) ∨ k ∈ PyDict.keys values)
  ∧ (Collection.rows d1).*2 ≡ₚ map (Collection.row_of (Collection.columns d1)) records.
Proof.
  unfold tabulates, Collection.prepare_frame.
  destruct (Collection.df c) as [d|].
  - intros (Hlabels & Hcur & Hcols & Hrows).
    destruct (add_columns_spec (PyDict.keys values) d records) as (H1 & H2 & H3 & H4).
    { intros r k Hr Hk. apply Hcols. eauto. }
    { done. }
    simpl. split_and!.
    + by rewrite H1, H2.
    + by rewrite H2.
    + intros k. by rewrite H3, Hcols.
    + done.
  - intros [-> Hcur]. simpl. split_and!; [done | done | | done].
    intros k. split.
    + intros Hk. right. destruct (Collection.sort_column_name c) as [s|]; [|done].
      destruct (bool_decide (s ∈ PyDict.keys values)) eqn:Hs; [|done].
      apply bool_decide_eq_true in Hs.
      by apply (proj1 (list_remove_first_elem s k _ Hs)).
    + intros [(r & Hr & _)|Hk]; [by apply elem_of_nil in Hr|].
      destruct (Collection.sort_column_name c) as [s|]; [|done].
      destruct (bool_decide (s ∈ PyDict.keys values)) eqn:Hs; [|done].
      apply bool_decide_eq_true in Hs.
      by apply (proj2 (list_remove_first_elem s k _ Hs)).
Qed.

(** The table after the new row is appended and before it is sorted. *)
Lemma appended_frame_spec (c : Collection.t) (records : list (list (string * PyVal)))
    (values : list (string * PyVal)) (d2 : Collection.DataFrame) :
  tabulates c records →
  Collection.loc_set (Collection._current_row c)
    (Collection.row_of (Collection.columns (Collection.prepare_frame c values)) values)
    (Collection.prepare_frame c values) = Ok d2 →
  PyDict.keys (Collection.rows d2) = seq 0 (length (Collection.rows d2))
  ∧ length (Collection.rows d2) = S (Collection._current_row c)
  ∧ (∀ k, k ∈ Collection.columns d2
          ↔ ∃ r, r ∈ records ++ [values] ∧ k ∈ PyDict.keys r)
  ∧ (Collection.rows d2).*2
    ≡ₚ map (Collection.row_of (Collection.columns d2)) (records ++ [values]).
Proof.
  intros Htab.
  destruct (prepare_frame_spec c records values Htab) as (Hlabels & Hcur & Hcols & Hrows).
  set (d1 := Collection.prepare_frame c values) in *.
  unfold Collection.loc_set. destruct (bool_decide (Collection.columns d1 = [])); [done|].
  intros [= <-]. simpl.
  assert (Hrows2 : PyDict.set (Collection._current_row c)
                     (Collection.row_of (Collection.columns d1) values) (Collection.rows d1)
                   = Collection.rows d1
                     ++ [(Collection._current_row c,
                          Collection.row_of (Collection.columns d1) values)]).
  { apply dict_set_fresh. rewrite Hlabels, Hcur, elem_of_seq. lia. }
  rewrite Hrows2. split_and!.
  - rewrite dict_keys_app, length_app, Hlabels, Hcur. simpl.
    by rewrite Nat.add_1_r, seq_S.
  - rewrite length_app, Hcur. simpl. lia.
  - intros k. rewrite Hcols. split.
    + intros [(r & Hr & Hk)|Hk].
      * exists r. split; [|done]. apply elem_of_app. by left.
      * exists values. split; [|done]. apply elem_of_app. right. by left.
    + intros (r & Hr & Hk). apply elem_of_app in Hr as [Hr|Hr]; [left; eauto|].
      apply list_elem_of_singleton in Hr as ->. by right.
  - rewrite fmap_app, map_app, Hrows. done.
Qed.

(** One call of [add_values]: the table holds the new record as well, and
    the sort column, when it is among the columns, is in order. *)
Lemma add_values_step (c c' : Collection.t) (records : list (list (string * PyVal)))
    (values : list (string * PyVal)) :
  tabulates c records →
  Collection.add_values c values = Ok c' →
  tabulates c' (records ++ [values])
  ∧ Collection.sort_column_name c' = Collection.sort_column_name c
  ∧ Collection.ascending c' = Collection.ascending c
  ∧ ∃ d', Collection.df c' = Some d'
          ∧ ∀ s, Collection.sort_column_name c = Some s →
                 s ∈ Collection.columns d' →
                 ∃ i, Collection.column_position s (Collection.columns d') = Some i
                      ∧ column_sorted (Collection.ascending c)
                          (Collection.column_cells i d').
Proof.
  intros Htab. unfold Collection.add_values.
  destruct (Collection.loc_set _ _ _) as [d2|e] eqn:Hloc; simpl; [|done].
  destruct (appended_frame_spec c records values d2 Htab Hloc)
    as (Hlabels2 & Hlen2 & Hkeys2 & Hperm2).
  clear Hloc.
  destruct (Collection.sort_column_name c) as [s|] eqn:Hsort.
  - destruct (bool_decide (s ∈ Collection.columns d2)) eqn:Hs.
    + destruct (Collection.sort_values s (Collection.ascending c) d2) as [d3|e] eqn:Hsv;
        simpl; [|done].
      intros [= <-]. cbn [Collection.sort_column_name Collection.ascending Collection.df].
      destruct (sort_values_spec _ _ _ _ Hsv) as (i & Hpos & Hcols3 & Hrows3 & Hsorted).
      destruct (reset_index_spec d3) as (Hc4 & Hl4 & Hr4 & Hn4).
      split_and!; [|done | done |].
      * unfold tabulates. cbn [Collection.df Collection._current_row].
        rewrite Hc4, Hl4, Hr4, Hn4, Hcols3.
        split_and!; [done | by rewrite Hrows3 | done | by rewrite Hrows3].
      * eexists. split; [reflexivity|]. intros s' [= <-] _. exists i.
        rewrite Hc4, Hcols3. split; [done|].
        by rewrite column_cells_snd, Hr4, <- column_cells_snd.
    + simpl. intros [= <-]. simpl. split_and!; [|done | done |].
      * unfold tabulates. simpl. split_and!; [done | by rewrite Hlen2 | done | done].
      * eexists. split; [reflexivity|]. intros s' [= <-] Hin.
        apply bool_decide_eq_false in Hs. done.
  - simpl. intros [= <-]. simpl. split_and!; [|done | done |].
    + unfold tabulates. simpl. split_and!; [done | by rewrite Hlen2 | done | done].
    + eexists. split; [reflexivity|]. intros s' Hs'. done.
Qed.

Lemma column_position_lookup (s : string) (cols : list string) (i : nat) :
  Collection.column_position s cols = Some i → cols !! i = Some s.
Proof.
  revert i. induction cols as [|c cols IH]; intros i; simpl; [done|].
  destruct (decide (s = c)) as [->|Hne].
  - by intros [= <-].
  - destruct (Collection.column_position s cols) as [j|]; simpl; [|done].
    intros [= <-]. simpl. by apply IH.
Qed.

Lemma cell_of_row_of (cols : list string) (r : list (string * PyVal)) (i : nat) (s : string) :
  cols !! i = Some s →
  nth i (Collection.row_of cols r) PyNone = default PyNone (PyDict.get r s).
Proof.
  intros Hi. unfold Collection.row_of. change (map ?f ?l) with (f <$> l).
  by rewrite nth_lookup, list_lookup_fmap, Hi.
Qed.

(** [sort_values] returns when the cells of the column are numbers or
    missing. *)
Lemma sort_values_returns (s : string) (ascending : bool) (d : Collection.DataFrame) :
  s ∈ Collection.columns d →
  (∀ i cells, Collection.column_position s (Collection.columns d) = Some i →
              cells ∈ (Collection.rows d).*2 →
              Collection.is_number (nth i cells PyNone)
              || Collection.is_missing (nth i cells PyNone) = true) →
  ∃ d', Collection.sort_values s ascending d = Ok d'.
Proof.
  intros Hs Hcells. unfold Collection.sort_values.
  destruct (column_position_Some s _ Hs) as [i Hi]. rewrite Hi.
  assert (Hcmp : Collection.comparable
                   (map (Collection.cell i)
                      (filter (fun r => Collection.is_missing (Collection.cell i r) = false)
                         (Collection.rows d))) = true).
  { unfold Collection.comparable. apply orb_true_intro. left.
    apply forallb_forall. intros v Hv. apply list_elem_of_In in Hv.
    change (map ?f ?l) with (f <$> l) in Hv.
    apply list_elem_of_fmap in Hv as (r & -> & Hr).
    apply list_elem_of_filter in Hr as [Hpresent Hr].
    specialize (Hcells i r.2 Hi). unfold Collection.cell in *.
    rewrite Hpresent, orb_false_r in Hcells. apply Hcells.
    apply list_elem_of_fmap. eauto. }
  rewrite Hcmp. by eexists.
Qed.

(** [add_values] of a record that is not empty returns when the values
    under the sort column, of the records in the table and of the new
    one, are numbers or missing. *)
Lemma add_values_returns (c : Collection.t) (records : list (list (string * PyVal)))
    (values : list (string * PyVal)) :
  tabulates c records →
  values ≠ [] →
  Forall (fun r => sortable_by (Collection.sort_column_name c) r = true)
    (records ++ [values]) →
  ∃ c', Collection.add_values c values = Ok c'.
Proof.
  intros Htab Hvalues Hsortable. unfold Collection.add_values.
  destruct (Collection.loc_set _ _ _) as [d2|e] eqn:Hloc; simpl.
  - destruct (appended_frame_spec c records values d2 Htab Hloc)
      as (Hlabels2 & Hlen2 & Hkeys2 & Hperm2).
    clear Hloc.
    destruct (Collection.sort_column_name c) as [s|] eqn:Hsort; [|by eexists].
    destruct (bool_decide (s ∈ Collection.columns d2)) eqn:Hs; [|by eexists].
    apply bool_decide_eq_true in Hs.
    destruct (sort_values_returns s (Collection.ascending c) d2 Hs) as [d3 Hd3].
    + intros i cells Hi Hcells. rewrite Hperm2 in Hcells.
      change (map ?f ?l) with (f <$> l) in Hcells.
      apply list_elem_of_fmap in Hcells as (r & -> & Hr).
      rewrite (cell_of_row_of _ _ _ s) by by apply column_position_lookup.
      rewrite Forall_forall in Hsortable. apply (Hsortable r Hr).
    + rewrite Hd3. by eexists.
  - exfalso. unfold Collection.loc_set in Hloc.
    destruct (bool_decide _) eqn:Hempty in Hloc; [|done].
    apply bool_decide_eq_true in Hempty.
    destruct (prepare_frame_spec c records values Htab) as (_ & _ & Hcols & _).
    destruct values as [|[k v] values]; [done|].
    assert (Hk : k ∈ Collection.columns (Collection.prepare_frame c ((k, v) :: values))).
    { apply Hcols. right. rewrite dict_keys_cons. by left. }
    rewrite Hempty in Hk. by apply elem_of_nil in Hk.
Qed.

Lemma add_values_all (c0 c : Collection.t)
    (earlier records : list (list (string * PyVal))) :
  tabulates c0 earlier →
  for_each records Collection.add_values c0 = Ok c →
  tabulates c (earlier ++ records)
  ∧ Collection.sort_column_name c = Collection.sort_column_name c0
  ∧ Collection.ascending c = Collection.ascending c0
  ∧ (records ≠ [] →
     ∃ d, Collection.df c = Some d
          ∧ ∀ s, Collection.sort_column_name c0 = Some s →
                 s ∈ Collection.columns d →
                 ∃ i, Collection.column_position s (Collection.columns d) = Some i
                      ∧ column_sorted (Collection.ascending c0)
                          (Collection.column_cells i d)).
Proof.
  intros Hstart. revert c. induction records as [|v records IH] using rev_ind; intros c.
  - simpl. intros [= <-]. rewrite app_nil_r. split_and!; done.
  - rewrite for_each_app.
    destruct (for_each records Collection.add_values c0) as [c1|e]; simpl; [|done].
    destruct (Collection.add_values c1 v) as [c2|e] eqn:Hadd; simpl; [|done].
    intros [= <-]. destruct (IH c1 eq_refl) as (Htab & Hsort & Hasc & _).
    destruct (add_values_step _ _ _ _ Htab Hadd) as (Htab' & Hsort' & Hasc' & d & Hd & Hsorted).
    rewrite app_assoc.
    split_and!; [done | congruence | congruence |].
    intros _. exists d. split; [done|]. rewrite <- Hsort, <- Hasc. exact Hsorted.
Qed.

Lemma add_values_all_return (c0 : Collection.t)
    (earlier records : list (list (string * PyVal))) :
  tabulates c0 earlier →
  Forall (fun r => r ≠ []) records →
  Forall (fun r => sortable_by (Collection.sort_column_name c0) r = true)
    (earlier ++ records) →
  ∃ c, for_each records Collection.add_values c0 = Ok c.
Proof.
  intros Hstart.
  induction records as [|v records IH] using rev_ind; intros Hfilled Hsortable.
  - by eexists.
  - rewrite app_assoc in Hsortable. apply Forall_app in Hfilled as [Hfilled Hv].
    destruct IH as [c1 Hc1]; [done | by apply Forall_app in Hsortable as [? _]|].
    destruct (add_values_all _ _ _ _ Hstart Hc1) as (Htab & Hsort & _ & _).
    destruct (add_values_returns c1 (earlier ++ records) v Htab) as [c2 Hc2].
    { by rewrite Forall_singleton in Hv. }
    { by rewrite Hsort. }
    exists c2. rewrite for_each_app, Hc1. simpl. by rewrite Hc2.
Qed.

Lemma row_of_lookup_missing (cols : list string) (r : list (string * PyVal))
    (j : nat) (col : string) :
  cols !! j = Some col → col ∉ PyDict.keys r →
  Collection.row_of cols r !! j = Some PyNone.
Proof.
  intros Hj Hcol. unfold Collection.row_of. change (map ?f ?l) with (f <$> l).
  rewrite list_lookup_fmap, Hj. simpl.
  apply dict_get_None_keys in Hcol. by rewrite Hcol.
Qed.

(** C8. For a sequence of [add_values] calls on a new collection
    ([earlier] empty) or on one whose table holds the records [earlier]:
    the calls return when no record is empty and the values under the
    sort column are numbers or missing, and after every call that
    returns, if the configured sort
    column is among the columns, its present cells are in the configured
    order (non-decreasing when ascending, non-increasing otherwise),
    followed by the rows where it is missing; the set of columns is the
    union of the keys of all records; and the rows are the records laid
    out along the columns, with [None] wherever a record lacks a
    column. *)
Theorem add_values_sorted_and_back_filled (c0 : Collection.t)
    (earlier records : list (list (string * PyVal))) :
  tabulates c0 earlier →
  records ≠ [] →
  (Forall (fun r => r ≠ []) records →
   Forall (fun r => sortable_by (Collection.sort_column_name c0) r = true)
     (earlier ++ records) →
   ∃ c, for_each records Collection.add_values c0 = Ok c)
  ∧ ∀ c, for_each records Collection.add_values c0 = Ok c →
    ∃ d, Collection.df c = Some d
      ∧ (∀ s, Collection.sort_column_name c0 = Some s → s ∈ Collection.columns d →
           ∃ i, Collection.column_position s (Collection.columns d) = Some i
                ∧ column_sorted (Collection.ascending c0) (Collection.column_cells i d))
      ∧ (list_to_set (Collection.columns d) : gset string)
        = ⋃ (key_set <$> earlier ++ records)
      ∧ (Collection.rows d).*2
        ≡ₚ map (Collection.row_of (Collection.columns d)) (earlier ++ records)
      ∧ (∀ r j col, Collection.columns d !! j = Some col → col ∉ PyDict.keys r →
           Collection.row_of (Collection.columns d) r !! j = Some PyNone).
Proof.
  intros Hstart Hne. split; [by apply add_values_all_return|]. intros c Hrun.
  destruct (add_values_all _ _ _ _ Hstart Hrun) as (Htab & _ & _ & Hsorted).
  destruct (Hsorted Hne) as (d & Hd & Hs). exists d.
  unfold tabulates in Htab. rewrite Hd in Htab.
  destruct Htab as (_ & _ & Hcols & Hrows). split_and!; [done | done | | done |].
  - apply set_eq. intros k.
    rewrite elem_of_list_to_set, Hcols, elem_of_union_list. split.
    + intros (r & Hr & Hk). exists (key_set r). split.
      * apply list_elem_of_fmap. eauto.
      * by apply elem_of_list_to_set.
    + intros (X & HX & Hk). apply list_elem_of_fmap in HX as (r & -> & Hr).
      exists r. split; [done|]. by apply elem_of_list_to_set in Hk.
  - intros r j col. apply row_of_lookup_missing.
Qed.

Lemma add_values_sorted_and_back_filled_witness :
  ∃ d, Collection.columns d = ["m"; "a"; "b"]
       ∧ column_sorted false (Collection.column_cells 0 d)
       ∧ (list_to_set (Collection.columns d) : gset string)
         = ⋃ (key_set <$> sample_records).
Proof.
  destruct (add_values_sorted_and_back_filled sample_sorted_collection []
              sample_records (conj eq_refl eq_refl) ltac:(done)) as [Hreturns Hafter].
  destruct Hreturns as [c Hrun]; [compute_done | compute_done |].
  destruct (Hafter c Hrun) as (d & Hd & Hsorted & Hcols & _).
  vm_compute in Hrun. injection Hrun as <-. injection Hd as <-.
  eexists (Collection.Build_DataFrame _ _). split; [reflexivity|]. split; [|exact Hcols].
  destruct (Hsorted "m" eq_refl ltac:(compute_done)) as (i & Hi & Hsort).
  injection Hi as <-. exact Hsort.
Defined.

(* ================================================================== *)
(** * Part III: further properties of the code                       *)
(* ================================================================== *)

(** ** Subsets and single sizes *)

Section subsets_facts.
Context {A : Type}.
Implicit Types (l c : list A) (r : nat).

Lemma combinations_0 l : combinations l 0 = [[]].
Proof. by destruct l. Qed.

Lemma combinations_gt l r : length l < r → combinations l r = [].
Proof.
  revert r. induction l as [|x l IH]; intros [|r] Hlt; simpl in *; try lia; [done|].
  rewrite !IH by lia. done.
Qed.

Lemma combinations_full l : combinations l (length l) = [l].
Proof.
  induction l as [|x l IH]; simpl; [done|].
  rewrite IH, combinations_gt by lia. done.
Qed.

Lemma combinations_1 l : combinations l 1 = map (fun x => [x]) l.
Proof.
  induction l as [|x l IH]; simpl; [done|].
  by rewrite combinations_0, IH.
Qed.

Lemma flat_map_snoc {B C : Type} (f : B → list C) (bs : list B) (b : B) :
  flat_map f (bs ++ [b]) = flat_map f bs ++ f b.
Proof. rewrite flat_map_app. simpl. by rewrite app_nil_r. Qed.

End subsets_facts.

(** X1. [iter_subsets] enumerates the subsequences of its input: two to
    the power of its length many, every subsequence (elements in input
    order) and nothing else, by non-decreasing size, starting with the
    empty one and ending with the whole input; they are pairwise
    distinct when the input has no repeated item. *)
Theorem iter_subsets_enumerates {A : Type} (s : list A) :
  length (iter_subsets s) = 2 ^ length s
  ∧ (∀ c, c ∈ iter_subsets s ↔ c `sublist_of` s)
  ∧ StronglySorted le (length <$> iter_subsets s)
  ∧ (NoDup s → NoDup (iter_subsets s))
  ∧ head (iter_subsets s) = Some []
  ∧ last (iter_subsets s) = Some s.
Proof.
  split_and!.
  - apply iter_subsets_length.
  - intros c. unfold iter_subsets. rewrite sizes_elem. split.
    + by intros [? _].
    + intros Hsub. split; [done|]. apply sublist_length in Hsub. lia.
  - apply sizes_sorted.
  - intros Hnd. by apply sizes_NoDup.
  - unfold iter_subsets. rewrite Nat.add_1_r. simpl. by rewrite combinations_0.
  - unfold iter_subsets. rewrite Nat.add_1_r, seq_S, flat_map_snoc. simpl.
    rewrite combinations_full. apply last_snoc.
Qed.

(** ** Members of the flat combination iterator *)

Section cartesian_members.
Context {V : Type}.
Implicit Types (pairs : list (string * list V)) (c : list (string * V)).

Lemma cartesian_product_elem pairs c :
  c ∈ cartesian_product pairs ↔ Forall2 picks c pairs.
Proof.
  revert c. induction pairs as [|[k vs] pairs IH]; intros c; simpl.
  - rewrite list_elem_of_singleton. split; [by intros -> | by intros ->%Forall2_nil_inv_r].
  - rewrite elem_of_flat_map. split.
    + intros (v & Hv & Hc). change (map ?f ?l) with (f <$> l) in Hc.
      apply list_elem_of_fmap in Hc as (c' & -> & Hc').
      constructor; [done | by apply IH].
    + intros Hc. apply Forall2_cons_inv_r in Hc as ([k' v] & c' & [Hk Hv] & Hc' & ->).
      simpl in *. subst k'. exists v. split; [done|].
      change (map ?f ?l) with (f <$> l). apply list_elem_of_fmap.
      exists c'. split; [done | by apply IH].
Qed.

Lemma cartesian_product_NoDup pairs :
  Forall (fun p => NoDup p.2) pairs → NoDup (cartesian_product pairs).
Proof.
  induction 1 as [|[k vs] pairs Hvs _ IH]; simpl; [apply NoDup_singleton|].
  simpl in Hvs. induction Hvs as [|v vs Hv Hvs IHvs]; simpl; [constructor|].
  apply NoDup_app. split_and!.
  - apply NoDup_fmap_2; [|done]. by intros c1 c2 [= ->].
  - intros c Hc Hc'. change (map ?f ?l) with (f <$> l) in Hc.
    apply list_elem_of_fmap in Hc as (c1 & -> & _).
    apply elem_of_flat_map in Hc' as (v' & Hv' & Hc').
    change (map ?f ?l) with (f <$> l) in Hc'.
    apply list_elem_of_fmap in Hc' as (c2 & [= <- _] & _). done.
  - done.
Qed.

Lemma cartesian_product_no_values pairs :
  Exists (fun p => p.2 = []) pairs → cartesian_product pairs = [].
Proof.
  induction 1 as [[k vs] pairs Hvs|[k vs] pairs _ IH]; simpl in *.
  - by subst vs.
  - rewrite IH. by induction vs.
Qed.

End cartesian_members.

(** X2. The combinations [iter_param_combinations] yields for a mapping
    are exactly the dictionaries that hold, for every parameter in
    order, one of its listed values; they are pairwise distinct when no
    value list repeats a value, and there is none when some parameter
    has no value. *)
Theorem iter_param_combinations_members {V : Type}
    (hyper_param_values : list (string * list V)) :
  NoDup (PyDict.keys hyper_param_values) →
  (∀ c, c ∈ iter_param_combinations hyper_param_values
        ↔ Forall2 picks c hyper_param_values)
  ∧ (Forall (fun p => NoDup p.2) hyper_param_values →
     NoDup (iter_param_combinations hyper_param_values))
  ∧ (Exists (fun p => p.2 = []) hyper_param_values →
     iter_param_combinations hyper_param_values = []).
Proof.
  intros Hnd. rewrite iter_param_combinations_eq by done. split_and!.
  - apply cartesian_product_elem.
  - apply cartesian_product_NoDup.
  - apply cartesian_product_no_values.
Qed.

Lemma iter_param_combinations_members_witness :
  [("a", PyInt 2); ("b", PyStr "x")] ∈ iter_param_combinations options_ab
  ∧ NoDup (iter_param_combinations options_ab).
Proof.
  destruct (iter_param_combinations_members options_ab) as (Hmem & Hnd & _).
  - compute_done.
  - split.
    + apply Hmem. repeat constructor; compute_done.
    + apply Hnd. repeat constructor; compute_done.
Defined.

(** ** Generator classes that coincide *)

Lemma range_single (n : Z) : Options.range n (n + 1) = [n].
Proof.
  unfold Options.range. replace (n + 1 - n)%Z with 1%Z by lia.
  unfold seqZ. simpl. f_equal; lia.
Qed.

Lemma range_empty (a b : Z) : (b ≤ a)%Z → Options.range a b = [].
Proof. intros Hle. unfold Options.range. apply seqZ_nil. lia. Qed.

Lemma range_cons (a b : Z) : (a < b)%Z → Options.range a b = a :: Options.range (a + 1) b.
Proof.
  intros Hlt. unfold Options.range. rewrite seqZ_cons by lia.
  f_equal. f_equal; lia.
Qed.

Section n_of_facts.
Context {A : Type}.
Implicit Types (opts : list A).

Lemma min_max_loop_single opts (n : nat) :
  Options.min_max_loop opts [Z.of_nat n] = Options.gen_of_list (combinations opts n).
Proof.
  rewrite min_max_loop_nonneg by (constructor; [lia | constructor]).
  simpl. by rewrite Nat2Z.id, app_nil_r.
Qed.

Lemma min_max_loop_negative opts (n : Z) ns :
  (n < 0)%Z →
  Options.min_max_loop opts (n :: ns)
  = {| Options.yielded := [];
       Options.raised := Some (ValueError "r must be non-negative") |}.
Proof.
  intros Hn. simpl. unfold itertools_combinations. by rewrite bool_decide_true by done.
Qed.

End n_of_facts.

(** X3. The generator classes agree where their meanings meet: choosing
    exactly one option is [OptionsOneOf], choosing as many as there are
    is [OptionsAllOf], choosing between none and all is
    [OptionsSubsets]; [OptionsOneOrNoneOf] yields the empty combination
    first and then every single option; choosing no option yields the
    empty combination alone, and choosing more options than there are
    yields nothing. *)
Theorem generator_classes_coincide {TKey TValue : Type} `{EqDecision TKey}
    (o : list TKey + list (TKey * TValue)) :
  let options := Options.OptionsGeneratorBase_init o in
  let d := Z.of_nat (length options) in
  Options.iter_options (Options.NOf o 1) = Options.iter_options (Options.OneOf o)
  ∧ Options.iter_options (Options.NOf o d) = Options.iter_options (Options.AllOf o)
  ∧ Options.iter_options (Options.MinMaxOf o 0 d) = Options.iter_options (Options.Subsets o)
  ∧ Options.iter_options (Options.OneOrNoneOf o)
    = Options.gen_of_list ([] :: map (fun option => [option]) (PyDict.values options))
  ∧ Options.iter_options (Options.NOf o 0) = Options.gen_of_list [[]]
  ∧ (∀ n, (d < n)%Z → Options.iter_options (Options.NOf o n) = Options.gen_of_list []).
Proof.
  intros options d.
  assert (Hlen : length (PyDict.values options) = length options).
  { unfold PyDict.values. apply length_fmap. }
  unfold Options.NOf, Options.OneOrNoneOf, Options.MinMaxOf, Options.OneOf,
    Options.AllOf, Options.Subsets. cbn [Options.iter_options]. fold options.
  split_and!.
  - rewrite range_single. change 1%Z with (Z.of_nat 1).
    by rewrite min_max_loop_single, combinations_1.
  - rewrite range_single. subst d.
    by rewrite min_max_loop_single, <- Hlen, combinations_full.
  - rewrite min_max_yielded by lia. unfold iter_subsets. f_equal. f_equal. f_equal.
    rewrite Hlen. subst d. lia.
  - rewrite min_max_yielded by lia. simpl.
    by rewrite combinations_0, combinations_1, app_nil_r.
  - rewrite range_single. change 0%Z with (Z.of_nat 0).
    by rewrite min_max_loop_single, combinations_0.
  - intros n Hn. rewrite range_single.
    rewrite <- (Z2Nat.id n) by lia.
    rewrite min_max_loop_single, combinations_gt; [done|]. rewrite Hlen. subst d. lia.
Qed.

(** X4. [OptionsMinMaxOf] with a negative smallest size that is not above
    the largest raises [ValueError] before it yields anything, whatever
    the options; with a smallest size above the largest it yields
    nothing and does not raise, negative sizes included. *)
Theorem min_max_of_size_bounds {TKey TValue : Type} `{EqDecision TKey}
    (o : list TKey + list (TKey * TValue)) (n_min n_max : Z) :
  ((n_min < 0)%Z → (n_min ≤ n_max)%Z →
   Options.iter_options (Options.MinMaxOf o n_min n_max)
   = {| Options.yielded := [];
        Options.raised := Some (ValueError "r must be non-negative") |})
  ∧ ((n_max < n_min)%Z →
     Options.iter_options (Options.MinMaxOf o n_min n_max) = Options.gen_of_list []).
Proof.
  unfold Options.MinMaxOf. cbn [Options.iter_options]. split.
  - intros Hneg Hle. rewrite range_cons by lia. by apply min_max_loop_negative.
  - intros Hlt. by rewrite range_empty by lia.
Qed.

(** ** Products: what is yielded and what is raised *)

Section product_members.
Context {A : Type}.
Implicit Types (r1s : list (list A)) (inner : Options.Gen (list A)).

Lemma product_loop_elem r1s raised1 inner c :
  c ∈ Options.yielded (Options.product_loop r1s raised1 inner) →
  ∃ r1 r2, r1 ∈ r1s ∧ r2 ∈ Options.yielded inner ∧ c = r1 ++ r2.
Proof.
  induction r1s as [|r1 r1s IH]; simpl.
  - intros Hc. by apply elem_of_nil in Hc.
  - assert (Hblock : c ∈ map (fun r2 => r1 ++ r2) (Options.yielded inner) →
                     ∃ r1' r2, r1' ∈ r1 :: r1s ∧ r2 ∈ Options.yielded inner ∧ c = r1' ++ r2).
    { intros Hc. change (map ?f ?l) with (f <$> l) in Hc.
      apply list_elem_of_fmap in Hc as (r2 & -> & Hr2).
      exists r1, r2. split_and!; [by left | done | done]. }
    destruct (Options.raised inner); simpl; [done|].
    rewrite elem_of_app. intros [Hc|Hc]; [by apply Hblock|].
    destruct (IH Hc) as (r1' & r2 & Hr1' & Hr2 & ->).
    exists r1', r2. split_and!; [by right | done | done].
Qed.

Lemma product_loop_first r1 r1s raised1 inner e :
  Options.raised inner = Some e →
  Options.product_loop (r1 :: r1s) raised1 inner
  = {| Options.yielded := map (fun r2 => r1 ++ r2) (Options.yielded inner);
       Options.raised := Some e |}.
Proof. intros Hin. simpl. by rewrite Hin. Qed.

Lemma product_loop_unit_r r1s raised1 :
  Options.product_loop r1s raised1 (Options.gen_of_list [[]])
  = {| Options.yielded := r1s; Options.raised := raised1 |}.
Proof.
  induction r1s as [|r1 r1s IH]; simpl; [done|]. by rewrite IH, app_nil_r.
Qed.

Lemma product_unit_l inner :
  Options.product (Options.gen_of_list [[]]) inner = inner.
Proof.
  unfold Options.product. simpl.
  assert (Hid : map (fun r2 : list A => r2) (Options.yielded inner) = Options.yielded inner)
    by apply map_id.
  destruct inner as [ys [e|]]; simpl in *; rewrite Hid; [done|].
  by rewrite app_nil_r.
Qed.

End product_members.

(** X5. What a product of two generators yields and raises.  When the
    second enumeration completes, the product yields [r1 + r2] for
    every pair, the first generator outermost, and ends as the first
    enumeration ends.  When the second enumeration raises, the product
    yields only the concatenations with the first item of the first
    generator and raises that exception; but when the first generator
    yields nothing, the second is never started and the product ends as
    the first does.  The generator of the empty collection is a unit of
    [times] on both sides. *)
Theorem product_yields_and_raises {TKey TValue : Type} `{EqDecision TKey}
    (G1 G2 : Options.OptionsGenerator TKey TValue) :
  let g1 := Options.iter_options G1 in
  let g2 := Options.iter_options G2 in
  let g := Options.iter_options (Options.times G1 G2) in
  (Options.raised g2 = None →
   Options.yielded g
   = flat_map (fun r1 => map (fun r2 => r1 ++ r2) (Options.yielded g2)) (Options.yielded g1)
   ∧ Options.raised g = Options.raised g1)
  ∧ (∀ e r1 rest, Options.raised g2 = Some e → Options.yielded g1 = r1 :: rest →
       Options.yielded g = map (fun r2 => r1 ++ r2) (Options.yielded g2)
       ∧ Options.raised g = Some e)
  ∧ (Options.yielded g1 = [] → g = g1)
  ∧ Options.iter_options (Options.times (Options.AllOf (inl [])) G2) = g2
  ∧ Options.iter_options (Options.times G1 (Options.AllOf (inl []))) = g1.
Proof.
  intros g1 g2 g. subst g. unfold Options.times. cbn [Options.iter_options].
  fold g1 g2. unfold Options.product. split_and!.
  - intros Hg2. by rewrite product_loop_complete.
  - intros e r1 rest Hg2 Hg1. rewrite Hg1. by rewrite (product_loop_first _ _ _ _ e).
  - intros Hg1. rewrite Hg1. simpl. apply gen_eq; simpl; done.
  - apply (product_unit_l g2).
  - change (Options.iter_options (Options.AllOf (inl [])))
      with (Options.gen_of_list (A := list (Options.Option TKey TValue)) [[]]).
    rewrite product_loop_unit_r. by destruct g1.
Qed.

(** X6. [OptionsProduct] concatenates and does not merge by key: every
    combination it yields is a combination of the first generator
    followed by one of the second, so when each generator yields
    combinations with distinct keys and the two share no key, every
    combination of the product has distinct keys. *)
Theorem product_of_disjoint_generators {TKey TValue : Type} `{EqDecision TKey}
    (G1 G2 : Options.OptionsGenerator TKey TValue) :
  let g1 := Options.iter_options G1 in
  let g2 := Options.iter_options G2 in
  let g := Options.iter_options (Options.OptionsProduct G1 G2) in
  (∀ c, c ∈ Options.yielded g1 → NoDup (Options.key <$> c)) →
  (∀ c, c ∈ Options.yielded g2 → NoDup (Options.key <$> c)) →
  (∀ c1 c2 k, c1 ∈ Options.yielded g1 → c2 ∈ Options.yielded g2 →
     k ∈ Options.key <$> c1 → k ∉ Options.key <$> c2) →
  ∀ c, c ∈ Options.yielded g →
    NoDup (Options.key <$> c)
    ∧ ∃ c1 c2, c1 ∈ Options.yielded g1 ∧ c2 ∈ Options.yielded g2 ∧ c = c1 ++ c2.
Proof.
  intros g1 g2 g H1 H2 Hdisj c Hc. subst g. cbn [Options.iter_options] in Hc.
  apply product_loop_elem in Hc as (c1 & c2 & Hc1 & Hc2 & ->). split.
  - rewrite fmap_app. apply NoDup_app. split_and!; [by apply H1 | | by apply H2].
    intros k. by apply Hdisj.
  - by exists c1, c2.
Qed.

Lemma product_of_disjoint_generators_witness :
  NoDup (Options.key <$> [ {| Options.key := "b"; Options.value := None |};
                           {| Options.key := "d"; Options.value := @None nat |} ]).
Proof.
  refine (proj1 (product_of_disjoint_generators one_of_ab zero_or_one_of_cd _ _ _ _ _)).
  - intros c Hc. vm_compute in Hc.
    repeat (apply elem_of_cons in Hc as [->|Hc]; [compute_done|]).
    by apply elem_of_nil in Hc.
  - intros c Hc. vm_compute in Hc.
    repeat (apply elem_of_cons in Hc as [->|Hc]; [compute_done|]).
    by apply elem_of_nil in Hc.
  - intros c1 c2 k Hc1 Hc2 Hk1 Hk2. vm_compute in Hc1, Hc2.
    repeat (apply elem_of_cons in Hc1 as [->|Hc1]); [..|by apply elem_of_nil in Hc1];
      repeat (apply elem_of_cons in Hc2 as [->|Hc2]); try (by apply elem_of_nil in Hc2);
      simpl in Hk1, Hk2; apply list_elem_of_singleton in Hk1 as ->;
      try (by apply elem_of_nil in Hk2); by apply list_elem_of_singleton in Hk2.
  - vm_compute. repeat first [by constructor 1 | constructor 2].
Defined.

(** ** The cache under repeated [set] *)

(** X7. After any sequence of [set] calls, [get] returns the value of
    the latest call whose combination has the equivalence key of the one
    asked for: earlier values under that key are overwritten, and calls
    under other keys do not interfere. *)
Theorem cache_latest_set_wins {Key V : Type} `{EquivalenceClass Key}
    (c : ValueCache.t Key V) (before after : list (list (string * PyVal) * option V))
    (p q : list (string * PyVal)) (v : option V) :
  _equivalence_class p = _equivalence_class q →
  Forall (fun s => _equivalence_class s.1 ≠ _equivalence_class q) after →
  ValueCache.get
    (fold_left (fun c s => ValueCache.set c s.1 s.2) (before ++ (p, v) :: after) c) q
  = v.
Proof.
  intros Hpq Hafter. rewrite fold_left_app. simpl.
  generalize (fold_left (fun c s => ValueCache.set c s.1 s.2) before c). intros c1.
  induction after as [|s after IH] using rev_ind.
  - simpl. by apply cache_get_set_same.
  - apply Forall_app in Hafter as [Hafter Hs]. rewrite Forall_singleton in Hs.
    rewrite fold_left_app. simpl. rewrite cache_get_set_other by done. by apply IH.
Qed.

Lemma cache_latest_set_wins_witness :
  ValueCache.get
    (fold_left (fun c s => ValueCache.set c s.1 s.2)
       ([([("a", PyInt 1)], Some 3)]
        ++ ([("a", PyInt 1); ("b", PyInt 0)], Some 4) :: [([("a", PyInt 2)], Some 5)])
       (ValueCache.init (Key := string) (V := nat)))
    [("a", PyInt 1); ("b", PyInt 9)]
  = Some 4.
Proof.
  apply cache_latest_set_wins.
  - reflexivity.
  - repeat constructor. compute_done.
Defined.

(** ** What [contains] consults *)

Lemma for_each_add_values_value_dicts records c c' :
  for_each records Collection.add_values c = Ok c' →
  Collection.value_dicts c' = Collection.value_dicts c.
Proof.
  revert c. induction records as [|r records IH]; intros c; simpl.
  - by intros [= ->].
  - destruct (Collection.add_values c r) as [c1|e] eqn:Hadd; simpl; [|done].
    intros Hrest. rewrite (IH _ Hrest). exact (add_values_value_dicts _ _ _ Hadd).
Qed.

(** X8. A collection that did not reload a table (constructed without a
    path, without incremental mode, or when no file exists at the path)
    never reports containment: after any calls of [add_values],
    [contains] returns [None] for every candidate, the records just
    added included. *)
Theorem fresh_collection_contains_nothing
    (itertuples_asdict : Collection.DataFrame → list (list (string * PyVal)))
    (csv_path sort_column_name : option string) (ascending incremental : bool)
    (existing : option Collection.DataFrame)
    (records : list (list (string * PyVal))) (c : Collection.t)
    (values : list (string * PyVal)) :
  csv_path = None ∨ incremental = false ∨ existing = None →
  for_each records Collection.add_values
    (Collection.init itertuples_asdict csv_path sort_column_name ascending
       incremental existing) = Ok c →
  Collection.contains c values = PyNone.
Proof.
  intros Hfresh Hrun. unfold Collection.contains.
  rewrite (for_each_add_values_value_dicts _ _ _ Hrun).
  unfold Collection.init.
  destruct Hfresh as [Hf|[Hf|Hf]]; subst.
  - done.
  - by destruct csv_path, existing.
  - by destruct csv_path.
Qed.

Lemma fresh_collection_contains_nothing_witness :
  ∃ c, for_each [[("a", PyInt 1)]] Collection.add_values
         (Collection.init itertuples_plain (Some "results.csv") None true false
            (Some sample_table)) = Ok c
       ∧ Collection.contains c [("a", PyInt 1)] = PyNone.
Proof.
  destruct (for_each [[("a", PyInt 1)]] Collection.add_values
              (Collection.init itertuples_plain (Some "results.csv") None true false
                 (Some sample_table))) as [c|e] eqn:Hrun; [|by vm_compute in Hrun].
  exists c. split; [done|].
  apply (fresh_collection_contains_nothing itertuples_plain (Some "results.csv") None
           true false (Some sample_table) [[("a", PyInt 1)]] c); [by right; left | done].
Defined.

Lemma py_eq_refl (v : PyVal) : py_eq v v = true.
Proof. destruct v; simpl; try done; by apply bool_decide_eq_true. Qed.

Lemma row_matches_items (row values : list (string * PyVal)) :
  (∀ k v, (k, v) ∈ values → PyDict.get row k = Some v) → row_matches row values = true.
Proof.
  intros Hitems. unfold row_matches. apply forallb_forall. intros [k v] Hkv.
  apply list_elem_of_In in Hkv. simpl. rewrite (Hitems k v Hkv). simpl.
  by rewrite py_eq_refl.
Qed.

Lemma row_matches_subseteq (row values values' : list (string * PyVal)) :
  values' ⊆ values → row_matches row values = true → row_matches row values' = true.
Proof.
  unfold row_matches. rewrite !forallb_forall. intros Hsub Hall kv Hkv.
  apply Hall. apply list_elem_of_In, Hsub. by apply list_elem_of_In.
Qed.

Lemma contains_loop_true rows values :
  Collection.contains_loop rows values = PyBool true
  ↔ ∃ row, row ∈ rows ∧ row_matches row values = true.
Proof.
  rewrite contains_loop_existsb.
  destruct (existsb _ rows) eqn:Hex.
  - apply existsb_exists in Hex as (row & Hin & Hrow). split; [|done].
    intros _. exists row. by rewrite list_elem_of_In.
  - split; [done|]. intros (row & Hin & Hrow).
    assert (Htrue : existsb (fun row => row_matches row values) rows = true).
    { apply existsb_exists. exists row. by rewrite <- list_elem_of_In. }
    congruence.
Qed.

(** X9. [contains] answers [True] or [None], never [False].  It finds a
    candidate all of whose items a reloaded row holds, whatever else the
    row holds; when it finds a candidate it finds every candidate made
    of some of its items; and the empty candidate is found as soon as
    one row was reloaded. *)
Theorem contains_finds_held_items (c : Collection.t) (values : list (string * PyVal)) :
  (Collection.contains c values = PyBool true ∨ Collection.contains c values = PyNone)
  ∧ (∀ row, row ∈ Collection.value_dicts c →
       (∀ k v, (k, v) ∈ values → PyDict.get row k = Some v) →
       Collection.contains c values = PyBool true)
  ∧ (∀ values', values' ⊆ values →
       Collection.contains c values = PyBool true →
       Collection.contains c values' = PyBool true)
  ∧ Collection.contains c []
    = match Collection.value_dicts c with [] => PyNone | _ :: _ => PyBool true end.
Proof.
  unfold Collection.contains. split_and!.
  - rewrite contains_loop_existsb. destruct (existsb _ _); auto.
  - intros row Hrow Hitems. apply contains_loop_true.
    exists row. split; [done | by apply row_matches_items].
  - intros values' Hsub. rewrite !contains_loop_true.
    intros (row & Hrow & Hmatch). exists row. split; [done|].
    by apply (row_matches_subseteq row values).
  - by destruct (Collection.value_dicts c).
Qed.

(** ** The first call of [add_values] *)

Lemma filter_all {B : Type} (P : B → Prop) `{∀ x, Decision (P x)} (l : list B) :
  Forall P l → filter P l = l.
Proof.
  induction 1 as [|x l Hx _ IH]; [done|]. by rewrite filter_cons_True, IH.
Qed.

Lemma list_remove_first_filter (s : string) (l : list string) :
  NoDup l → Collection.list_remove_first s l = filter (fun k => k ≠ s) l.
Proof.
  induction 1 as [|y l Hy Hnd IH]; simpl; [done|].
  rewrite filter_cons. destruct (decide (s = y)) as [->|Hne].
  - rewrite decide_False by (intros Hn; by apply Hn).
    symmetry. apply filter_all. apply Forall_forall. intros k Hk ->. done.
  - rewrite decide_True by done. by rewrite IH.
Qed.

Lemma sort_values_single (s : string) (ascending : bool) (cols : list string)
    (r : nat * list PyVal) :
  s ∈ cols →
  Collection.sort_values s ascending
    {| Collection.columns := cols; Collection.rows := [r] |}
  = Ok {| Collection.columns := cols; Collection.rows := [r] |}.
Proof.
  intros Hs. unfold Collection.sort_values. simpl.
  destruct (column_position_Some s cols Hs) as [i ->].
  rewrite !filter_cons, !filter_nil.
  destruct (Collection.is_missing (Collection.cell i r)) eqn:Hmiss.
  - rewrite decide_False, decide_True by done. done.
  - rewrite decide_True, decide_False by done. simpl.
    unfold Collection.comparable. simpl.
    destruct (Collection.cell i r); simpl in *; done.
Qed.

Lemma first_columns_perm (sort_column_name : option string) (keys : list string) :
  NoDup keys → first_columns sort_column_name keys ≡ₚ keys.
Proof.
  intros Hnd. unfold first_columns. destruct sort_column_name as [s|]; [|done].
  destruct (bool_decide (s ∈ keys)) eqn:Hs; [|done].
  apply bool_decide_eq_true in Hs. apply NoDup_Permutation; [|done|].
  - apply NoDup_cons. split; [|by apply NoDup_filter].
    rewrite list_elem_of_filter. by intros [? _].
  - intros k. rewrite elem_of_cons, list_elem_of_filter.
    destruct (decide (k = s)) as [->|Hk]; tauto.
Qed.

(** The first call on a collection without a table. *)
Lemma add_values_first (c : Collection.t) (values : list (string * PyVal)) :
  Collection.df c = None → Collection._current_row c = 0 →
  values ≠ [] → NoDup (PyDict.keys values) →
  let cols := first_columns (Collection.sort_column_name c) (PyDict.keys values) in
  ∃ c', Collection.add_values c values = Ok c'
        ∧ Collection.df c'
          = Some {| Collection.columns := cols;
                    Collection.rows := [(0, Collection.row_of cols values)] |}
        ∧ Collection._current_row c' = 1
        ∧ Collection.sort_column_name c' = Collection.sort_column_name c.
Proof.
  intros Hdf Hrow Hne Hnd cols.
  assert (Hprep : Collection.prepare_frame c values = Collection.DataFrame_new cols).
  { unfold Collection.prepare_frame. rewrite Hdf. f_equal. subst cols.
    unfold first_columns. destruct (Collection.sort_column_name c) as [s|]; [|done].
    destruct (bool_decide (s ∈ PyDict.keys values)); [|done].
    by rewrite list_remove_first_filter. }
  assert (Hcols : cols ≠ []).
  { intros Hnil. pose proof (first_columns_perm (Collection.sort_column_name c) _ Hnd) as Hperm.
    fold cols in Hperm. rewrite Hnil in Hperm. apply Permutation_nil_l in Hperm.
    destruct values as [|[k v] values]; [done|]. by rewrite dict_keys_cons in Hperm. }
  unfold Collection.add_values. rewrite Hprep, Hrow. unfold Collection.loc_set.
  cbn [Collection.columns Collection.rows Collection.DataFrame_new].
  rewrite bool_decide_false by done. cbn [mbind Result_bind PyDict.set].
  cbn [Collection.columns].
  assert (Hsorted :
    match Collection.sort_column_name c with
    | Some s =>
        if bool_decide (s ∈ cols)
        then Collection.reset_index
               <$> Collection.sort_values s (Collection.ascending c)
                     {| Collection.columns := cols;
                        Collection.rows := [(0, Collection.row_of cols values)] |}
        else Ok {| Collection.columns := cols;
                   Collection.rows := [(0, Collection.row_of cols values)] |}
    | None => Ok {| Collection.columns := cols;
                    Collection.rows := [(0, Collection.row_of cols values)] |}
    end = Ok {| Collection.columns := cols;
                Collection.rows := [(0, Collection.row_of cols values)] |}).
  { destruct (Collection.sort_column_name c) as [s|]; [|done].
    destruct (bool_decide (s ∈ cols)) eqn:Hs; [|done].
    apply bool_decide_eq_true in Hs. by rewrite sort_values_single. }
  rewrite Hsorted. cbn [mbind Result_bind]. eexists. split; [reflexivity|]. done.
Qed.

(** X10. The first call of [add_values] on a collection without a table
    returns for every record that is not empty, and creates the table:
    its columns are the keys of the record in their order, except that
    the sort column, if the record has it, is moved to the front; its
    single row, labelled 0, holds the record's values. *)
Theorem add_values_creates_table (c : Collection.t) (values : list (string * PyVal)) :
  Collection.df c = None → Collection._current_row c = 0 →
  values ≠ [] → NoDup (PyDict.keys values) →
  let cols := first_columns (Collection.sort_column_name c) (PyDict.keys values) in
  ∃ c', Collection.add_values c values = Ok c'
        ∧ Collection.df c'
          = Some {| Collection.columns := cols;
                    Collection.rows := [(0, Collection.row_of cols values)] |}
        ∧ Collection._current_row c' = 1
        ∧ cols ≡ₚ PyDict.keys values
        ∧ Forall2 (fun col cell => PyDict.get values col = Some cell)
            cols (Collection.row_of cols values).
Proof.
  intros Hdf Hrow Hne Hnd cols.
  destruct (add_values_first c values Hdf Hrow Hne Hnd) as (c' & Hadd & Hdf' & Hcur & _).
  assert (Hperm : cols ≡ₚ PyDict.keys values) by by apply first_columns_perm.
  exists c'. split_and!; [done | done | done | done |].
  unfold Collection.row_of. apply Forall2_fmap_r, Forall_Forall2_diag, Forall_forall.
  intros col Hcol. rewrite Hperm in Hcol. simpl.
  destruct (PyDict.get values col) as [v|] eqn:Hget; [done|].
  by apply dict_get_None_keys in Hget.
Qed.

Lemma add_values_creates_table_witness :
  ∃ c', Collection.add_values sample_sorted_collection [("a", PyInt 1); ("m", PyInt 5)] = Ok c'
        ∧ Collection.df c'
          = Some {| Collection.columns := ["m"; "a"];
                    Collection.rows := [(0, [PyInt 5; PyInt 1])] |}.
Proof.
  destruct (add_values_creates_table sample_sorted_collection
              [("a", PyInt 1); ("m", PyInt 5)] eq_refl eq_refl ltac:(done) ltac:(compute_done))
    as (c' & Hadd & Hdf & _).
  exists c'. split; [exact Hadd | exact Hdf].
Defined.

(** ** Tables that are not sorted *)

Lemma of_items_app {K V : Type} `{EqDecision K} (l1 l2 : list (K * V)) :
  PyDict.of_items (l1 ++ l2) = PyDict.update (PyDict.of_items l1) l2.
Proof. unfold PyDict.of_items, PyDict.update. apply fold_left_app. Qed.

Lemma update_fresh {K V : Type} `{EqDecision K} (d l : list (K * V)) :
  NoDup (PyDict.keys d ++ PyDict.keys l) → PyDict.update d l = d ++ l.
Proof.
  unfold PyDict.update. revert d. induction l as [|[k v] l IH]; intros d Hnd; simpl.
  - by rewrite app_nil_r.
  - rewrite dict_keys_cons in Hnd.
    assert (Hk : k ∉ PyDict.keys d).
    { apply NoDup_app in Hnd as (_ & Hdisj & _). intros Hin.
      apply (Hdisj k Hin). by left. }
    rewrite dict_set_fresh by done. rewrite IH.
    + by rewrite <- app_assoc.
    + rewrite dict_keys_app. simpl. by rewrite <- app_assoc.
Qed.

Lemma of_items_NoDup_id {K V : Type} `{EqDecision K} (l : list (K * V)) :
  NoDup (PyDict.keys l) → PyDict.of_items l = l.
Proof. intros Hnd. unfold PyDict.of_items. by rewrite update_fresh. Qed.

Lemma table_of_snoc cols records (r : list (string * PyVal)) :
  table_of cols (records ++ [r])
  = table_of cols records ++ [(length records, Collection.row_of cols r)].
Proof.
  unfold table_of. rewrite imap_app. simpl. by rewrite Nat.add_0_r.
Qed.

Lemma table_of_keys cols records :
  PyDict.keys (table_of cols records) = seq 0 (length records).
Proof.
  unfold table_of, PyDict.keys. rewrite fmap_imap.
  rewrite <- (list_fmap_id (seq 0 (length records))), <- (imap_seq_0 records id).
  by apply imap_ext.
Qed.

Lemma table_of_add_column cols (col : string) records :
  (∀ r, r ∈ records → col ∉ PyDict.keys r) →
  map (fun r : nat * list PyVal => (r.1, r.2 ++ [PyNone])) (table_of cols records)
  = table_of (cols ++ [col]) records.
Proof.
  intros Hcol. unfold table_of. change (map ?f ?l) with (f <$> l).
  rewrite fmap_imap. apply imap_ext. intros i r Hr. simpl.
  rewrite row_of_snoc; [done|]. apply Hcol. by eapply list_elem_of_lookup_2.
Qed.

(** The loop of [add_values] over the keys of the record, on a table
    that holds earlier records in order: the columns grow as the keys of
    a dictionary that is updated with the record. *)
Lemma add_columns_in_order (values D : list (string * PyVal)) (d : Collection.DataFrame)
    (records : list (list (string * PyVal))) :
  Collection.columns d = PyDict.keys D →
  Collection.rows d = table_of (Collection.columns d) records →
  (∀ r k, r ∈ records → k ∈ PyDict.keys r → k ∈ Collection.columns d) →
  let d1 :=
    fold_left
      (fun df col =>
         if bool_decide (col ∈ Collection.columns df) then df
         else Collection.add_column col df) (PyDict.keys values) d in
  Collection.columns d1 = PyDict.keys (PyDict.update D values)
  ∧ Collection.rows d1 = table_of (Collection.columns d1) records.
Proof.
  revert d D. induction values as [|[k v] values IH]; intros d D Hcols Hrows Hsub.
  - done.
  - rewrite dict_keys_cons. simpl.
    destruct (bool_decide (k ∈ Collection.columns d)) eqn:Hk.
    + apply bool_decide_eq_true in Hk. apply IH; [|done | done].
      rewrite dict_keys_set_in; [done|]. by rewrite <- Hcols.
    + apply bool_decide_eq_false in Hk. apply IH.
      * simpl. rewrite dict_keys_set_notin; [by rewrite Hcols|]. by rewrite <- Hcols.
      * simpl. rewrite Hrows. apply table_of_add_column.
        intros r Hr Hin. apply Hk. by apply (Hsub r).
      * intros r k' Hr Hk'. simpl. apply elem_of_app. left. by apply (Hsub r).
Qed.

Lemma concat_snoc {B : Type} (ls : list (list B)) (l : list B) :
  concat (ls ++ [l]) = concat ls ++ l.
Proof. rewrite concat_app. simpl. by rewrite app_nil_r. Qed.

Lemma elem_of_concat {B : Type} (ls : list (list B)) (x : B) :
  x ∈ concat ls ↔ ∃ l, x ∈ l ∧ l ∈ ls.
Proof.
  induction ls as [|l ls IH]; simpl.
  - split; [by intros ?%elem_of_nil | by intros (l & _ & ?%elem_of_nil)].
  - rewrite elem_of_app, IH. split.
    + intros [Hx|(l' & Hx & Hl')]; [exists l | exists l']; split; try done;
        apply elem_of_cons; auto.
    + intros (l' & Hx & Hl'). apply elem_of_cons in Hl' as [->|Hl']; [by left|].
      right. by exists l'.
Qed.

Lemma of_items_concat_keys (records : list (list (string * PyVal))) (k : string) :
  k ∈ PyDict.keys (PyDict.of_items (concat records))
  ↔ ∃ r, r ∈ records ∧ k ∈ PyDict.keys r.
Proof.
  rewrite of_items_keys_elem. unfold PyDict.keys. split.
  - intros Hk. apply list_elem_of_fmap in Hk as ([k' v] & -> & Hkv).
    apply elem_of_concat in Hkv as (r & Hkv & Hr).
    exists r. split; [done|]. apply list_elem_of_fmap. by exists (k', v).
  - intros (r & Hr & Hk). apply list_elem_of_fmap in Hk as ([k' v] & -> & Hkv).
    apply list_elem_of_fmap. exists (k', v). split; [done|].
    apply elem_of_concat. by exists r.
Qed.

Lemma add_values_in_order_step (c : Collection.t)
    (records : list (list (string * PyVal))) (values : list (string * PyVal)) :
  lists_in_order c records →
  Exists (fun r => r ≠ []) records →
  (∀ s, Collection.sort_column_name c = Some s →
        Forall (fun r => s ∉ PyDict.keys r) (records ++ [values])) →
  ∃ c', Collection.add_values c values = Ok c'
        ∧ lists_in_order c' (records ++ [values])
        ∧ Collection.sort_column_name c' = Collection.sort_column_name c.
Proof.
  intros (d & Hdf & Hcols & Hrows & Hcur) Hne Hsort.
  unfold Collection.add_values.
  assert (Hprep : Collection.prepare_frame c values
                  = fold_left
                      (fun df col =>
                         if bool_decide (col ∈ Collection.columns df) then df
                         else Collection.add_column col df) (PyDict.keys values) d).
  { unfold Collection.prepare_frame. by rewrite Hdf. }
  destruct (add_columns_in_order values (PyDict.of_items (concat records)) d records)
    as [Hcols1 Hrows1]; [done | done | |].
  { intros r k Hr Hk. rewrite Hcols. apply of_items_concat_keys. eauto. }
  rewrite <- Hprep in Hcols1, Hrows1.
  set (d1 := Collection.prepare_frame c values) in *.
  assert (Hcols2 : Collection.columns d1
                   = PyDict.keys (PyDict.of_items (concat (records ++ [values])))).
  { by rewrite concat_snoc, of_items_app. }
  assert (Hfilled : Collection.columns d1 ≠ []).
  { apply Exists_exists in Hne as (r & Hr & Hne).
    destruct r as [|[k v] r]; [done|].
    assert (Hk : k ∈ Collection.columns d1).
    { rewrite Hcols2. apply of_items_concat_keys. exists ((k, v) :: r). split.
      - apply elem_of_app. by left.
      - rewrite dict_keys_cons. by left. }
    intros Hnil. rewrite Hnil in Hk. by apply elem_of_nil in Hk. }
  unfold Collection.loc_set. rewrite bool_decide_false by done.
  cbn [mbind Result_bind Collection.columns].
  assert (Hnosort :
    match Collection.sort_column_name c with
    | Some s =>
        if bool_decide (s ∈ Collection.columns d1)
        then Collection.reset_index
               <$> Collection.sort_values s (Collection.ascending c)
                     {| Collection.columns := Collection.columns d1;
                        Collection.rows :=
                          PyDict.set (Collection._current_row c)
                            (Collection.row_of (Collection.columns d1) values)
                            (Collection.rows d1) |}
        else Ok {| Collection.columns := Collection.columns d1;
                   Collection.rows :=
                     PyDict.set (Collection._current_row c)
                       (Collection.row_of (Collection.columns d1) values)
                       (Collection.rows d1) |}
    | None => Ok {| Collection.columns := Collection.columns d1;
                    Collection.rows :=
                      PyDict.set (Collection._current_row c)
                        (Collection.row_of (Collection.columns d1) values)
                        (Collection.rows d1) |}
    end = Ok {| Collection.columns := Collection.columns d1;
                Collection.rows :=
                  PyDict.set (Collection._current_row c)
                    (Collection.row_of (Collection.columns d1) values)
                    (Collection.rows d1) |}).
  { destruct (Collection.sort_column_name c) as [s|]; [|done].
    rewrite bool_decide_false; [done|]. rewrite Hcols2, of_items_concat_keys.
    intros (r & Hr & Hk). specialize (Hsort s eq_refl).
    rewrite Forall_forall in Hsort. by apply (Hsort r). }
  rewrite Hnosort. cbn [mbind Result_bind]. eexists. split; [reflexivity|].
  split; [|done].
  eexists. split; [reflexivity|].
  cbn [Collection.columns Collection.rows Collection._current_row].
  split_and!.
  - done.
  - rewrite Hrows1, Hcur, table_of_snoc. apply dict_set_fresh.
    rewrite table_of_keys, elem_of_seq. lia.
  - rewrite length_app, Hcur. simpl. lia.
Qed.

Lemma add_values_in_order_first (c : Collection.t) (values : list (string * PyVal)) :
  Collection.df c = None → Collection._current_row c = 0 →
  values ≠ [] → NoDup (PyDict.keys values) →
  (∀ s, Collection.sort_column_name c = Some s → s ∉ PyDict.keys values) →
  ∃ c', Collection.add_values c values = Ok c'
        ∧ lists_in_order c' [values]
        ∧ Collection.sort_column_name c' = Collection.sort_column_name c.
Proof.
  intros Hdf Hrow Hne Hnd Hsort.
  destruct (add_values_first c values Hdf Hrow Hne Hnd) as (c' & Hadd & Hdf' & Hcur' & Hs').
  exists c'. split; [done|]. split; [|done].
  assert (Hfirst : first_columns (Collection.sort_column_name c) (PyDict.keys values)
                   = PyDict.keys values).
  { unfold first_columns. destruct (Collection.sort_column_name c) as [s|]; [|done].
    rewrite bool_decide_false; [done|]. by apply Hsort. }
  rewrite Hfirst in Hdf'.
  eexists. split; [exact Hdf'|]. simpl.
  rewrite app_nil_r, of_items_NoDup_id by done. done.
Qed.

Lemma add_values_in_order_all (c0 : Collection.t) (first : list (string * PyVal))
    (rest : list (list (string * PyVal))) :
  Collection.df c0 = None → Collection._current_row c0 = 0 →
  first ≠ [] → NoDup (PyDict.keys first) →
  (∀ s, Collection.sort_column_name c0 = Some s →
        Forall (fun r => s ∉ PyDict.keys r) (first :: rest)) →
  ∃ c, for_each (first :: rest) Collection.add_values c0 = Ok c
       ∧ lists_in_order c (first :: rest)
       ∧ Collection.sort_column_name c = Collection.sort_column_name c0.
Proof.
  intros Hdf Hrow Hne Hnd. induction rest as [|v rest IH] using rev_ind; intros Hsort.
  - destruct (add_values_in_order_first c0 first Hdf Hrow Hne Hnd) as (c & Hadd & Hc & Hs).
    { intros s Hs. specialize (Hsort s Hs). by rewrite Forall_singleton in Hsort. }
    exists c. simpl. rewrite Hadd. done.
  - destruct IH as (c1 & Hrun & Hc1 & Hs1).
    { intros s Hs. specialize (Hsort s Hs).
      rewrite app_comm_cons in Hsort. by apply Forall_app in Hsort as [? _]. }
    destruct (add_values_in_order_step c1 (first :: rest) v Hc1) as (c2 & Hadd & Hc2 & Hs2).
    { by left. }
    { intros s Hs. rewrite Hs1 in Hs. by apply Hsort. }
    exists c2. rewrite app_comm_cons, for_each_app, Hrun. simpl. rewrite Hadd.
    split_and!; [done | done | congruence].
Qed.

(** X11. A collection that never sorts (it has no sort column, or no
    record has a value for it) lists the records in call order: starting
    without a table, every sequence of [add_values] calls whose first
    record is not empty returns, the row at position [i], labelled [i],
    is the [i]-th record, and the columns are the keys of the records in
    the order in which the calls brought them up. *)
Theorem add_values_unsorted_keeps_call_order (c0 : Collection.t)
    (first : list (string * PyVal)) (rest : list (list (string * PyVal))) :
  Collection.df c0 = None → Collection._current_row c0 = 0 →
  first ≠ [] → NoDup (PyDict.keys first) →
  (∀ s, Collection.sort_column_name c0 = Some s →
        Forall (fun r => s ∉ PyDict.keys r) (first :: rest)) →
  let records := first :: rest in
  ∃ c d, for_each records Collection.add_values c0 = Ok c
         ∧ Collection.df c = Some d
         ∧ Collection.columns d = PyDict.keys (PyDict.of_items (concat records))
         ∧ Collection.columns d = reverse (remove_dups (reverse (concat records).*1))
         ∧ Collection.rows d = table_of (Collection.columns d) records
         ∧ (∀ i r, records !! i = Some r →
                   Collection.rows d !! i = Some (i, Collection.row_of (Collection.columns d) r))
         ∧ Collection._current_row c = length records.
Proof.
  intros Hdf Hrow Hne Hnd Hsort records.
  destruct (add_values_in_order_all c0 first rest Hdf Hrow Hne Hnd Hsort)
    as (c & Hrun & (d & Hd & Hcols & Hrows & Hcur) & _).
  exists c, d. split_and!; try done.
  - rewrite Hcols. apply of_items_keys_order.
  - intros i r Hi. rewrite Hrows. unfold table_of. rewrite list_lookup_imap.
    fold records. by rewrite Hi.
Qed.

Lemma add_values_unsorted_keeps_call_order_witness :
  ∃ c d, for_each sample_records Collection.add_values sample_plain_collection = Ok c
         ∧ Collection.df c = Some d
         ∧ Collection.columns d = ["a"; "m"; "b"]
         ∧ Collection.rows d !! 1 = Some (1, [PyNone; PyInt 7; PyStr "q"]).
Proof.
  destruct (add_values_unsorted_keeps_call_order sample_plain_collection
              [("a", PyInt 1); ("m", PyInt 5)] (tail sample_records)
              eq_refl eq_refl ltac:(done) ltac:(compute_done) ltac:(done))
    as (c & d & Hrun & Hd & Hcols & _ & _ & Hrows & _).
  exists c, d. split_and!; [exact Hrun | exact Hd | by rewrite Hcols |].
  rewrite (Hrows 1 _ eq_refl), Hcols. reflexivity.
Defined.

(** ** The number of combinations of a grid search *)

Lemma fold_left_mul_length {B : Type} (l : list (list B)) (a : nat) :
  fold_left (fun n options => n * length options) l a
  = a * foldr Nat.mul 1 (map (length (A := B)) l).
Proof.
  revert a. induction l as [|x l IH]; intros a; simpl; [lia|].
  rewrite IH. lia.
Qed.

Lemma count_combinations_product (d : list (string * list PyVal)) :
  GridSearch.count_combinations d = option_count_product d.
Proof.
  unfold GridSearch.count_combinations, option_count_product.
  rewrite fold_left_mul_length, Nat.mul_1_l. f_equal.
  unfold PyDict.values. change (map ?f ?l) with (f <$> l).
  by rewrite <- list_fmap_compose.
Qed.

Lemma fold_left_add_sum {B : Type} (f : B → nat) (l : list B) (a : nat) :
  fold_left (fun total b => total + f b) l a = a + sum_list (f <$> l).
Proof.
  revert a. induction l as [|x l IH]; intros a; csimpl; [lia|].
  rewrite IH. lia.
Qed.

Lemma length_concat_sum {B : Type} (ls : list (list B)) :
  length (concat ls) = sum_list (length <$> ls).
Proof.
  induction ls as [|l ls IH]; simpl; [done|]. by rewrite length_app, IH.
Qed.

Lemma enumerated_combinations_length (ds : list (list (string * list PyVal))) :
  Forall (fun d => NoDup (PyDict.keys d)) ds →
  length (enumerated_combinations ds) = sum_list (option_count_product <$> ds).
Proof.
  intros Hnd. unfold enumerated_combinations. rewrite length_concat_sum.
  change (map ?f ?l) with (f <$> l). rewrite <- list_fmap_compose. f_equal.
  apply Forall_fmap_ext_1. eapply Forall_impl; [exact Hnd|].
  intros d Hd. simpl. by rewrite iter_param_combinations_eq, cartesian_product_length.
Qed.

(** X12. The number of combinations that [GridSearch.__init__] computes is
    the number of combinations that [run] enumerates: the sum, over the
    mappings, of the product of the option counts.  A single mapping is
    always accepted; an empty list of mappings is rejected with
    [IndexError]. *)
Theorem num_combinations_counts_enumeration {D : Type}
    (num_processes : Z) (csv_results_path : option string)
    (incremental incremental_skip_existing : bool) (decider : option D)
    (model_save_directory name : option string) (now : string)
    (isdir : string → bool) :
  let construct parameter_options :=
    GridSearch.init parameter_options num_processes csv_results_path incremental
      incremental_skip_existing decider model_save_directory name now isdir in
  (∀ parameter_options gs,
     construct parameter_options = Ok gs →
     Forall (fun d => NoDup (PyDict.keys d)) (GridSearch.parameter_options_list gs) →
     GridSearch.num_combinations gs
     = length (enumerated_combinations (GridSearch.parameter_options_list gs))
     ∧ GridSearch.num_combinations gs
       = sum_list (option_count_product <$> GridSearch.parameter_options_list gs))
  ∧ (∀ d, ∃ gs, construct (inl d) = Ok gs
                ∧ GridSearch.parameter_options_list gs = [d]
                ∧ GridSearch.num_combinations gs = option_count_product d)
  ∧ construct (inr []) = Raise IndexError.
Proof.
  intros construct. subst construct. split_and!.
  - intros parameter_options gs Hinit Hnd.
    assert (Hnum : GridSearch.num_combinations gs
                   = sum_list (option_count_product <$> GridSearch.parameter_options_list gs)).
    { unfold GridSearch.init in Hinit.
      destruct (match parameter_options with inl d => [d] | inr l => l end)
        as [|d ds] eqn:Hlist; [done|].
      cbn [mbind Result_bind] in Hinit.
      destruct (GridSearch.check_keys _ _); [|done].
      cbn [mbind Result_bind] in Hinit. injection Hinit as <-.
      cbn [GridSearch.num_combinations GridSearch.parameter_options_list].
      rewrite fold_left_add_sum. csimpl. rewrite count_combinations_product.
      f_equal. f_equal. apply list_fmap_ext. intros _ d' _.
      apply count_combinations_product. }

    split; [|done]. by rewrite enumerated_combinations_length.
  - intros d. unfold GridSearch.init. cbn [mbind Result_bind tail GridSearch.check_keys].
    eexists. split; [reflexivity|].
    cbn [GridSearch.parameter_options_list GridSearch.num_combinations fold_left].
    split; [done|]. by rewrite count_combinations_product.
  - done.
Qed.

(** ** The values of an evaluation *)

Section eval_params_facts.
Context {Model D : Type} `{SkipDecider D}.
Context (model_factory : list (string * PyVal) → Model)
        (compute_metrics : Model → list (string * PyVal))
        (model_str : Model → string).

(** The values a call that is not skipped returns, the decider it
    leaves and the files it has saved. *)
Lemma eval_params_evaluates (d : option D) (name : string) (idx : nat)
    (dir : option string) (params : list (string * PyVal)) (files : list string) :
  decider_skips d params = false →
  ∃ values,
    GridSearch._eval_params model_factory compute_metrics model_str d name idx dir
      params files
    = (Some values, (fun d => tell d params values) <$> d,
       files ++ match dir with
                | Some dir => [saved_model_path dir name idx]
                | None => []
                end)
    ∧ values
      = PyDict.update
          (PyDict.set "str(model)" (PyStr (model_str (model_factory params)))
             match dir with
             | Some _ =>
                 PyDict.set "filename"
                   (PyStr (name +:+ "_" +:+ pretty idx +:+ ".pickle"))
                   (compute_metrics (model_factory params))
             | None => compute_metrics (model_factory params)
             end)
          params.
Proof.
  intros Hskip. unfold GridSearch._eval_params. unfold decider_skips in Hskip.
  rewrite Hskip. destruct dir as [dir|].
  - eexists. split; [reflexivity | done].
  - eexists. rewrite app_nil_r. split; [reflexivity | done].
Qed.

Lemma eval_params_skips (d : option D) (name : string) (idx : nat)
    (dir : option string) (params : list (string * PyVal)) (files : list string) :
  decider_skips d params = true →
  GridSearch._eval_params model_factory compute_metrics model_str d name idx dir
    params files
  = (None, d, files).
Proof.
  intros Hskip. unfold GridSearch._eval_params. unfold decider_skips in Hskip.
  by rewrite Hskip.
Qed.

End eval_params_facts.

(** X13. A call of [GridSearch._eval_params] that the skip decider skips
    returns [None], saves nothing and tells the decider nothing.  A call
    that is not skipped returns values that hold every parameter under
    its name, also where the evaluator reported a metric of that name;
    under the other keys they hold the text of the model under
    ["str(model)"], the file name under ["filename"] exactly when models
    are saved, and the evaluator's metrics; the decider is told once,
    and the model is saved exactly when a directory is configured. *)
Theorem eval_params_values {Model D : Type} `{SkipDecider D}
    (model_factory : list (string * PyVal) → Model)
    (compute_metrics : Model → list (string * PyVal))
    (model_str : Model → string)
    (d : option D) (name : string) (idx : nat) (dir : option string)
    (params : list (string * PyVal)) (files : list string) :
  NoDup (PyDict.keys params) →
  let result :=
    GridSearch._eval_params model_factory compute_metrics model_str d name idx dir
      params files in
  let model := model_factory params in
  let filename := name +:+ "_" +:+ pretty idx +:+ ".pickle" in
  if decider_skips d params then result = (None, d, files)
  else
    ∃ values,
      result
      = (Some values, (fun d => tell d params values) <$> d,
         files ++ match dir with
                  | Some dir => [dir +:+ "/" +:+ filename]
                  | None => []
                  end)
      ∧ (∀ k v, PyDict.get params k = Some v → PyDict.get values k = Some v)
      ∧ (∀ k, k ∉ PyDict.keys params →
           PyDict.get values k
           = if decide (k = "str(model)") then Some (PyStr (model_str model))
             else if decide (k = "filename")
             then match dir with
                  | Some _ => Some (PyStr filename)
                  | None => PyDict.get (compute_metrics model) k
                  end
             else PyDict.get (compute_metrics model) k).
Proof.
  intros Hnd result model filename. subst result.
  destruct (decider_skips d params) eqn:Hskip.
  - by apply eval_params_skips.
  - destruct (eval_params_evaluates model_factory compute_metrics model_str
                d name idx dir params files Hskip) as (values & Heval & Hvalues).
    exists values. split; [exact Heval|]. rewrite Hvalues. split.
    + intros k v Hk. by rewrite dict_get_update_NoDup, Hk.
    + intros k Hk. apply dict_get_None_keys in Hk.
      rewrite dict_get_update_NoDup, Hk by done.
      rewrite dict_get_set. fold model.
      destruct (decide ("str(model)" = k)) as [<-|Hne1]; [done|].
      rewrite decide_False by congruence.
      destruct dir as [dir|].
      * rewrite dict_get_set. fold filename.
        destruct (decide ("filename" = k)) as [<-|Hne2]; [done|].
        by rewrite decide_False by congruence.
      * by destruct (decide (k = "filename")).
Qed.

Lemma eval_params_values_witness :
  ∃ values,
    GridSearch._eval_params (D := nat) (fun p => p) (fun _ => [("a", PyInt 0); ("mse", PyInt 4)])
      sample_model_str (Some 0) "gs" 3 (Some "models") [("a", PyInt 5)] []
    = (Some values, Some 1, ["models/gs_3.pickle"])
    ∧ PyDict.get values "a" = Some (PyInt 5)
    ∧ PyDict.get values "mse" = Some (PyInt 4).
Proof.
  pose proof (eval_params_values (D := nat) (fun p => p)
                (fun _ => [("a", PyInt 0); ("mse", PyInt 4)]) sample_model_str
                (Some 0) "gs" 3 (Some "models") [("a", PyInt 5)] []
                ltac:(compute_done)) as Hv.
  simpl in Hv. destruct Hv as (values & Heval & Hparams & Hother).
  exists values. split_and!.
  - exact Heval.
  - by apply Hparams.
  - rewrite Hother by compute_done. reflexivity.
Defined.

(** ** The files of a run *)

Lemma string_length_app (s t : string) :
  String.length (s +:+ t) = String.length s + String.length t.
Proof. induction s as [|a s IH]; simpl; [done|]. by rewrite IH. Qed.

Lemma string_app_inj_r (s1 s2 t : string) : s1 +:+ t = s2 +:+ t → s1 = s2.
Proof.
  revert s2. induction s1 as [|a1 s1 IH]; intros [|a2 s2] Heq.
  - done.
  - apply (f_equal String.length) in Heq.
    rewrite !string_length_app in Heq. simpl in Heq. lia.
  - apply (f_equal String.length) in Heq.
    rewrite !string_length_app in Heq. simpl in Heq. lia.
  - change (String a1 (s1 +:+ t) = String a2 (s2 +:+ t)) in Heq.
    injection Heq as -> Heq. f_equal. by apply IH.
Qed.

Lemma saved_model_path_inj (dir name : string) (i j : nat) :
  saved_model_path dir name i = saved_model_path dir name j → i = j.
Proof.
  unfold saved_model_path. intros Heq.
  do 4 apply String.app_inj in Heq.
  apply string_app_inj_r in Heq. by apply pretty_nat_inj in Heq.
Qed.

Lemma numbered_fst {B : Type} (i : nat) (l : list B) :
  (numbered i l).*1 = seq i (length l).
Proof. unfold numbered. apply fst_zip. by rewrite length_seq. Qed.

Section run_files.
Context {Model D : Type} `{SkipDecider D}.
Context (model_factory : list (string * PyVal) → Model)
        (compute_metrics : Model → list (string * PyVal))
        (model_str : Model → string)
        (itertuples_asdict : Collection.DataFrame → list (list (string * PyVal))).
Implicit Types (gs : GridSearch.t (D := D)) (st : GridSearch.RunState (D := D)).

Lemma eval_params_files (d : option D) (name : string) (idx : nat)
    (dir : option string) (params : list (string * PyVal)) (files : list string) :
  let files' :=
    (GridSearch._eval_params model_factory compute_metrics model_str d name idx dir
       params files).2 in
  files' = files
  ∨ ∃ dir', dir = Some dir' ∧ files' = files ++ [saved_model_path dir' name idx].
Proof.
  destruct (decider_skips d params) eqn:Hskip.
  - left. by rewrite eval_params_skips.
  - destruct (eval_params_evaluates model_factory compute_metrics model_str d name
                idx dir params files Hskip) as (values & -> & _).
    destruct dir as [dir|]; simpl.
    + right. by exists dir.
    + left. apply app_nil_r.
Qed.

(** Appending a call, and perhaps its file. *)
Lemma saved_by_calls_step gs st (p : list (string * PyVal)) (files : list string)
    (calls : list (nat * list (string * PyVal))) :
  saved_by_calls gs st →
  calls = GridSearch.eval_calls st ++ [(GridSearch.combination_idx st, p)] →
  (files = GridSearch.saved_models st
   ∨ ∃ dir, GridSearch.model_save_directory gs = Some dir
            ∧ files = GridSearch.saved_models st
                      ++ [saved_model_path dir (GridSearch.name gs)
                            (GridSearch.combination_idx st)]) →
  ∃ calls', calls' `sublist_of` calls
            ∧ files = match GridSearch.model_save_directory gs with
                      | Some dir =>
                          map (fun call => saved_model_path dir (GridSearch.name gs) call.1)
                            calls'
                      | None => []
                      end.
Proof.
  intros (calls0 & Hsub & Hsaved) -> [->|(dir & Hdir & ->)].
  - exists calls0. split; [by apply sublist_inserts_r | done].
  - exists (calls0 ++ [(GridSearch.combination_idx st, p)]). split.
    + by apply sublist_app.
    + rewrite Hsaved, Hdir, map_app. done.
Qed.

Lemma sequential_body_files gs st p st' :
  saved_by_calls gs st →
  GridSearch.sequential_body model_factory compute_metrics model_str gs st p = Ok st' →
  saved_by_calls gs st'.
Proof.
  intros Hinv. unfold GridSearch.sequential_body.
  destruct (GridSearch.skip_existing gs _ p); [by intros [= <-]|].
  pose proof (eval_params_files (GridSearch.skip_decider st) (GridSearch.name gs)
                (GridSearch.combination_idx st) (GridSearch.model_save_directory gs)
                p (GridSearch.saved_models st)) as Hfiles.
  destruct (GridSearch._eval_params _ _ _ _ _ _ _ _ _) as [[values decider] files].
  simpl in Hfiles.
  destruct (GridSearch.collect_result values _) as [c|e]; simpl; [|done].
  intros [= <-]. unfold saved_by_calls. simpl.
  apply (saved_by_calls_step gs st p); [done | done |].
  destruct Hfiles as [->|(dir & Hdir & ->)]; [by left | right; by exists dir].
Qed.

Lemma parallel_body_files gs st p st' :
  saved_by_calls gs st →
  GridSearch.parallel_body model_factory compute_metrics model_str gs st p = Ok st' →
  saved_by_calls gs st'.
Proof.
  intros Hinv. unfold GridSearch.parallel_body.
  destruct (GridSearch.skip_existing gs _ p); [by intros [= <-]|].
  pose proof (eval_params_files (GridSearch.skip_decider st) (GridSearch.name gs)
                (GridSearch.combination_idx st) (GridSearch.model_save_directory gs)
                p (GridSearch.saved_models st)) as Hfiles.
  destruct (GridSearch._eval_params _ _ _ _ _ _ _ _ _) as [[values decider] files].
  simpl in Hfiles.
  intros [= <-]. unfold saved_by_calls. simpl.
  apply (saved_by_calls_step gs st p); [done | done |].
  destruct Hfiles as [->|(dir & Hdir & ->)]; [by left | right; by exists dir].
Qed.

Lemma for_each_files gs (body : GridSearch.RunState (D := D) → list (string * PyVal)
                                → Result (GridSearch.RunState (D := D)))
    combos st st' :
  (∀ st p st', saved_by_calls gs st → body st p = Ok st' → saved_by_calls gs st') →
  saved_by_calls gs st → for_each combos body st = Ok st' → saved_by_calls gs st'.
Proof.
  intros Hbody. revert st. induction combos as [|p combos IH]; intros st Hinv; simpl.
  - by intros [= <-].
  - destruct (body st p) as [st1|e] eqn:Hstep; simpl; [|done].
    apply IH. by apply (Hbody st p).
Qed.

Lemma for_each_drain_files futures st st' :
  for_each futures GridSearch.drain_body st = Ok st' →
  GridSearch.saved_models st' = GridSearch.saved_models st.
Proof.
  revert st. induction futures as [|v futures IH]; intros st; simpl.
  - by intros [= ->].
  - destruct (GridSearch.drain_body st v) as [st1|e] eqn:Hstep; simpl; [|done].
    intros Hrest. rewrite (IH _ Hrest). unfold GridSearch.drain_body in Hstep.
    destruct (GridSearch.collect_result v _) as [c|e]; simpl in Hstep; [|done].
    by injection Hstep as <-.
Qed.

(** The calls of a completed run are numbered from 0, and its files are
    those of some of the calls. *)
Lemma run_calls_and_files gs (sort_column_name : option string) (ascending : bool)
    (existing : option Collection.DataFrame) st :
  GridSearch.run model_factory compute_metrics model_str itertuples_asdict gs
    sort_column_name ascending existing = Ok st →
  (GridSearch.eval_calls st).*1 = seq 0 (length (GridSearch.eval_calls st))
  ∧ saved_by_calls gs st.
Proof.
  unfold GridSearch.run, GridSearch.enumerate. rewrite !for_each_concat.
  set (st0 := GridSearch.Build_RunState _ _ _ _ _ _).
  set (combos := concat _).
  assert (Hinv0 : saved_by_calls gs st0).
  { exists []. split; [done|]. simpl. by destruct (GridSearch.model_save_directory gs). }
  assert (Hnum : ∀ kept : list (list (string * PyVal)),
            ([] ++ numbered 0 kept).*1 = seq 0 (length ([] ++ numbered 0 kept))).
  { intros kept. simpl. rewrite numbered_fst. f_equal.
    unfold numbered. rewrite length_zip, length_seq. lia. }
  destruct (bool_decide (GridSearch.num_processes gs = 1%Z)).
  - intros Hrun. split.
    + apply (for_each_counts gs) in Hrun; [|apply sequential_body_counts].
      destruct Hrun as (_ & -> & _). apply Hnum.
    + exact (for_each_files gs _ combos st0 st (sequential_body_files gs) Hinv0 Hrun).
  - destruct (bool_decide (GridSearch.num_processes gs ≤ 0)%Z); [done|].
    destruct (for_each combos _ st0) as [st1|e] eqn:Henum; simpl; [|done].
    intros Hdrain.
    pose proof (for_each_drain_files _ _ _ Hdrain) as Hsaved.
    apply for_each_drain in Hdrain as [Hcalls _].
    pose proof (for_each_files gs _ combos st0 st1 (parallel_body_files gs) Hinv0 Henum)
      as Hinv1.
    apply (for_each_counts gs) in Henum; [|apply parallel_body_counts].
    destruct Henum as (_ & Hcalls1 & _). split.
    + rewrite Hcalls, Hcalls1. apply Hnum.
    + destruct Hinv1 as (calls & Hsub & Hfiles). exists calls.
      by rewrite Hcalls, Hsaved.
Qed.

End run_files.

(** X14. In a grid-search run that completes, sequential or with a
    process pool, no two models are saved under the same path: every
    saved file is the file of one call of [_eval_params], named by the
    name of the search and the index of the call, the files are saved in
    call order, and the indices of the calls are pairwise distinct. *)
Theorem saved_models_are_distinct {Model D : Type} `{SkipDecider D}
    (model_factory : list (string * PyVal) → Model)
    (compute_metrics : Model → list (string * PyVal))
    (model_str : Model → string)
    (itertuples_asdict : Collection.DataFrame → list (list (string * PyVal)))
    (gs : GridSearch.t (D := D)) (sort_column_name : option string)
    (ascending : bool) (existing : option Collection.DataFrame)
    (st : GridSearch.RunState (D := D)) :
  GridSearch.run model_factory compute_metrics model_str itertuples_asdict gs
    sort_column_name ascending existing = Ok st →
  NoDup (GridSearch.saved_models st)
  ∧ NoDup (GridSearch.eval_calls st).*1
  ∧ (∃ calls, calls `sublist_of` GridSearch.eval_calls st
              ∧ GridSearch.saved_models st
                = match GridSearch.model_save_directory gs with
                  | Some dir =>
                      map (fun call => saved_model_path dir (GridSearch.name gs) call.1)
                        calls
                  | None => []
                  end)
  ∧ (GridSearch.model_save_directory gs = None → GridSearch.saved_models st = []).
Proof.
  intros Hrun.
  destruct (run_calls_and_files _ _ _ _ _ _ _ _ _ Hrun) as [Hnum (calls & Hsub & Hsaved)].
  assert (Hnd : NoDup (GridSearch.eval_calls st).*1).
  { rewrite Hnum. apply NoDup_seq. }
  split_and!.
  - rewrite Hsaved. destruct (GridSearch.model_save_directory gs) as [dir|];
      [|apply NoDup_nil_2].
    replace (map (fun call : nat * list (string * PyVal) =>
                    saved_model_path dir (GridSearch.name gs) call.1) calls)
      with (saved_model_path dir (GridSearch.name gs) <$> calls.*1)
      by (by rewrite <- list_fmap_compose).
    apply NoDup_fmap_2.
    + intros i j. apply saved_model_path_inj.
    + apply (sublist_NoDup _ (GridSearch.eval_calls st).*1); [done|].
      by apply fmap_sublist.
  - done.
  - by exists calls.
  - intros Hdir. by rewrite Hsaved, Hdir.
Qed.

Lemma saved_models_are_distinct_witness :
  ∃ st,
    GridSearch.run (fun p => p) sample_compute_metrics sample_model_str
      itertuples_plain sample_grid_search_decider None true None = Ok st
    ∧ NoDup (GridSearch.saved_models st).
Proof.
  destruct (GridSearch.run (fun p => p) sample_compute_metrics sample_model_str
              itertuples_plain sample_grid_search_decider None true None)
    as [st|e] eqn:Hrun; [|by vm_compute in Hrun].
  exists st. split; [done|].
  exact (proj1 (saved_models_are_distinct _ _ _ _ _ _ _ _ _ Hrun)).
Defined.

(** ** The process pool against the sequential loop *)

Section pooled_facts.
Context {Model D : Type} `{SkipDecider D}.
Context (model_factory : list (string * PyVal) → Model)
        (compute_metrics : Model → list (string * PyVal))
        (model_str : Model → string)
        (itertuples_asdict : Collection.DataFrame → list (list (string * PyVal))).
Implicit Types (gs : GridSearch.t (D := D)) (st : GridSearch.RunState (D := D)).

#[local] Abbreviation collect :=
  (fun (c : Collection.t) (values : option (list (string * PyVal))) =>
     GridSearch.collect_result values c).
#[local] Abbreviation sequential_body :=
  (GridSearch.sequential_body model_factory compute_metrics model_str).
#[local] Abbreviation parallel_body :=
  (GridSearch.parallel_body model_factory compute_metrics model_str).
#[local] Abbreviation _eval_params :=
  (GridSearch._eval_params model_factory compute_metrics model_str).

(** Two deciders that decide alike lead to the same values and files. *)
Lemma eval_params_alike (d1 d2 : option D) (name : string) (idx : nat)
    (dir : option string) (p : list (string * PyVal)) (files : list string) :
  decider_skips d1 p = decider_skips d2 p →
  (_eval_params d1 name idx dir p files).1.1 = (_eval_params d2 name idx dir p files).1.1
  ∧ (_eval_params d1 name idx dir p files).2 = (_eval_params d2 name idx dir p files).2.
Proof.
  intros Halike. destruct (decider_skips d1 p) eqn:Hskip.
  - rewrite !eval_params_skips by done. done.
  - destruct (eval_params_evaluates model_factory compute_metrics model_str d1 name
                idx dir p files Hskip) as (v1 & -> & ->).
    destruct (eval_params_evaluates model_factory compute_metrics model_str d2 name
                idx dir p files (eq_sym Halike)) as (v2 & -> & ->).
    done.
Qed.

(** What a call leaves of a decider decides as the decider did, when
    the decisions are static. *)
Lemma eval_params_decider (d : option D) (name : string) (idx : nat)
    (dir : option string) (p : list (string * PyVal)) (files : list string) :
  d = None ∨ decides_statically D →
  let d' := (_eval_params d name idx dir p files).1.2 in
  (d = None → d' = None) ∧ ∀ q, decider_skips d' q = decider_skips d q.
Proof.
  intros Hstatic. destruct (decider_skips d p) eqn:Hskip.
  - rewrite eval_params_skips by done. done.
  - destruct (eval_params_evaluates model_factory compute_metrics model_str d name
                idx dir p files Hskip) as (v & -> & _).
    simpl. split; [by intros ->|]. intros q.
    destruct d as [d|]; [|done]. simpl.
    destruct Hstatic as [?|Hstatic]; [done | apply Hstatic].
Qed.

Lemma parallel_body_eq gs st p :
  parallel_body gs st p
  = if GridSearch.skip_existing gs (GridSearch.params_metrics_collection st) p
    then Ok st
    else
      let '(values, _, files) :=
        _eval_params (GridSearch.skip_decider st) (GridSearch.name gs)
          (GridSearch.combination_idx st) (GridSearch.model_save_directory gs) p
          (GridSearch.saved_models st) in
      Ok {| GridSearch.params_metrics_collection := GridSearch.params_metrics_collection st;
            GridSearch.skip_decider := GridSearch.skip_decider st;
            GridSearch.saved_models := files;
            GridSearch.combination_idx := S (GridSearch.combination_idx st);
            GridSearch.eval_calls :=
              GridSearch.eval_calls st ++ [(GridSearch.combination_idx st, p)];
            GridSearch.futures := GridSearch.futures st ++ [values] |}.
Proof. reflexivity. Qed.

Lemma sequential_body_eq gs st p :
  sequential_body gs st p
  = if GridSearch.skip_existing gs (GridSearch.params_metrics_collection st) p
    then Ok st
    else
      let '(values, decider, files) :=
        _eval_params (GridSearch.skip_decider st) (GridSearch.name gs)
          (GridSearch.combination_idx st) (GridSearch.model_save_directory gs) p
          (GridSearch.saved_models st) in
      c ← GridSearch.collect_result values (GridSearch.params_metrics_collection st);
      Ok {| GridSearch.params_metrics_collection := c;
            GridSearch.skip_decider := decider;
            GridSearch.saved_models := files;
            GridSearch.combination_idx := S (GridSearch.combination_idx st);
            GridSearch.eval_calls :=
              GridSearch.eval_calls st ++ [(GridSearch.combination_idx st, p)];
            GridSearch.futures := GridSearch.futures st |}.
Proof. reflexivity. Qed.

Lemma parallel_total gs combos st :
  ∃ st' new,
    for_each combos (parallel_body gs) st = Ok st'
    ∧ GridSearch.futures st' = GridSearch.futures st ++ new
    ∧ GridSearch.params_metrics_collection st' = GridSearch.params_metrics_collection st
    ∧ GridSearch.skip_decider st' = GridSearch.skip_decider st.
Proof.
  revert st. induction combos as [|p combos IH]; intros st.
  - exists st, []. by rewrite app_nil_r.
  - cbn [for_each]. rewrite parallel_body_eq.
    destruct (GridSearch.skip_existing gs _ p).
    + simpl. apply IH.
    + destruct (_eval_params _ _ _ _ _ _) as [[values decider] files]. simpl.
      destruct (IH {| GridSearch.params_metrics_collection :=
                        GridSearch.params_metrics_collection st;
                      GridSearch.skip_decider := GridSearch.skip_decider st;
                      GridSearch.saved_models := files;
                      GridSearch.combination_idx := S (GridSearch.combination_idx st);
                      GridSearch.eval_calls :=
                        GridSearch.eval_calls st ++ [(GridSearch.combination_idx st, p)];
                      GridSearch.futures := GridSearch.futures st ++ [values] |})
        as (st' & new & Hrun & Hfut & Hcoll & Hdec).
      exists st', (values :: new). simpl in *.
      split_and!; [done | by rewrite Hfut, <- app_assoc | done | done].
Qed.

(** The pool submits what the sequential loop evaluates, call by call;
    collecting the submitted results afterwards gives what the
    sequential loop collected on the way. *)
Lemma sequential_pooled_alike gs combos stS stP :
  GridSearch.skip_decider stS = None ∨ decides_statically D →
  (∀ q, decider_skips (GridSearch.skip_decider stS) q
        = decider_skips (GridSearch.skip_decider stP) q) →
  Collection.value_dicts (GridSearch.params_metrics_collection stS)
  = Collection.value_dicts (GridSearch.params_metrics_collection stP) →
  GridSearch.saved_models stS = GridSearch.saved_models stP →
  GridSearch.eval_calls stS = GridSearch.eval_calls stP →
  GridSearch.combination_idx stS = GridSearch.combination_idx stP →
  ∃ stP' new,
    for_each combos (parallel_body gs) stP = Ok stP'
    ∧ GridSearch.futures stP' = GridSearch.futures stP ++ new
    ∧ GridSearch.params_metrics_collection stP' = GridSearch.params_metrics_collection stP
    ∧ match for_each combos (sequential_body gs) stS with
      | Ok stS' =>
          for_each new collect (GridSearch.params_metrics_collection stS)
          = Ok (GridSearch.params_metrics_collection stS')
          ∧ GridSearch.saved_models stS' = GridSearch.saved_models stP'
          ∧ GridSearch.eval_calls stS' = GridSearch.eval_calls stP'
          ∧ GridSearch.combination_idx stS' = GridSearch.combination_idx stP'
      | Raise e =>
          for_each new collect (GridSearch.params_metrics_collection stS) = Raise e
      end.
Proof.
  revert stS stP. induction combos as [|p combos IH];
    intros stS stP Hstatic Halike Hvd Hsaved Hcalls Hidx.
  - exists stP, []. rewrite app_nil_r. simpl. done.
  - cbn [for_each]. rewrite sequential_body_eq, parallel_body_eq.
    rewrite (skip_existing_value_dicts gs _ _ p Hvd).
    destruct (GridSearch.skip_existing gs (GridSearch.params_metrics_collection stP) p).
    { simpl. by apply IH. }
    rewrite Hsaved, Hidx, Hcalls.
    pose proof (eval_params_alike (GridSearch.skip_decider stS) (GridSearch.skip_decider stP)
                  (GridSearch.name gs) (GridSearch.combination_idx stP)
                  (GridSearch.model_save_directory gs) p (GridSearch.saved_models stP)
                  (Halike p)) as [Hvalues Hfiles].
    pose proof (eval_params_decider (GridSearch.skip_decider stS) (GridSearch.name gs)
                  (GridSearch.combination_idx stP) (GridSearch.model_save_directory gs)
                  p (GridSearch.saved_models stP) Hstatic) as [Hnone Hdecides].
    destruct (_eval_params (GridSearch.skip_decider stS) _ _ _ _ _)
      as [[valuesS deciderS] filesS].
    destruct (_eval_params (GridSearch.skip_decider stP) _ _ _ _ _)
      as [[valuesP deciderP] filesP].
    simpl in Hvalues, Hfiles, Hnone, Hdecides. subst valuesP filesP. simpl.
    set (stP1 := GridSearch.Build_RunState _ _ _ _ _ _).
    destruct (GridSearch.collect_result valuesS (GridSearch.params_metrics_collection stS))
      as [c|e] eqn:Hcollect; simpl.
    + set (stS1 := GridSearch.Build_RunState _ _ _ _ _ _).
      destruct (IH stS1 stP1) as (stP' & new & Hrun & Hfut & Hcoll & Hseq).
      * destruct Hstatic as [Hn|?]; [left; by apply Hnone | by right].
      * intros q. simpl. by rewrite Hdecides.
      * simpl. rewrite <- Hvd. by apply collect_result_value_dicts in Hcollect.
      * done.
      * done.
      * done.
      * exists stP', (valuesS :: new). simpl in *.
        split_and!; [done | by rewrite Hfut, <- app_assoc | done |].
        by rewrite Hcollect.
    + destruct (parallel_total gs combos stP1) as (stP' & new & Hrun & Hfut & Hcoll & _).
      exists stP', (valuesS :: new). simpl in *.
      split_and!; [done | by rewrite Hfut, <- app_assoc | done |].
      by rewrite Hcollect.
Qed.

(** Collecting the results of the futures changes the collection only. *)
Lemma drain_collects futures st :
  run_outcome <$> for_each futures GridSearch.drain_body st
  = c ← for_each futures collect (GridSearch.params_metrics_collection st);
    Ok (c, GridSearch.saved_models st, GridSearch.eval_calls st,
        GridSearch.combination_idx st).
Proof.
  revert st. induction futures as [|v futures IH]; intros st; [done|].
  cbn [for_each].
  destruct (GridSearch.drain_body st v) as [st1|e] eqn:Hstep;
    unfold GridSearch.drain_body in Hstep;
    destruct (GridSearch.collect_result v (GridSearch.params_metrics_collection st))
      as [c|e'] eqn:Hc; simpl in Hstep; try done.
  - injection Hstep as <-. cbn [mbind Result_bind]. by rewrite IH.
  - by injection Hstep as <-.
Qed.

End pooled_facts.

(** X15. With a process pool a grid search collects what it collects
    sequentially, when there is no skip decider or the decider's
    decisions do not depend on what it has been told: both runs raise
    the same exception, or both complete with the same collection, the
    same saved files, the same calls under the same indices. *)
Theorem pooled_run_collects_like_sequential {Model D : Type} `{SkipDecider D}
    (model_factory : list (string * PyVal) → Model)
    (compute_metrics : Model → list (string * PyVal))
    (model_str : Model → string)
    (itertuples_asdict : Collection.DataFrame → list (list (string * PyVal)))
    (gs : GridSearch.t (D := D)) (n : Z) (sort_column_name : option string)
    (ascending : bool) (existing : option Collection.DataFrame) :
  (1 < n)%Z →
  GridSearch.parameter_combination_skip_decider gs = None ∨ decides_statically D →
  run_outcome
    <$> GridSearch.run model_factory compute_metrics model_str itertuples_asdict
          (with_num_processes n gs) sort_column_name ascending existing
  = run_outcome
      <$> GridSearch.run model_factory compute_metrics model_str itertuples_asdict
            (with_num_processes 1 gs) sort_column_name ascending existing.
Proof.
  intros Hn Hstatic. unfold GridSearch.run, GridSearch.enumerate.
  rewrite !for_each_concat.
  cbn [with_num_processes GridSearch.num_processes GridSearch.parameter_options_list
       GridSearch.csv_results_path GridSearch.incremental
       GridSearch.parameter_combination_skip_decider].
  rewrite (bool_decide_false (n = 1%Z)) by lia.
  rewrite (bool_decide_false (n ≤ 0)%Z) by lia.
  rewrite (bool_decide_true (1%Z = 1%Z)) by done.
  set (st0 := GridSearch.Build_RunState _ _ _ _ _ _).
  set (combos := concat _).
  destruct (sequential_pooled_alike model_factory compute_metrics model_str
              gs combos st0 st0) as (stP & new & Hpool & Hfut & Hcoll & Hseq);
    [done..|].
  change (GridSearch.parallel_body model_factory compute_metrics model_str
            (with_num_processes n gs))
    with (GridSearch.parallel_body model_factory compute_metrics model_str gs).
  change (GridSearch.sequential_body model_factory compute_metrics model_str
            (with_num_processes 1 gs))
    with (GridSearch.sequential_body model_factory compute_metrics model_str gs).
  rewrite Hpool. cbn [mbind Result_bind]. rewrite drain_collects, Hfut, Hcoll.
  simpl in *.
  destruct (for_each combos
              (GridSearch.sequential_body model_factory compute_metrics model_str gs) st0)
    as [stS|e].
  - destruct Hseq as (Hc & Hs & He & Hi). rewrite Hc. simpl.
    unfold run_outcome. by rewrite Hs, He, Hi.
  - by rewrite Hseq.
Qed.

Lemma pooled_run_collects_like_sequential_witness :
  run_outcome
    <$> GridSearch.run (fun p => p) sample_compute_metrics sample_model_str
          itertuples_plain (with_num_processes 4 sample_grid_search_decider) None true None
  = run_outcome
      <$> GridSearch.run (fun p => p) sample_compute_metrics sample_model_str
            itertuples_plain (with_num_processes 1 sample_grid_search_decider) None true None.
Proof.
  apply pooled_run_collects_like_sequential; [lia|].
  right. intros d params metrics candidate. reflexivity.
Defined.

(** ** The table of a grid search *)

Section tabulation_facts.
Context {Model D : Type} `{SkipDecider D}.
Context (model_factory : list (string * PyVal) → Model)
        (compute_metrics : Model → list (string * PyVal))
        (model_str : Model → string)
        (itertuples_asdict : Collection.DataFrame → list (list (string * PyVal))).
Implicit Types (gs : GridSearch.t (D := D)) (st : GridSearch.RunState (D := D)).

Lemma skip_existing_off gs (c : Collection.t) (p : list (string * PyVal)) :
  GridSearch.incremental gs = false → GridSearch.skip_existing gs c p = false.
Proof.
  intros Hinc. unfold GridSearch.skip_existing. by rewrite Hinc, andb_false_r.
Qed.

Lemma eval_params_holds (name : string) (idx : nat) (dir : option string)
    (p : list (string * PyVal)) (files : list string) :
  NoDup (PyDict.keys p) →
  ∃ values files',
    GridSearch._eval_params (D := D) model_factory compute_metrics model_str None name
      idx dir p files
    = (Some values, None, files')
    ∧ holds_params p values.
Proof.
  intros Hnd.
  destruct (eval_params_evaluates (D := D) model_factory compute_metrics model_str None
              name idx dir p files eq_refl) as (values & Heval & Hvalues).
  exists values. eexists. split; [exact Heval|].
  intros k v Hk. by rewrite Hvalues, dict_get_update_NoDup, Hk.
Qed.

Lemma sequential_collects gs combos st st' :
  GridSearch.skip_decider st = None →
  GridSearch.incremental gs = false →
  Forall (fun p => NoDup (PyDict.keys p)) combos →
  for_each combos (GridSearch.sequential_body model_factory compute_metrics model_str gs) st
  = Ok st' →
  ∃ records,
    Forall2 holds_params combos records
    ∧ for_each records Collection.add_values (GridSearch.params_metrics_collection st)
      = Ok (GridSearch.params_metrics_collection st').
Proof.
  intros Hdec Hinc Hnd. revert st Hdec.
  induction Hnd as [|p combos Hp _ IH]; intros st Hdec.
  - intros [= <-]. by exists [].
  - cbn [for_each]. rewrite sequential_body_eq, skip_existing_off, Hdec by done.
    destruct (eval_params_holds (GridSearch.name gs) (GridSearch.combination_idx st)
                (GridSearch.model_save_directory gs) p (GridSearch.saved_models st) Hp)
      as (values & files' & -> & Hholds).
    cbn [GridSearch.collect_result].
    destruct (Collection.add_values _ values) as [c|e] eqn:Hadd; simpl; [|done].
    intros Hrest. apply IH in Hrest as (records & Hrecords & Hrun); [|done].
    exists (values :: records). split; [by constructor|].
    simpl in *. by rewrite Hadd.
Qed.

Lemma pooled_collects gs combos st st' :
  GridSearch.skip_decider st = None →
  GridSearch.incremental gs = false →
  Forall (fun p => NoDup (PyDict.keys p)) combos →
  for_each combos (GridSearch.parallel_body model_factory compute_metrics model_str gs) st
  = Ok st' →
  ∃ records,
    Forall2 holds_params combos records
    ∧ GridSearch.futures st' = GridSearch.futures st ++ (Some <$> records)
    ∧ GridSearch.params_metrics_collection st' = GridSearch.params_metrics_collection st.
Proof.
  intros Hdec Hinc Hnd. revert st Hdec.
  induction Hnd as [|p combos Hp _ IH]; intros st Hdec.
  - intros [= <-]. exists []. by rewrite app_nil_r.
  - cbn [for_each]. rewrite parallel_body_eq, skip_existing_off, Hdec by done.
    destruct (eval_params_holds (GridSearch.name gs) (GridSearch.combination_idx st)
                (GridSearch.model_save_directory gs) p (GridSearch.saved_models st) Hp)
      as (values & files' & -> & Hholds).
    simpl. intros Hrest.
    apply IH in Hrest as (records & Hrecords & Hfut & Hcoll); [|done].
    exists (values :: records). simpl in *.
    split_and!; [by constructor | by rewrite Hfut, <- app_assoc | done].
Qed.

Lemma drain_records (records : list (list (string * PyVal))) st st' :
  for_each (Some <$> records) GridSearch.drain_body st = Ok st' →
  for_each records Collection.add_values (GridSearch.params_metrics_collection st)
  = Ok (GridSearch.params_metrics_collection st').
Proof.
  revert st. induction records as [|r records IH]; intros st.
  - by intros [= <-].
  - rewrite fmap_cons. cbn [for_each].
    destruct (GridSearch.drain_body st (Some r)) as [st1|e] eqn:Hstep; simpl; [|done].
    unfold GridSearch.drain_body in Hstep. simpl in Hstep.
    destruct (Collection.add_values _ r) as [c|e]; simpl in Hstep; [|done].
    injection Hstep as <-. intros Hrest. by apply IH in Hrest.
Qed.

(** What a run without skip decider and without incremental mode has
    collected when it completes: one record per enumerated combination,
    in order, each holding the parameters of its combination. *)
Lemma run_collects gs (sort_column_name : option string) (ascending : bool)
    (existing : option Collection.DataFrame) st :
  GridSearch.parameter_combination_skip_decider gs = None →
  GridSearch.incremental gs = false →
  Forall (fun d => NoDup (PyDict.keys d)) (GridSearch.parameter_options_list gs) →
  GridSearch.run model_factory compute_metrics model_str itertuples_asdict gs
    sort_column_name ascending existing = Ok st →
  ∃ c0 records,
    Collection.df c0 = None ∧ Collection._current_row c0 = 0
    ∧ Collection.sort_column_name c0 = sort_column_name
    ∧ Collection.ascending c0 = ascending
    ∧ Forall2 holds_params
        (enumerated_combinations (GridSearch.parameter_options_list gs)) records
    ∧ for_each records Collection.add_values c0
      = Ok (GridSearch.params_metrics_collection st).
Proof.
  intros Hdec Hinc Hnd. unfold GridSearch.run, GridSearch.enumerate.
  rewrite !for_each_concat. fold (enumerated_combinations (GridSearch.parameter_options_list gs)).
  set (c0 := Collection.init _ _ _ _ _ _).
  assert (Hc0 : Collection.df c0 = None ∧ Collection._current_row c0 = 0
                ∧ Collection.sort_column_name c0 = sort_column_name
                ∧ Collection.ascending c0 = ascending).
  { subst c0. unfold Collection.init. rewrite Hinc.
    by destruct (GridSearch.csv_results_path gs), existing. }
  destruct Hc0 as (Hdf & Hrow & Hsort & Hasc).
  set (st0 := GridSearch.Build_RunState _ _ _ _ _ _).
  assert (Hcombos : Forall (fun p : list (string * PyVal) => NoDup (PyDict.keys p))
                      (enumerated_combinations (GridSearch.parameter_options_list gs))).
  { unfold enumerated_combinations. apply Forall_forall. intros p Hp.
    apply elem_of_concat in Hp as (l & Hp & Hl).
    change (map ?f ?l) with (f <$> l) in Hl.
    apply list_elem_of_fmap in Hl as (d & -> & Hd).
    rewrite Forall_forall in Hnd. specialize (Hnd d Hd).
    rewrite iter_param_combinations_eq in Hp by done.
    pose proof (cartesian_product_keys d) as Hkeys.
    rewrite Forall_forall in Hkeys. by rewrite (Hkeys p Hp). }
  destruct (bool_decide (GridSearch.num_processes gs = 1%Z)).
  - intros Hrun.
    destruct (sequential_collects gs _ st0 st Hdec Hinc Hcombos Hrun) as (records & Hrec & Hadd).
    exists c0, records. done.
  - destruct (bool_decide (GridSearch.num_processes gs ≤ 0)%Z); [done|].
    destruct (for_each _ _ st0) as [st1|e] eqn:Henum; simpl; [|done].
    destruct (pooled_collects gs _ st0 st1 Hdec Hinc Hcombos Henum)
      as (records & Hrec & Hfut & Hcoll).
    simpl in Hfut. rewrite Hfut. intros Hdrain. apply drain_records in Hdrain.
    rewrite Hcoll in Hdrain. exists c0, records. done.
Qed.

End tabulation_facts.

(** X16. A grid search without skip decider and without incremental
    mode, over mappings with at least one combination, ends (when it
    completes, sequentially or with a pool) with a table of exactly one
    row per enumerated combination: every parameter name is a column,
    and every combination has a row whose cells under the parameter
    columns are the values of the combination. *)
Theorem run_tabulates_every_combination {Model D : Type} `{SkipDecider D}
    (model_factory : list (string * PyVal) → Model)
    (compute_metrics : Model → list (string * PyVal))
    (model_str : Model → string)
    (itertuples_asdict : Collection.DataFrame → list (list (string * PyVal)))
    (gs : GridSearch.t (D := D)) (sort_column_name : option string)
    (ascending : bool) (existing : option Collection.DataFrame)
    (st : GridSearch.RunState (D := D)) :
  GridSearch.parameter_combination_skip_decider gs = None →
  GridSearch.incremental gs = false →
  Forall (fun d => NoDup (PyDict.keys d)) (GridSearch.parameter_options_list gs) →
  GridSearch.run model_factory compute_metrics model_str itertuples_asdict gs
    sort_column_name ascending existing = Ok st →
  let combos := enumerated_combinations (GridSearch.parameter_options_list gs) in
  combos ≠ [] →
  ∃ d, Collection.get_data_frame (GridSearch.params_metrics_collection st) = Some d
       ∧ length (Collection.rows d) = length combos
       ∧ (∀ p k, p ∈ combos → k ∈ PyDict.keys p → k ∈ Collection.columns d)
       ∧ (∀ p, p ∈ combos →
            ∃ cells, cells ∈ (Collection.rows d).*2
                     ∧ ∀ k v j, PyDict.get p k = Some v →
                                Collection.columns d !! j = Some k →
                                cells !! j = Some v).
Proof.
  intros Hdec Hinc Hnd Hrun combos Hne.
  destruct (run_collects _ _ _ _ _ _ _ _ _ Hdec Hinc Hnd Hrun)
    as (c0 & records & Hdf0 & Hrow0 & _ & _ & Hrecords & Hadd).
  fold combos in Hrecords.
  assert (Htab0 : tabulates c0 []). { unfold tabulates. by rewrite Hdf0. }
  destruct (add_values_all c0 _ [] records Htab0 Hadd) as (Htab & _ & _ & Hsome).
  destruct Hsome as (d & Hd & _).
  { intros ->. apply Forall2_nil_inv_r in Hrecords. done. }
  simpl in Htab. unfold tabulates in Htab. rewrite Hd in Htab.
  destruct Htab as (_ & _ & Hcols & Hrows).
  exists d. split_and!.
  - done.
  - rewrite <- (length_fmap snd), Hrows, length_map.
    symmetry. by apply Forall2_length in Hrecords.
  - intros p k Hp Hk. apply list_elem_of_lookup in Hp as [i Hi].
    destruct (Forall2_lookup_l _ _ _ _ _ Hrecords Hi) as (r & Hr & Hholds).
    apply Hcols. exists r. split; [by eapply list_elem_of_lookup_2|].
    destruct (PyDict.get p k) as [v|] eqn:Hget.
    + apply Hholds in Hget. by apply dict_get_Some_keys in Hget.
    + by apply dict_get_None_keys in Hget.
  - intros p Hp. apply list_elem_of_lookup in Hp as [i Hi].
    destruct (Forall2_lookup_l _ _ _ _ _ Hrecords Hi) as (r & Hr & Hholds).
    exists (Collection.row_of (Collection.columns d) r). split.
    + rewrite Hrows. change (map ?f ?l) with (f <$> l). apply list_elem_of_fmap.
      exists r. split; [done | by eapply list_elem_of_lookup_2].
    + intros k v j Hget Hj. unfold Collection.row_of.
      change (map ?f ?l) with (f <$> l). rewrite list_lookup_fmap, Hj. simpl.
      by rewrite (Hholds k v Hget).
Qed.

Lemma run_tabulates_every_combination_witness :
  ∃ st d,
    GridSearch.run (fun p => p) sample_compute_metrics sample_model_str
      itertuples_plain sample_grid_search_pool (Some "mse") true None = Ok st
    ∧ Collection.get_data_frame (GridSearch.params_metrics_collection st) = Some d
    ∧ length (Collection.rows d) = 5.
Proof.
  destruct (GridSearch.run (fun p => p) sample_compute_metrics sample_model_str
              itertuples_plain sample_grid_search_pool (Some "mse") true None)
    as [st|e] eqn:Hrun; [|by vm_compute in Hrun].
  destruct (run_tabulates_every_combination (fun p => p) sample_compute_metrics
              sample_model_str itertuples_plain sample_grid_search_pool (Some "mse")
              true None st eq_refl eq_refl
              ltac:(repeat constructor; compute_done) Hrun ltac:(done))
    as (d & Hd & Hlen & _).
  exists st, d. split_and!; [done | done | exact Hlen].
Defined.

(** ** The best parameters of a result *)

Lemma py_le_trans (a b c : PyVal) :
  Collection.py_le a b = true → Collection.py_le b c = true → Collection.py_le a c = true.
Proof.
  destruct a as [|x|x|x], b as [|y|y|y], c as [|z|z|z]; simpl; try done;
    rewrite ?bool_decide_eq_true; try lia.
  intros Hxy Hyz. apply Is_true_true. apply Is_true_true in Hxy, Hyz.
  change (String.le x z). by transitivity y.
Qed.

Lemma py_le_refl (a : PyVal) : Collection.is_missing a = false → Collection.py_le a a = true.
Proof.
  destruct a as [|x|x|x]; simpl; try done; intros _.
  - by apply bool_decide_eq_true.
  - by apply bool_decide_eq_true.
  - apply Is_true_true. change (String.le x x). done.
Qed.

Lemma in_order_trans (ascending : bool) (a b c : PyVal) :
  Collection.in_order ascending a b = true → Collection.in_order ascending b c = true →
  Collection.in_order ascending a c = true.
Proof.
  unfold Collection.in_order. destruct ascending.
  - apply py_le_trans.
  - intros Hba Hcb. by apply (py_le_trans c b a).
Qed.

Lemma in_order_refl (ascending : bool) (a : PyVal) :
  Collection.is_missing a = false → Collection.in_order ascending a a = true.
Proof. unfold Collection.in_order. destruct ascending; apply py_le_refl. Qed.

(** The first cell of a sorted column is in order with every present
    cell, and is missing only if all cells are. *)
Lemma column_sorted_first (ascending : bool) (v : PyVal) (cells : list PyVal) :
  column_sorted ascending (v :: cells) →
  (∀ w, w ∈ v :: cells → Collection.is_missing w = false →
        Collection.in_order ascending v w = true)
  ∧ (Collection.is_missing v = true →
     ∀ w, w ∈ v :: cells → Collection.is_missing w = true).
Proof.
  intros (present & missing & Hcells & Hpresent & Hmissing & Hsorted).
  destruct present as [|v' present].
  - simpl in Hcells. subst missing. rewrite Forall_forall in Hmissing. split.
    + intros w Hw Hnot. rewrite (Hmissing w Hw) in Hnot. done.
    + intros _ w Hw. by apply Hmissing.
  - injection Hcells as <- ->. apply Forall_cons in Hpresent as [Hv Hpresent].
    split; [|by rewrite Hv].
    intros w Hw Hnot.
    assert (Hin : w ∈ v :: present).
    { rewrite app_comm_cons in Hw. apply elem_of_app in Hw as [Hw|Hw]; [done|].
      rewrite Forall_forall in Hmissing. rewrite (Hmissing w Hw) in Hnot. done. }
    apply Sorted_StronglySorted in Hsorted.
    + apply StronglySorted_inv in Hsorted as [_ Hall].
      apply elem_of_cons in Hin as [->|Hin]; [by apply in_order_refl|].
      rewrite List.Forall_forall in Hall. apply Hall. by apply list_elem_of_In.
    + intros x y z. apply in_order_trans.
Qed.

Section best_params_facts.
Implicit Types (self : GridSearchResult.t) (d : Collection.DataFrame).

(** The loop of [get_best_params] over the parameter names, on a table
    with a first row. *)
Lemma best_params_loop (cols : list string) (r : nat * list PyVal)
    (rest : list (nat * list PyVal)) (names : list string)
    (acc best_params : list (string * PyVal)) :
  for_each names
    (fun best_params param =>
       row ← GridSearchResult.iloc0
                {| Collection.columns := cols; Collection.rows := r :: rest |};
       v ← GridSearchResult.row_get row param;
       Ok (PyDict.set param v best_params))
    acc = Ok best_params →
  (∀ param, param ∈ names →
     ∃ j, Collection.column_position param cols = Some j
          ∧ PyDict.get best_params param = Some (nth j r.2 PyNone))
  ∧ (∀ k, k ∉ names → PyDict.get best_params k = PyDict.get acc k).
Proof.
  revert acc. induction names as [|name names IH]; intros acc; simpl.
  - intros [= <-]. split; [|done]. intros param Hin. by apply elem_of_nil in Hin.
  - unfold GridSearchResult.row_get. simpl.
    destruct (Collection.column_position name cols) as [j|] eqn:Hj; simpl; [|done].
    intros Hrest. destruct (IH _ Hrest) as [Hnames Hother]. split.
    + intros param Hin. destruct (decide (param ∈ names)) as [Hn|Hn]; [by apply Hnames|].
      apply elem_of_cons in Hin as [->|Hin]; [|done].
      exists j. split; [done|]. by rewrite (Hother name Hn), dict_get_set_eq.
    + intros k Hk. apply not_elem_of_cons in Hk as [Hne Hk].
      rewrite (Hother k Hk). by apply dict_get_set_ne.
Qed.

Lemma best_params_loop_empty (cols : list string) (names : list string)
    (acc : list (string * PyVal)) :
  names ≠ [] →
  for_each names
    (fun best_params param =>
       row ← GridSearchResult.iloc0
                {| Collection.columns := cols; Collection.rows := [] |};
       v ← GridSearchResult.row_get row param;
       Ok (PyDict.set param v best_params))
    acc = Raise IndexError.
Proof. by destruct names. Qed.

(** What a call of [get_best_params] that returns has done. *)
Lemma get_best_params_returns self (metric_name : option string)
    (higher_is_better : option bool) (best : GridSearchResult.BestParams) :
  GridSearchResult.get_best_params self metric_name higher_is_better = Ok best →
  ∃ m h d d' i r rest,
    or_default metric_name (GridSearchResult.default_metric_name self) = Some m
    ∧ or_default higher_is_better (GridSearchResult.default_higher_is_better self) = Some h
    ∧ GridSearchResult.df self = Some d
    ∧ Collection.sort_values m (negb h) d = Ok d'
    ∧ Collection.column_position m (Collection.columns d') = Some i
    ∧ Collection.rows d' = r :: rest
    ∧ GridSearchResult.metric_name best = m
    ∧ GridSearchResult.metric_value best = nth i r.2 PyNone
    ∧ ∀ param, param ∈ GridSearchResult.param_names self →
        ∃ j, Collection.column_position param (Collection.columns d') = Some j
             ∧ PyDict.get (GridSearchResult.params best) param = Some (nth j r.2 PyNone).
Proof.
  unfold GridSearchResult.get_best_params.
  destruct (match metric_name with Some _ => _ | None => _ end) as [m|e] eqn:Hm;
    cbn [mbind Result_bind]; [|done].
  destruct (match higher_is_better with Some _ => _ | None => _ end) as [h|e] eqn:Hh;
    cbn [mbind Result_bind]; [|done].
  destruct (GridSearchResult.df self) as [d|] eqn:Hd; cbn [mbind Result_bind]; [|done].
  destruct (Collection.sort_values m (negb h) d) as [d'|e] eqn:Hsort;
    cbn [mbind Result_bind]; [|done].
  destruct d' as [cols [|r rest]].
  - destruct (for_each _ _ _); cbn [mbind Result_bind]; done.
  - destruct (for_each _ _ _) as [best_params|e] eqn:Hloop; cbn [mbind Result_bind]; [|done].
    unfold GridSearchResult.iloc0, GridSearchResult.row_get.
    cbn [Collection.rows Collection.columns mbind Result_bind fst snd].
    destruct (Collection.column_position m cols) as [i|] eqn:Hi;
      cbn [mbind Result_bind]; [|done].
    intros [= <-]. exists m, h, d, (Collection.Build_DataFrame cols (r :: rest)), i, r, rest.
    split_and!; try done.
    + unfold or_default. destruct metric_name; [by injection Hm as -> |].
      by destruct (GridSearchResult.default_metric_name self); [injection Hm as ->|].
    + unfold or_default. destruct higher_is_better; [by injection Hh as -> |].
      by destruct (GridSearchResult.default_higher_is_better self); [injection Hh as ->|].
    + apply (best_params_loop cols r rest _ [] best_params Hloop).
Qed.

End best_params_facts.

(** The row a call of [get_best_params] that returns has taken: the
    first one in the order of the sort. *)
Lemma get_best_params_first (self : GridSearchResult.t)
    (metric_name : option string) (higher_is_better : option bool)
    (best : GridSearchResult.BestParams) :
  GridSearchResult.get_best_params self metric_name higher_is_better = Ok best →
  ∃ d i h,
    GridSearchResult.df self = Some d
    ∧ or_default metric_name (GridSearchResult.default_metric_name self)
      = Some (GridSearchResult.metric_name best)
    ∧ or_default higher_is_better (GridSearchResult.default_higher_is_better self) = Some h
    ∧ Collection.column_position (GridSearchResult.metric_name best) (Collection.columns d)
      = Some i
    ∧ (∃ r, r ∈ Collection.rows d
            ∧ GridSearchResult.metric_value best = Collection.cell i r
            ∧ ∀ param, param ∈ GridSearchResult.param_names self →
                ∃ j, Collection.column_position param (Collection.columns d) = Some j
                     ∧ PyDict.get (GridSearchResult.params best) param
                       = Some (Collection.cell j r))
    ∧ (∀ r', r' ∈ Collection.rows d →
         Collection.is_missing (Collection.cell i r') = false →
         Collection.in_order (negb h) (GridSearchResult.metric_value best)
           (Collection.cell i r') = true)
    ∧ (Collection.is_missing (GridSearchResult.metric_value best) = true →
       ∀ r', r' ∈ Collection.rows d → Collection.is_missing (Collection.cell i r') = true).
Proof.
  intros Hbest.
  destruct (get_best_params_returns _ _ _ _ Hbest)
    as (m & h & d & d' & i & r & rest & Hm & Hh & Hd & Hsort & Hi & Hrows & Hname & Hvalue
        & Hparams).
  destruct (sort_values_spec _ _ _ _ Hsort) as (i' & Hi' & Hcols & Hperm & Hsorted).
  rewrite Hcols in Hi, Hparams.
  assert (i' = i) as -> by congruence.
  unfold Collection.column_cells in Hsorted. rewrite Hrows in Hsorted. simpl in Hsorted.
  destruct (column_sorted_first _ _ _ Hsorted) as [Hfirst Hmissing].
  assert (Hcell : ∀ r', r' ∈ Collection.rows d →
            Collection.cell i r' ∈ nth i r.2 PyNone
              :: map (fun r0 : nat * list PyVal => nth i r0.2 PyNone) rest).
  { intros r' Hr'. rewrite <- Hperm, Hrows in Hr'.
    apply elem_of_cons in Hr' as [->|Hr']; [by left|]. right.
    change (map ?f ?l) with (f <$> l). apply list_elem_of_fmap. by exists r'. }
  exists d, i, h. rewrite Hname, Hvalue. split_and!; try done.
  - exists r. split_and!; [|done | done]. rewrite <- Hperm, Hrows. by left.
  - intros r' Hr' Hpresent. apply Hfirst; [by apply Hcell | done].
  - intros Hmiss r' Hr'. by apply (Hmissing Hmiss), Hcell.
Qed.

(** X17. When [get_best_params] returns, it returns the metric value and
    the parameter values of one row of the table, and that row is best:
    its metric value is at least (when higher is better) or at most
    (otherwise) the metric value of every row that has one; it is a
    missing value only when every row lacks the metric. *)
Theorem get_best_params_is_best (self : GridSearchResult.t)
    (metric_name : option string) (higher_is_better : option bool)
    (best : GridSearchResult.BestParams) :
  GridSearchResult.get_best_params self metric_name higher_is_better = Ok best →
  ∃ d i h,
    GridSearchResult.df self = Some d
    ∧ or_default metric_name (GridSearchResult.default_metric_name self)
      = Some (GridSearchResult.metric_name best)
    ∧ or_default higher_is_better (GridSearchResult.default_higher_is_better self) = Some h
    ∧ Collection.column_position (GridSearchResult.metric_name best) (Collection.columns d)
      = Some i
    ∧ (∃ r, r ∈ Collection.rows d
            ∧ GridSearchResult.metric_value best = Collection.cell i r
            ∧ ∀ param, param ∈ GridSearchResult.param_names self →
                ∃ j, Collection.column_position param (Collection.columns d) = Some j
                     ∧ PyDict.get (GridSearchResult.params best) param
                       = Some (Collection.cell j r))
    ∧ (∀ r', r' ∈ Collection.rows d →
         Collection.is_missing (Collection.cell i r') = false →
         (if h then Collection.py_le (Collection.cell i r') (GridSearchResult.metric_value best)
          else Collection.py_le (GridSearchResult.metric_value best) (Collection.cell i r'))
         = true)
    ∧ (Collection.is_missing (GridSearchResult.metric_value best) = true →
       ∀ r', r' ∈ Collection.rows d → Collection.is_missing (Collection.cell i r') = true).
Proof.
  intros Hbest.
  destruct (get_best_params_first _ _ _ _ Hbest)
    as (d & i & h & Hd & Hm & Hh & Hi & Hrow & Hfirst & Hmissing).
  exists d, i, h. split_and!; try done.
  intros r' Hr' Hpresent. specialize (Hfirst r' Hr' Hpresent).
  unfold Collection.in_order in Hfirst. by destruct h.
Qed.

Lemma get_best_params_is_best_witness :
  ∃ best, GridSearchResult.get_best_params sample_result None (Some true) = Ok best
          ∧ GridSearchResult.metric_value best = PyInt 9
          ∧ Collection.py_le (PyInt 4) (GridSearchResult.metric_value best) = true.
Proof.
  destruct (GridSearchResult.get_best_params sample_result None (Some true))
    as [best|e] eqn:Hbest; [|by vm_compute in Hbest].
  exists best. split; [done|].
  destruct (get_best_params_is_best _ _ _ _ Hbest)
    as (d & i & h & Hd & _ & Hh & Hi & _ & Hle & _).
  injection Hd as <-. injection Hh as <-.
  assert (Hname : GridSearchResult.metric_name best = "mse").
  { vm_compute in Hbest. by injection Hbest as <-. }
  rewrite Hname in Hi. injection Hi as <-. split.
  - vm_compute in Hbest. by injection Hbest as <-.
  - apply (Hle (0, [PyInt 4; PyInt 1; PyStr "x"])); [by left | done].
Defined.

Lemma metric_resolves (self : GridSearchResult.t) (metric_name : option string)
    (m : string) :
  or_default metric_name (GridSearchResult.default_metric_name self) = Some m →
  match metric_name with
  | Some m => Ok m
  | None =>
      match GridSearchResult.default_metric_name self with
      | Some m => Ok m
      | None => Raise (ValueError "metric_name must be specified")
      end
  end = Ok m.
Proof.
  unfold or_default. destruct metric_name; [by intros [= ->]|]. by intros ->.
Qed.

Lemma direction_resolves (self : GridSearchResult.t) (higher_is_better : option bool)
    (h : bool) :
  or_default higher_is_better (GridSearchResult.default_higher_is_better self) = Some h →
  match higher_is_better with
  | Some h => Ok h
  | None =>
      match GridSearchResult.default_higher_is_better self with
      | Some h => Ok h
      | None => Raise (ValueError "higher_is_better must be specified")
      end
  end = Ok h.
Proof.
  unfold or_default. destruct higher_is_better; [by intros [= ->]|]. by intros ->.
Qed.

(** X18. [get_best_params] raises [ValueError] when neither the call nor
    the result object names a metric, and when neither gives a
    direction; a result object constructed without a default metric
    keeps no default direction either.  With metric and direction known
    it raises [AttributeError] when the result has no table, [KeyError]
    when the metric is not a column of the table, and [IndexError] when
    the table has no row. *)
Theorem get_best_params_raises (self : GridSearchResult.t)
    (metric_name : option string) (higher_is_better : option bool) :
  let metric := or_default metric_name (GridSearchResult.default_metric_name self) in
  let direction :=
    or_default higher_is_better (GridSearchResult.default_higher_is_better self) in
  let call := GridSearchResult.get_best_params self metric_name higher_is_better in
  (metric = None → call = Raise (ValueError "metric_name must be specified"))
  ∧ (is_Some metric → direction = None →
     call = Raise (ValueError "higher_is_better must be specified"))
  ∧ (is_Some metric → is_Some direction → GridSearchResult.df self = None →
     call = Raise AttributeError)
  ∧ (∀ m d, metric = Some m → is_Some direction → GridSearchResult.df self = Some d →
       m ∉ Collection.columns d → call = Raise (KeyError m))
  ∧ (∀ m d, metric = Some m → is_Some direction → GridSearchResult.df self = Some d →
       m ∈ Collection.columns d → Collection.rows d = [] → call = Raise IndexError)
  ∧ (∀ df names h,
       GridSearchResult.default_higher_is_better (GridSearchResult.init df names None h)
       = None).
Proof.
  intros metric direction call. subst metric direction call.
  unfold GridSearchResult.get_best_params. split_and!.
  - unfold or_default. intros Hm. destruct metric_name; [done|]. by rewrite Hm.
  - intros [m Hm] Hh. rewrite (metric_resolves _ _ _ Hm). cbn [mbind Result_bind].
    unfold or_default in Hh. destruct higher_is_better; [done|]. by rewrite Hh.
  - intros [m Hm] [h Hh] Hdf.
    by rewrite (metric_resolves _ _ _ Hm), (direction_resolves _ _ _ Hh), Hdf.
  - intros m d Hm [h Hh] Hdf Hcol.
    rewrite (metric_resolves _ _ _ Hm), (direction_resolves _ _ _ Hh), Hdf.
    cbn [mbind Result_bind]. unfold Collection.sort_values.
    destruct (Collection.column_position m (Collection.columns d)) as [i|] eqn:Hi; [|done].
    apply column_position_lookup in Hi. exfalso. apply Hcol.
    by eapply list_elem_of_lookup_2.
  - intros m d Hm [h Hh] Hdf Hcol Hrows.
    rewrite (metric_resolves _ _ _ Hm), (direction_resolves _ _ _ Hh), Hdf.
    cbn [mbind Result_bind]. unfold Collection.sort_values.
    destruct (column_position_Some m _ Hcol) as [i ->]. rewrite Hrows.
    cbn [filter list_filter map Collection.comparable forallb orb Collection.sort_rows
         fold_left app mbind Result_bind].
    destruct (GridSearchResult.param_names self) as [|name names]; [done|].
    by rewrite best_params_loop_empty.
  - done.
Qed.

(** ** The result of a run *)

(** X19. The result object of a run carries the sort column and the
    direction of the run as defaults.  After a run that sorted by a
    column, [get_best_params()] without arguments is the call with that
    column and direction, and the metric value it returns comes first in
    the order of the run: it is at most (ascending) or at least
    (descending) the value of every row that has one.  After a run
    without sort column the result has no defaults: a call without a
    metric raises [ValueError], and so does a call with a metric and no
    direction. *)
Theorem run_result_defaults {Model D : Type} `{SkipDecider D}
    (model_factory : list (string * PyVal) → Model)
    (compute_metrics : Model → list (string * PyVal))
    (model_str : Model → string)
    (itertuples_asdict : Collection.DataFrame → list (list (string * PyVal)))
    (gs : GridSearch.t (D := D)) (sort_column_name : option string)
    (ascending : bool) (existing : option Collection.DataFrame)
    (result : GridSearchResult.t) :
  GridSearch.run_result model_factory compute_metrics model_str itertuples_asdict gs
    sort_column_name ascending existing = Ok result →
  match sort_column_name with
  | Some s =>
      GridSearchResult.get_best_params result None None
      = GridSearchResult.get_best_params result (Some s) (Some (negb ascending))
      ∧ ∀ best, GridSearchResult.get_best_params result None None = Ok best →
          GridSearchResult.metric_name best = s
          ∧ ∃ d i, GridSearchResult.df result = Some d
                   ∧ Collection.column_position s (Collection.columns d) = Some i
                   ∧ ∀ r, r ∈ Collection.rows d →
                       Collection.is_missing (Collection.cell i r) = false →
                       Collection.in_order ascending (GridSearchResult.metric_value best)
                         (Collection.cell i r) = true
  | None =>
      (∀ h, GridSearchResult.get_best_params result None h
            = Raise (ValueError "metric_name must be specified"))
      ∧ (∀ m, GridSearchResult.get_best_params result (Some m) None
              = Raise (ValueError "higher_is_better must be specified"))
  end.
Proof.
  unfold GridSearch.run_result.
  destruct (GridSearch.run _ _ _ _ gs _ _ _) as [st|e]; cbn [mbind Result_bind]; [|done].
  intros [= <-]. destruct sort_column_name as [s|].
  - split; [done|]. intros best Hbest.
    destruct (get_best_params_first _ _ _ _ Hbest)
      as (d & i & h & Hd & Hm & Hh & Hi & _ & Hfirst & _).
    simpl in Hm, Hh. injection Hm as Hm. injection Hh as <-.
    rewrite <- Hm in *. split; [done|]. exists d, i. split_and!; [done | done |].
    intros r Hr Hpresent. specialize (Hfirst r Hr Hpresent).
    by rewrite negb_involutive in Hfirst.
  - split; [by intros [h|] | done].
Qed.

Lemma run_result_defaults_witness :
  ∃ result best,
    GridSearch.run_result (fun p => p) sample_compute_metrics sample_model_str
      itertuples_plain sample_grid_search_pool (Some "mse") false None = Ok result
    ∧ GridSearchResult.get_best_params result None None = Ok best
    ∧ GridSearchResult.metric_name best = "mse"
    ∧ GridSearchResult.metric_value best = PyInt 3.
Proof.
  destruct (GridSearch.run_result (fun p => p) sample_compute_metrics sample_model_str
              itertuples_plain sample_grid_search_pool (Some "mse") false None)
    as [result|e] eqn:Hrun; [|by vm_compute in Hrun].
  pose proof (run_result_defaults _ _ _ _ _ _ _ _ _ Hrun) as [_ Hbest].
  destruct (GridSearchResult.get_best_params result None None) as [best|e] eqn:Hcall.
  - exists result, best. destruct (Hbest best eq_refl) as [Hname _].
    split_and!; [done | done | done |].
    vm_compute in Hrun. injection Hrun as <-. vm_compute in Hcall. by injection Hcall as <-.
  - vm_compute in Hrun. injection Hrun as <-. by vm_compute in Hcall.
Defined.

(** ** Evaluations of the annealing adapter *)

Section sa_evaluation_facts.
Context {Model Key : Type} `{EquivalenceClass Key}.
Context (model_factory : list (string * PyVal) → Model)
        (compute_metrics : Model → list (string * PyVal))
        (model_str : Model → string).
Implicit Types (sa : SAHyperOpt.t) (st : SAHyperOpt.Store (Key := Key)).

#[local] Abbreviation _eval_params :=
  (SAHyperOpt._eval_params model_factory compute_metrics model_str).
#[local] Abbreviation _compute_metric :=
  (SAHyperOpt._compute_metric model_factory compute_metrics model_str).

(** An evaluation reads the collection and the cache only, and leaves
    the attributes of the state as they are. *)
Lemma _eval_params_with_state st state p :
  _eval_params (with_state st state) p
  = (fun r : list (string * PyVal) * SAHyperOpt.Store (Key := Key) =>
       (r.1, with_state r.2 state)) <$> _eval_params st p.
Proof.
  unfold SAHyperOpt._eval_params. simpl.
  destruct (match SAHyperOpt.value_cache st with Some _ => _ | None => _ end); [done|].
  destruct (match SAHyperOpt.parameters_metrics_collection st with
            | Some _ => _ | None => _ end); done.
Qed.

Lemma _compute_metric_with_state sa st state p :
  _compute_metric sa (with_state st state) p
  = (fun r : PyVal * SAHyperOpt.Store (Key := Key) => (r.1, with_state r.2 state))
      <$> _compute_metric sa st p.
Proof.
  unfold SAHyperOpt._compute_metric. rewrite _eval_params_with_state.
  destruct (_eval_params st p) as [[m st1]|e]; simpl; [|done].
  destruct (PyDict.get m _) as [v|]; simpl; [|done].
  destruct (negb _); simpl; [|done]. by destruct (py_neg v).
Qed.

End sa_evaluation_facts.

(** X20. With a cache, an evaluation of the annealing adapter is made
    once per equivalence class: after a combination was evaluated (its
    class was not in the cache), the evaluation of any combination of
    the same class returns the metrics of the first, and changes
    neither the collection nor the cache. *)
Theorem evaluation_is_cached {Model Key : Type} `{EquivalenceClass Key}
    (model_factory : list (string * PyVal) → Model)
    (compute_metrics : Model → list (string * PyVal))
    (model_str : Model → string)
    (st st' : SAHyperOpt.Store (Key := Key))
    (vc : ValueCache.t Key (list (string * PyVal)))
    (p : list (string * PyVal)) (metrics : list (string * PyVal)) :
  SAHyperOpt.value_cache st = Some vc →
  ValueCache.get vc p = None →
  SAHyperOpt._eval_params model_factory compute_metrics model_str st p = Ok (metrics, st') →
  metrics = compute_metrics (model_factory p)
  ∧ SAHyperOpt.value_cache st' = Some (ValueCache.set vc p (Some metrics))
  ∧ ∀ p', _equivalence_class p' = _equivalence_class p →
      SAHyperOpt._eval_params model_factory compute_metrics model_str st' p'
      = Ok (metrics, st').
Proof.
  intros Hvc Hmiss. unfold SAHyperOpt._eval_params at 1. rewrite Hvc, Hmiss.
  destruct (match SAHyperOpt.parameters_metrics_collection st with
            | Some _ => _ | None => _ end) as [c|e]; simpl; [|done].
  intros [= <- <-]. split_and!; [done | done |].
  intros p' Hclass. unfold SAHyperOpt._eval_params. simpl.
  by rewrite cache_get_set_same.
Qed.

Lemma evaluation_is_cached_witness :
  ∃ st',
    SAHyperOpt._eval_params (fun p => p) sample_compute_metrics sample_model_str
      (SAHyperOpt.State_init sample_annealing (Some sample_plain_collection)
         (Some ValueCache.init) [])
      [("a", PyInt 1); ("b", PyInt 2)]
    = Ok ([("mse", PyInt 1)], st')
    ∧ SAHyperOpt._eval_params (fun p => p) sample_compute_metrics sample_model_str st'
        [("a", PyInt 1); ("b", PyInt 7)]
      = Ok ([("mse", PyInt 1)], st').
Proof.
  destruct (SAHyperOpt._eval_params (fun p => p) sample_compute_metrics sample_model_str
              (SAHyperOpt.State_init sample_annealing (Some sample_plain_collection)
                 (Some ValueCache.init) [])
              [("a", PyInt 1); ("b", PyInt 2)]) as [[m st']|e] eqn:Heval;
    [|by vm_compute in Heval].
  destruct (evaluation_is_cached (fun p => p) sample_compute_metrics sample_model_str
              (SAHyperOpt.State_init sample_annealing (Some sample_plain_collection)
                 (Some ValueCache.init) [])
              st' ValueCache.init [("a", PyInt 1); ("b", PyInt 2)] m eq_refl eq_refl Heval)
    as (-> & _ & Hhit).
  exists st'. split; [done|]. by apply Hhit.
Defined.

(** X21. [cost_delta] of a change is the cost of the changed state minus
    the current cost: it evaluates the combination that
    [apply_state_change] would make the state's, subtracts the cost the
    engine has recorded, and leaves the parameters of the state and the
    result sink as they are; what it changes is what the evaluation
    changes, the collection and the cache. *)
Theorem cost_delta_is_cost_difference {Model Key : Type} `{EquivalenceClass Key}
    (model_factory : list (string * PyVal) → Model)
    (compute_metrics : Model → list (string * PyVal))
    (model_str : Model → string)
    (sa : SAHyperOpt.t) (st st1 : SAHyperOpt.Store (Key := Key))
    (change : list (string * PyVal)) (new_cost current_cost : PyVal) :
  SAHyperOpt.compute_cost_value model_factory compute_metrics model_str sa
    (SAHyperOpt.apply_state_change st change) = Ok (new_cost, st1) →
  SAHyperOpt.cost st = Some current_cost →
  SAHyperOpt.cost_delta model_factory compute_metrics model_str sa st change
  = (delta ← py_sub new_cost current_cost; Ok (delta, with_state st1 st)).
Proof.
  unfold SAHyperOpt.compute_cost_value, SAHyperOpt.cost_delta. intros Hnew Hcost.
  replace (SAHyperOpt.apply_state_change st change)
    with (with_state st (SAHyperOpt.apply_state_change st change)) in Hnew at 1
    by (by destruct st).
  rewrite _compute_metric_with_state in Hnew. simpl in Hnew.
  destruct (SAHyperOpt._compute_metric _ _ _ sa st _) as [[v st0]|e] eqn:Hmetric;
    simpl in Hnew; [|done].
  injection Hnew as -> <-.
  destruct (_compute_metric_keeps _ _ _ _ _ _ _ _ Hmetric) as (Hr & Hp & Hc).
  cbn [mbind Result_bind]. rewrite Hc, Hcost. cbn [mbind Result_bind].
  destruct (py_sub new_cost current_cost) as [delta|e]; cbn [mbind Result_bind]; [|done].
  f_equal. f_equal. destruct st0, st. simpl in *. by subst.
Qed.

Lemma cost_delta_is_cost_difference_witness :
  SAHyperOpt.cost_delta (fun p => p) sample_compute_metrics sample_model_str
    sample_annealing sample_store [("a", PyInt 3)]
  = Ok (PyInt (-2), sample_store).
Proof.
  rewrite (cost_delta_is_cost_difference (fun p => p) sample_compute_metrics
             sample_model_str sample_annealing sample_store
             (SAHyperOpt.apply_state_change sample_store [("a", PyInt 3)])
             [("a", PyInt 3)] (PyInt 3) (PyInt 5));
    reflexivity.
Defined.

(** ** The collection of the annealing adapter *)

Section sa_collection_facts.
Context {Model Key : Type} `{EquivalenceClass Key}.
Context (model_factory : list (string * PyVal) → Model)
        (compute_metrics : Model → list (string * PyVal))
        (model_str : Model → string).
Implicit Types (sa : SAHyperOpt.t) (st : SAHyperOpt.Store (Key := Key)).

#[local] Abbreviation evaluate :=
  (fun st p =>
     snd <$> SAHyperOpt._eval_params model_factory compute_metrics model_str st p).
#[local] Abbreviation record :=
  (evaluation_record model_factory compute_metrics model_str).

(** Without a cache every evaluation adds its record. *)
Lemma evaluations_collect (ps : list (list (string * PyVal))) st (c c' : Collection.t) :
  SAHyperOpt.value_cache st = None →
  SAHyperOpt.parameters_metrics_collection st = Some c →
  for_each (record <$> ps) Collection.add_values c = Ok c' →
  ∃ st', for_each ps evaluate st = Ok st'
         ∧ SAHyperOpt.parameters_metrics_collection st' = Some c'
         ∧ SAHyperOpt.value_cache st' = None.
Proof.
  revert st c. induction ps as [|p ps IH]; intros st c Hcache Hcoll.
  - simpl. intros [= <-]. by exists st.
  - rewrite fmap_cons. cbn [for_each].
    destruct (Collection.add_values c (record p)) as [c1|e] eqn:Hadd;
      cbn [mbind Result_bind]; [|done].
    intros Hrest. cbn [for_each].
    assert (Hstep : SAHyperOpt._eval_params model_factory compute_metrics model_str st p
                    = Ok (compute_metrics (model_factory p),
                          SAHyperOpt.with_evaluation st (Some c1) None)).
    { unfold SAHyperOpt._eval_params. rewrite Hcache, Hcoll.
      unfold evaluation_record in Hadd. by rewrite Hadd. }
    rewrite Hstep. simpl. by apply (IH _ c1).
Qed.

Lemma evaluation_record_keys (p : list (string * PyVal)) :
  NoDup (PyDict.keys (compute_metrics (model_factory p))) →
  record p ≠ [] ∧ NoDup (PyDict.keys (record p)).
Proof.
  intros Hnd. unfold evaluation_record. split.
  - assert (Hk : "str(model)" ∈ PyDict.keys
                   (PyDict.update
                      (PyDict.set "str(model)" (PyStr (model_str (model_factory p)))
                         (compute_metrics (model_factory p))) p)).
    { apply dict_keys_update_elem. left.
      apply (dict_get_Some_keys _ _ (PyStr (model_str (model_factory p)))).
      apply dict_get_set_eq. }
    intros Hnil. rewrite Hnil in Hk. by apply elem_of_nil in Hk.
  - by apply dict_NoDup_keys_update, dict_NoDup_keys_set.
Qed.

End sa_collection_facts.

(** X22. The collection of an [SAHyperOpt] exists when data-frame
    collection is on or a results path is given, and it never sorts.
    Without a cache, evaluations therefore never fail to be recorded:
    every sequence of evaluations returns, and the table lists one
    record per evaluation in evaluation order, each holding the
    parameters and, under the other keys, the text of the model under
    ["str(model)"] and the evaluator's metrics. *)
Theorem annealing_collection_lists_evaluations {Model Key : Type} `{EquivalenceClass Key}
    (model_factory : list (string * PyVal) → Model)
    (compute_metrics : Model → list (string * PyVal))
    (model_str : Model → string)
    (itertuples_asdict : Collection.DataFrame → list (list (string * PyVal)))
    (sa : SAHyperOpt.t) (collect_data_frame : bool) (csv_results_path : option string)
    (existing : option Collection.DataFrame) (results : list (string * PyVal))
    (p : list (string * PyVal)) (ps : list (list (string * PyVal))) :
  collect_data_frame = true ∨ is_Some csv_results_path →
  (∀ p, NoDup (PyDict.keys (compute_metrics (model_factory p)))) →
  let st0 : SAHyperOpt.Store (Key := Key) :=
    SAHyperOpt.State_init sa
      (SAHyperOpt.init_parameters_metrics_collection itertuples_asdict
         collect_data_frame csv_results_path existing)
      None results in
  let records := evaluation_record model_factory compute_metrics model_str <$> p :: ps in
  ∃ st c d,
    for_each (p :: ps)
      (fun st p =>
         snd <$> SAHyperOpt._eval_params model_factory compute_metrics model_str st p)
      st0 = Ok st
    ∧ SAHyperOpt.parameters_metrics_collection st = Some c
    ∧ Collection.df c = Some d
    ∧ Collection.rows d = table_of (Collection.columns d) records
    ∧ Collection.columns d = PyDict.keys (PyDict.of_items (concat records))
    ∧ (∀ q k, q ∈ p :: ps → NoDup (PyDict.keys q) →
         PyDict.get (evaluation_record model_factory compute_metrics model_str q) k
         = match PyDict.get q k with
           | Some v => Some v
           | None =>
               if decide ("str(model)" = k)
               then Some (PyStr (model_str (model_factory q)))
               else PyDict.get (compute_metrics (model_factory q)) k
           end).
Proof.
  intros Hcollect Hmetrics st0 records.
  set (c0 := Collection.init itertuples_asdict csv_results_path None true false existing).
  assert (Hc0 : SAHyperOpt.parameters_metrics_collection st0 = Some c0).
  { subst st0. unfold SAHyperOpt.State_init, SAHyperOpt.init_parameters_metrics_collection.
    simpl. destruct csv_results_path; [done|].
    destruct Hcollect as [->|[? ?]]; done. }
  assert (Hfresh : Collection.df c0 = None ∧ Collection._current_row c0 = 0
                   ∧ Collection.sort_column_name c0 = None).
  { subst c0. unfold Collection.init. by destruct csv_results_path, existing. }
  destruct Hfresh as (Hdf & Hrow & Hsort).
  destruct (evaluation_record_keys model_factory compute_metrics model_str p (Hmetrics p))
    as [Hne Hnd].
  destruct (add_values_in_order_all c0
              (evaluation_record model_factory compute_metrics model_str p)
              (evaluation_record model_factory compute_metrics model_str <$> ps)
              Hdf Hrow Hne Hnd) as (c & Hrun & (d & Hd & Hcols & Hrows & _) & _).
  { intros s Hs. by rewrite Hsort in Hs. }
  destruct (evaluations_collect model_factory compute_metrics model_str (p :: ps) st0 c0 c)
    as (st & Heval & Hc & _); [done | done | done |].
  exists st, c, d. split_and!; try done.
  intros q k _ Hq. unfold evaluation_record.
  by rewrite dict_get_update_NoDup, dict_get_set.
Qed.

Lemma annealing_collection_lists_evaluations_witness :
  ∃ (st : SAHyperOpt.Store (Key := string)) c d,
    for_each [[("a", PyInt 5)]; [("a", PyInt 3)]]
      (fun st p =>
         snd <$> SAHyperOpt._eval_params (fun p => p) sample_compute_metrics
                   sample_model_str st p)
      (SAHyperOpt.State_init sample_annealing
         (SAHyperOpt.init_parameters_metrics_collection itertuples_plain false
            (Some "results.csv") None)
         None []) = Ok st
    ∧ SAHyperOpt.parameters_metrics_collection st = Some c
    ∧ Collection.df c = Some d
    ∧ Collection.rows d
      = [(0, [PyInt 5; PyStr "model"; PyInt 5]); (1, [PyInt 3; PyStr "model"; PyInt 3])].
Proof.
  destruct (annealing_collection_lists_evaluations (Key := string) (fun p => p)
              sample_compute_metrics sample_model_str itertuples_plain sample_annealing
              false (Some "results.csv") None [] [("a", PyInt 5)] [[("a", PyInt 3)]])
    as (st & c & d & Heval & Hc & Hd & Hrows & Hcols & _).
  - right. by eexists.
  - intros p. unfold sample_compute_metrics. simpl. apply NoDup_singleton.
  - exists st, c, d. split_and!; [done | done | done |].
    rewrite Hrows, Hcols. reflexivity.
Defined.

(** ** What the skip decider is told *)

Section decider_facts.
Context {Model D : Type} `{SkipDecider D}.
Context (model_factory : list (string * PyVal) → Model)
        (compute_metrics : Model → list (string * PyVal))
        (model_str : Model → string)
        (itertuples_asdict : Collection.DataFrame → list (list (string * PyVal))).
Implicit Types (gs : GridSearch.t (D := D)) (st : GridSearch.RunState (D := D)).

(** The sequential loop tells the decider what it collects, in order. *)
Lemma sequential_tells gs combos st st' :
  for_each combos (GridSearch.sequential_body model_factory compute_metrics model_str gs) st
  = Ok st' →
  ∃ tellings calls,
    GridSearch.skip_decider st' = told tellings <$> GridSearch.skip_decider st
    ∧ for_each tellings.*2 Collection.add_values (GridSearch.params_metrics_collection st)
      = Ok (GridSearch.params_metrics_collection st')
    ∧ GridSearch.eval_calls st' = GridSearch.eval_calls st ++ calls
    ∧ tellings.*1 `sublist_of` calls.*2.
Proof.
  revert st. induction combos as [|p combos IH]; intros st.
  - intros [= <-]. exists [], []. rewrite app_nil_r. split_and!; try done.
    by destruct (GridSearch.skip_decider st).
  - cbn [for_each]. rewrite sequential_body_eq.
    destruct (GridSearch.skip_existing gs _ p); [apply IH|].
    destruct (decider_skips (GridSearch.skip_decider st) p) eqn:Hskip.
    + rewrite eval_params_skips by done. simpl. intros Hrest.
      apply IH in Hrest as (tellings & calls & Hdec & Hadd & Hcalls & Hsub).
      simpl in *. exists tellings, ((GridSearch.combination_idx st, p) :: calls).
      split_and!; [done | done | by rewrite Hcalls, <- app_assoc |].
      rewrite fmap_cons. by apply sublist_cons.
    + destruct (eval_params_evaluates model_factory compute_metrics model_str
                  (GridSearch.skip_decider st) (GridSearch.name gs)
                  (GridSearch.combination_idx st) (GridSearch.model_save_directory gs) p
                  (GridSearch.saved_models st) Hskip) as (values & -> & _).
      cbn [GridSearch.collect_result].
      destruct (Collection.add_values _ values) as [c|e] eqn:Hadd1;
        cbn [mbind Result_bind]; [|done].
      intros Hrest. apply IH in Hrest as (tellings & calls & Hdec & Hadd & Hcalls & Hsub).
      simpl in *. exists ((p, values) :: tellings), ((GridSearch.combination_idx st, p) :: calls).
      split_and!.
      * rewrite Hdec. by destruct (GridSearch.skip_decider st).
      * simpl. by rewrite Hadd1.
      * by rewrite Hcalls, <- app_assoc.
      * rewrite !fmap_cons. by apply sublist_skip.
Qed.

Lemma for_each_drain_decider futures st st' :
  for_each futures GridSearch.drain_body st = Ok st' →
  GridSearch.skip_decider st' = GridSearch.skip_decider st.
Proof.
  revert st. induction futures as [|v futures IH]; intros st; simpl.
  - by intros [= ->].
  - destruct (GridSearch.drain_body st v) as [st1|e] eqn:Hstep; simpl; [|done].
    intros Hrest. rewrite (IH _ Hrest). unfold GridSearch.drain_body in Hstep.
    destruct (GridSearch.collect_result v _) as [c|e]; simpl in Hstep; [|done].
    by injection Hstep as <-.
Qed.

End decider_facts.

(** X23. In a sequential grid search the skip decider is told exactly
    what is collected: when the run completes, the decider has been
    told, in order, the combination and the values of every evaluation
    that was not skipped, and these values are the records of the
    collection, added in that order.  With a process pool the decider of
    the search is never told anything: the run ends with the decider it
    started with. *)
Theorem decider_is_told_what_is_collected {Model D : Type} `{SkipDecider D}
    (model_factory : list (string * PyVal) → Model)
    (compute_metrics : Model → list (string * PyVal))
    (model_str : Model → string)
    (itertuples_asdict : Collection.DataFrame → list (list (string * PyVal)))
    (gs : GridSearch.t (D := D)) (sort_column_name : option string)
    (ascending : bool) (existing : option Collection.DataFrame)
    (st : GridSearch.RunState (D := D)) :
  GridSearch.run model_factory compute_metrics model_str itertuples_asdict gs
    sort_column_name ascending existing = Ok st →
  let c0 :=
    Collection.init itertuples_asdict (GridSearch.csv_results_path gs)
      sort_column_name ascending (GridSearch.incremental gs) existing in
  if bool_decide (GridSearch.num_processes gs = 1%Z)
  then
    ∃ tellings,
      GridSearch.skip_decider st
      = told tellings <$> GridSearch.parameter_combination_skip_decider gs
      ∧ for_each tellings.*2 Collection.add_values c0
        = Ok (GridSearch.params_metrics_collection st)
      ∧ tellings.*1 `sublist_of` (GridSearch.eval_calls st).*2
  else GridSearch.skip_decider st = GridSearch.parameter_combination_skip_decider gs.
Proof.
  unfold GridSearch.run, GridSearch.enumerate. rewrite !for_each_concat.
  set (st0 := GridSearch.Build_RunState _ _ _ _ _ _).
  destruct (bool_decide (GridSearch.num_processes gs = 1%Z)).
  - intros Hrun.
    apply sequential_tells in Hrun as (tellings & calls & Hdec & Hadd & Hcalls & Hsub).
    exists tellings. simpl in *. by rewrite Hcalls.
  - destruct (bool_decide (GridSearch.num_processes gs ≤ 0)%Z); [done|].
    destruct (for_each _ _ st0) as [st1|e] eqn:Henum; simpl; [|done].
    intros Hdrain. rewrite (for_each_drain_decider _ _ _ Hdrain).
    destruct (parallel_total model_factory compute_metrics model_str gs
                (concat (map iter_param_combinations (GridSearch.parameter_options_list gs)))
                st0) as (st1' & new & Hrun & _ & _ & Hdec).
    rewrite Henum in Hrun. by injection Hrun as <-.
Qed.

Lemma decider_is_told_what_is_collected_witness :
  ∃ st,
    GridSearch.run (fun p => p) sample_compute_metrics sample_model_str
      itertuples_plain sample_grid_search_decider None true None = Ok st
    ∧ GridSearch.skip_decider st = Some 1
    ∧ ∃ d, Collection.get_data_frame (GridSearch.params_metrics_collection st) = Some d
           ∧ length (Collection.rows d) = 1.
Proof.
  destruct (GridSearch.run (fun p => p) sample_compute_metrics sample_model_str
              itertuples_plain sample_grid_search_decider None true None)
    as [st|e] eqn:Hrun; [|by vm_compute in Hrun].
  pose proof (decider_is_told_what_is_collected _ _ _ _ _ _ _ _ _ Hrun) as Htold.
  simpl in Htold. destruct Htold as (tellings & Hdec & _ & _).
  exists st. split; [done|]. vm_compute in Hrun. injection Hrun as <-.
  split; [reflexivity|]. eexists. split; reflexivity.
Defined.

(** ** A collection that resumes a table *)

Lemma padded_0 rows : padded 0 rows = rows.
Proof.
  unfold padded. rewrite <- (list_fmap_id rows) at 2. apply list_fmap_ext.
  intros i [l cells] _. simpl. by rewrite app_nil_r.
Qed.

Lemma padded_S k rows :
  map (fun r : nat * list PyVal => (r.1, r.2 ++ [PyNone])) (padded k rows)
  = padded (S k) rows.
Proof.
  unfold padded. change (map ?f ?l) with (f <$> l). rewrite <- list_fmap_compose.
  apply list_fmap_ext. intros i [l cells] _. simpl.
  rewrite <- app_assoc. do 2 f_equal. symmetry. apply replicate_S_end.
Qed.

Lemma padded_keys k rows : PyDict.keys (padded k rows) = PyDict.keys rows.
Proof.
  unfold padded, PyDict.keys. rewrite <- list_fmap_compose. by apply list_fmap_ext.
Qed.

Lemma table_from_snoc start cols records (r : list (string * PyVal)) :
  table_from start cols (records ++ [r])
  = table_from start cols records ++ [(start + length records, Collection.row_of cols r)].
Proof.
  unfold table_from. rewrite imap_app. simpl. by rewrite Nat.add_0_r.
Qed.

Lemma table_from_keys start cols records :
  PyDict.keys (table_from start cols records) = seq start (length records).
Proof.
  revert start. induction records as [|r records IH] using rev_ind; intros start.
  - done.
  - rewrite table_from_snoc, dict_keys_app, IH, length_app. simpl.
    by rewrite seq_app.
Qed.

Lemma table_from_add_column start cols (col : string) records :
  (∀ r, r ∈ records → col ∉ PyDict.keys r) →
  map (fun r : nat * list PyVal => (r.1, r.2 ++ [PyNone])) (table_from start cols records)
  = table_from start (cols ++ [col]) records.
Proof.
  intros Hcol. unfold table_from. change (map ?f ?l) with (f <$> l).
  rewrite fmap_imap. apply imap_ext. intros i r Hr. simpl.
  rewrite row_of_snoc; [done|]. apply Hcol. by eapply list_elem_of_lookup_2.
Qed.

(** The loop of [add_values] over the keys of the record, on a table
    that extends reloaded rows. *)
Lemma add_columns_resumed (ks C new : list string) (L : list (nat * list PyVal))
    (n : nat) (d : Collection.DataFrame) (records : list (list (string * PyVal))) :
  Collection.columns d = C ++ new →
  NoDup new →
  (∀ k, k ∈ new → k ∉ C) →
  Collection.rows d = padded (length new) L ++ table_from n (Collection.columns d) records →
  (∀ r k, r ∈ records → k ∈ PyDict.keys r → k ∈ Collection.columns d) →
  let d1 :=
    fold_left
      (fun df col =>
         if bool_decide (col ∈ Collection.columns df) then df
         else Collection.add_column col df) ks d in
  ∃ new1,
    Collection.columns d1 = C ++ new1
    ∧ NoDup new1
    ∧ (∀ k, k ∈ new1 → k ∉ C)
    ∧ Collection.rows d1
      = padded (length new1) L ++ table_from n (Collection.columns d1) records
    ∧ (∀ k, k ∈ Collection.columns d1 ↔ k ∈ Collection.columns d ∨ k ∈ ks).
Proof.
  revert d new. induction ks as [|k ks IH]; intros d new Hcols Hnd Hnew Hrows Hsub.
  - exists new. split_and!; try done. intros k. rewrite elem_of_nil. tauto.
  - simpl. destruct (bool_decide (k ∈ Collection.columns d)) eqn:Hk.
    + apply bool_decide_eq_true in Hk.
      destruct (IH d new Hcols Hnd Hnew Hrows Hsub) as (new1 & ? & ? & ? & ? & Hmem).
      exists new1. split_and!; try done.
      intros k'. rewrite Hmem, elem_of_cons. split; [tauto|].
      intros [?|[->|?]]; tauto.
    + apply bool_decide_eq_false in Hk.
      destruct (IH (Collection.add_column k d) (new ++ [k]))
        as (new1 & ? & ? & ? & ? & Hmem).
      * simpl. by rewrite Hcols, <- app_assoc.
      * apply NoDup_app. split_and!; [done | | apply NoDup_singleton].
        intros k' Hk' ->%list_elem_of_singleton. apply Hk. rewrite Hcols.
        apply elem_of_app. by right.
      * intros k' [Hk'| ->%list_elem_of_singleton]%elem_of_app; [by apply Hnew|].
        intros HC. apply Hk. rewrite Hcols. apply elem_of_app. by left.
      * simpl. rewrite Hrows, map_app, padded_S, (table_from_add_column _ _ k).
        -- rewrite length_app. simpl. by rewrite Nat.add_1_r.
        -- intros r Hr Hin. apply Hk. by apply (Hsub r).
      * intros r k' Hr Hk'. simpl. apply elem_of_app. left. by apply (Hsub r).
      * exists new1. split_and!; try done.
        intros k'. rewrite Hmem. simpl. rewrite elem_of_app, list_elem_of_singleton,
          elem_of_cons. tauto.
Qed.

Lemma add_values_resumed_step (c : Collection.t) (loaded : Collection.DataFrame)
    (records : list (list (string * PyVal))) (values : list (string * PyVal)) :
  Collection.columns loaded ≠ [] →
  PyDict.keys (Collection.rows loaded) = seq 0 (length (Collection.rows loaded)) →
  resumes c loaded records →
  ∃ c', Collection.add_values c values = Ok c'
        ∧ resumes c' loaded (records ++ [values]).
Proof.
  intros Hfilled Hlabels (d & new & Hdf & Hsort & Hcols & Hnd & Hmem & Hnew & Hrows & Hcur).
  unfold Collection.add_values.
  assert (Hprep : Collection.prepare_frame c values
                  = fold_left
                      (fun df col =>
                         if bool_decide (col ∈ Collection.columns df) then df
                         else Collection.add_column col df) (PyDict.keys values) d).
  { unfold Collection.prepare_frame. by rewrite Hdf. }
  destruct (add_columns_resumed (PyDict.keys values) (Collection.columns loaded) new
              (Collection.rows loaded) (length (Collection.rows loaded)) d records)
    as (new1 & Hcols1 & Hnd1 & Hnew1 & Hrows1 & Hmem1); [done | done | done | done | |].
  { intros r k Hr Hk. apply Hmem. right. by exists r. }
  rewrite <- Hprep in Hcols1, Hrows1, Hmem1.
  set (d1 := Collection.prepare_frame c values) in *.
  assert (Hfilled1 : Collection.columns d1 ≠ []).
  { rewrite Hcols1. destruct (Collection.columns loaded); done. }
  unfold Collection.loc_set. rewrite bool_decide_false by done.
  cbn [mbind Result_bind Collection.columns]. rewrite Hsort.
  cbn [mbind Result_bind]. eexists. split; [done|].
  exists {| Collection.columns := Collection.columns d1;
            Collection.rows :=
              PyDict.set (Collection._current_row c)
                (Collection.row_of (Collection.columns d1) values) (Collection.rows d1) |},
    new1.
  cbn [Collection.df Collection.sort_column_name Collection.columns Collection.rows
       Collection._current_row].
  split_and!; try done.
  - intros k. rewrite Hmem1, Hmem. split.
    + intros [[?|(r & Hr & Hk)]|Hk]; [by left | |].
      * right. exists r. split; [|done]. apply elem_of_app. by left.
      * right. exists values. split; [|done]. apply elem_of_app. right.
        by apply list_elem_of_singleton.
    + intros [?|(r & [Hr| ->%list_elem_of_singleton]%elem_of_app & Hk)];
        [by left; left | | by right].
      left. right. by exists r.
  - rewrite dict_set_fresh.
    + by rewrite Hrows1, table_from_snoc, Hcur, <- app_assoc.
    + rewrite Hrows1, dict_keys_app, padded_keys, table_from_keys, Hlabels, Hcur.
      rewrite <- seq_app. intros Hin%elem_of_seq. lia.
  - rewrite length_app. simpl. lia.
Qed.

Lemma add_values_resumed_all (loaded : Collection.DataFrame)
    (more records : list (list (string * PyVal))) (c : Collection.t) :
  Collection.columns loaded ≠ [] →
  PyDict.keys (Collection.rows loaded) = seq 0 (length (Collection.rows loaded)) →
  resumes c loaded records →
  ∃ c', for_each more Collection.add_values c = Ok c'
        ∧ resumes c' loaded (records ++ more).
Proof.
  intros Hfilled Hlabels. revert records c.
  induction more as [|r more IH]; intros records c Hinv.
  - exists c. by rewrite app_nil_r.
  - destruct (add_values_resumed_step c loaded records r Hfilled Hlabels Hinv)
      as (c1 & Hadd & Hinv1).
    destruct (IH _ _ Hinv1) as (c' & Hrun & Hinv').
    exists c'. cbn [for_each]. rewrite Hadd. cbn [mbind Result_bind].
    split; [done|]. by rewrite <- app_assoc in Hinv'.
Qed.

(** X24. A collection that reloads a table in incremental mode and does
    not sort extends it: when the reloaded rows are labelled 0, 1, ...
    as [read_csv] labels them, every sequence of [add_values] calls
    returns; the reloaded columns come first, followed by the keys of
    the records that the table did not have, each once; the reloaded
    rows are kept in place, with cells of the new columns missing, and
    are followed by one row per record in call order, labelled on from
    the number of reloaded rows. *)
Theorem resumed_collection_extends_table
    (itertuples_asdict : Collection.DataFrame → list (list (string * PyVal)))
    (path : string) (ascending : bool) (loaded : Collection.DataFrame)
    (records : list (list (string * PyVal))) :
  Collection.columns loaded ≠ [] →
  PyDict.keys (Collection.rows loaded) = seq 0 (length (Collection.rows loaded)) →
  ∃ c d new,
    for_each records Collection.add_values
      (Collection.init itertuples_asdict (Some path) None ascending true (Some loaded))
    = Ok c
    ∧ Collection.get_data_frame c = Some d
    ∧ Collection.columns d = Collection.columns loaded ++ new
    ∧ NoDup new
    ∧ (∀ k, k ∈ new ↔ (k ∉ Collection.columns loaded)
                        ∧ ∃ r, r ∈ records ∧ k ∈ PyDict.keys r)
    ∧ Collection.rows d
      = ((fun r => (r.1, r.2 ++ replicate (length new) PyNone)) <$> Collection.rows loaded)
        ++ imap (fun i r => (length (Collection.rows loaded) + i,
                             Collection.row_of (Collection.columns d) r)) records
    ∧ Collection._current_row c = length (Collection.rows loaded) + length records.
Proof.
  intros Hfilled Hlabels.
  destruct (add_values_resumed_all loaded records []
              (Collection.init itertuples_asdict (Some path) None ascending true
                 (Some loaded)) Hfilled Hlabels)
    as (c & Hrun & d & new & Hdf & _ & Hcols & Hnd & Hmem & Hnew & Hrows & Hcur).
  - exists loaded, []. simpl. rewrite app_nil_r, padded_0.
    split_and!; try done.
    + constructor.
    + intros k. split; [by left|]. intros [?|(r & Hr & _)]; [done|].
      by apply elem_of_nil in Hr.
    + intros k Hk. by apply elem_of_nil in Hk.
    + by rewrite app_nil_r.
  - exists c, d, new. split_and!; try done.
    intros k. split.
    + intros Hk. split; [by apply Hnew|].
      assert (Hin : k ∈ Collection.columns d).
      { rewrite Hcols. apply elem_of_app. by right. }
      apply Hmem in Hin as [Hin|Hin]; [|done]. by apply Hnew in Hk.
    + intros [Hnot Hrec].
      assert (Hin : k ∈ Collection.columns d) by (apply Hmem; by right).
      rewrite Hcols in Hin. by apply elem_of_app in Hin as [Hin|Hin].
Qed.

Lemma resumed_collection_extends_table_witness :
  ∃ c,
    for_each [[("a", PyInt 5); ("m", PyInt 7)]; [("b", PyInt 6)]] Collection.add_values
      sample_collection = Ok c
    ∧ Collection.get_data_frame c
      = Some {| Collection.columns := ["a"; "b"; "m"];
                Collection.rows :=
                  [(0, [PyInt 1; PyInt 2; PyNone]); (1, [PyInt 3; PyInt 4; PyNone]);
                   (2, [PyInt 5; PyNone; PyInt 7]); (3, [PyNone; PyInt 6; PyNone])] |}.
Proof.
  destruct (resumed_collection_extends_table itertuples_plain "results.csv" true
              sample_table [[("a", PyInt 5); ("m", PyInt 7)]; [("b", PyInt 6)]])
    as (c & d & new & Hrun & Hdf & _); [done | done |].
  exists c. split; [done|].
  unfold sample_collection in *. vm_compute in Hrun. injection Hrun as <-. reflexivity.
Defined.
